(** * Batch orchestration of the embedding download pipeline

    A shallow embedding of the three scripts of the repository

    - [download.py]: per-tile CRS resolution, index-resume work generation,
      worker [check_and_download];
    - [gee_embedding_download.py]: zone provisioning [export_zone_grids],
      per-item-exists worker [download_images];
    - [validate.py]: the sweeper [validate_file] / [main].

    The remote compute service, HTTP and the raster codec are external; their
    behaviour enters the model as oracles carried by the tiles and zones.
    The file system and the log are an explicit state threaded through a
    small state-and-exception monad. *)

From Stdlib Require Import ZArith QArith Qround List Lia Bool.
From Stdlib Require Import Ascii String DecimalNat DecimalString.
From stdpp Require Import base option list gmap strings sorting.

Local Open Scope string_scope.
Local Open Scope Z_scope.

(** ** Python string primitives used by the scripts *)

Module Py.

(** [s.startswith(p)] *)
Fixpoint startswith (p s : string) : bool :=
  match p, s with
  | EmptyString, _ => true
  | String a p', String b s' => if Ascii.eqb a b then startswith p' s' else false
  | String _ _, EmptyString => false
  end.

(** [s.endswith(p)]: scan the suffixes of [s]; exactly one of them has the
    length of [p]. *)
Fixpoint endswith (p s : string) : bool :=
  String.eqb p s ||
  match s with
  | EmptyString => false
  | String _ s' => endswith p s'
  end.

(** [s.split(sep)[-1]] for a one-character separator: the text after the
    last occurrence of [sep], or all of [s] when there is none. *)
Fixpoint last_field (sep : ascii) (s : string) : string :=
  match s with
  | EmptyString => EmptyString
  | String c s' =>
      if Ascii.eqb c sep then last_field sep s'
      else if existsb (Ascii.eqb sep) (list_ascii_of_string s') then last_field sep s'
      else s
  end.

(** [s.replace(pat, "")] for a non-empty [pat]: occurrences are removed left
    to right without overlap.  [skip] counts the characters of the
    occurrence being dropped. *)
Fixpoint remove_from (pat : string) (skip : nat) (s : string) : string :=
  match s with
  | EmptyString => EmptyString
  | String c s' =>
      match skip with
      | S k => remove_from pat k s'
      | O => if startswith pat s
             then remove_from pat (String.length pat - 1) s'
             else String c (remove_from pat 0 s')
      end
  end.

Definition remove_all (pat s : string) : string := remove_from pat 0 s.

(** ASCII white space, as stripped by [int()]: space, [\t \n \v \f \r] and
    the separators 0x1c-0x1f. *)
Definition is_space (c : ascii) : bool :=
  let n := nat_of_ascii c in
  (Nat.eqb n 32 || (Nat.leb 9 n && Nat.leb n 13) || (Nat.leb 28 n && Nat.leb n 31))%bool.

Fixpoint lstrip (s : string) : string :=
  match s with
  | String c s' => if is_space c then lstrip s' else s
  | EmptyString => EmptyString
  end.

(** value of a decimal digit character *)
Definition digit_value (c : ascii) : option Z :=
  let n := nat_of_ascii c in
  if (Nat.leb 48 n && Nat.leb n 57)%bool then Some (Z.of_nat (n - 48)) else None.

(** Digits are read left to right into an accumulator; trailing white space
    is accepted once at least one digit has been read, anything else is a
    [ValueError] ([None]). *)
Fixpoint only_spaces (s : string) : bool :=
  match s with
  | EmptyString => true
  | String c s' => is_space c && only_spaces s'
  end.

Fixpoint read_digits (acc : Z) (s : string) : option Z :=
  match s with
  | EmptyString => Some acc
  | String c s' =>
      match digit_value c with
      | Some d => read_digits (10 * acc + d) s'
      | None => if only_spaces s then Some acc else None
      end
  end.

Definition read_number (s : string) : option Z :=
  match s with
  | String c _ => match digit_value c with
                  | Some _ => read_digits 0 s
                  | None => None
                  end
  | EmptyString => None
  end.

(** [int(s)] on ASCII text: optional surrounding white space, optional sign,
    at least one decimal digit.  (Separating underscores cannot occur in the
    callers, which split on ["_"] first.) *)
Definition int (s : string) : option Z :=
  match lstrip s with
  | String "-" r => Z.opp <$> read_number r
  | String "+" r => read_number r
  | r => read_number r
  end.

(** [str(n)] for an integer *)
Definition str (z : Z) : string :=
  if z <? 0 then String "-" (NilZero.string_of_uint (Nat.to_uint (Z.to_nat (- z))))
  else NilZero.string_of_uint (Nat.to_uint (Z.to_nat z)).

(** [f"{i:02d}"] for a non-negative integer *)
Definition pad2 (z : Z) : string :=
  if (0 <=? z) && (z <? 10) then String "0" (str z) else str z.

(** [sep.join(l)] *)
Fixpoint join (sep : string) (l : list string) : string :=
  match l with
  | [] => EmptyString
  | [x] => x
  | x :: l' => x ++ sep ++ join sep l'
  end.

(** [os.path.join(a, *p)] of [posixpath] *)
Definition path_join2 (path b : string) : string :=
  if startswith "/" b then b
  else if String.eqb path "" || endswith "/" path then path ++ b
  else path ++ "/" ++ b.

Definition path_join (a : string) (p : list string) : string :=
  foldl path_join2 a p.

End Py.


(** ** Persisted and remote state *)

(** What a downloaded body turns out to be once on disk: a raster with
    [count] bands, or bytes the raster codec cannot open (an error page, a
    truncated transfer, a text file). *)
Inductive payload :=
| GeoTiff (count : nat) (pixels : N)
| Opaque (text : string).

Record file := File { body : payload; descriptions : list (option string) }.

(** Responses of the remote service and of HTTP to one download attempt. *)
Inductive response :=
| NoURL                  (* [getDownloadURL] raises *)
| NoReply                (* [requests.get] raises: time-out, connection *)
| BadStatus              (* [raise_for_status] raises *)
| Content (p : payload). (* success status, body [p] *)

(** A grid tile together with what the remote service does with it:
    [centroid] is the evaluated centroid ([None]: the evaluation fails),
    [responses k] answers the [k]-th download attempt of a worker. *)
Record tile := Tile {
  centroid : option (Q * Q);
  transform_ok : bool;
  image_ok : bool;
  responses : nat -> response
}.

(** A UTM zone of the zone grid that meets the country. *)
Record zone_feature := ZoneFeature {
  zone_number : Z;
  area : option Q;          (* [clipped.area().getInfo()], [None]: it raises *)
  covering_grid : list tile;
  export_polls : nat;       (* how often [task.active()] answers [True] *)
  export_ok : bool          (* the task ends [completed], not [failed] *)
}.

Inductive level := INFO | WARNING | ERROR.

Inductive message :=
| MsgLoadingGrid
| MsgStartChunk (chunk_name : string) (bands : list string)
| MsgImageFailed (tile_index : option Z)
| MsgRetryFailed (tile_index : option Z) (attempt total : nat)
| MsgGaveUp (filename : string)
| MsgChunkTally (chunk_name : string) (succeeded attempted : nat)
| MsgStartExport
| MsgAreaError (zone : Z)
| MsgExporting (asset_id : string)
| MsgWaiting (zone : Z)
| MsgExported (zone : Z)
| MsgAssetExists (asset_id : string)
| MsgNoZones
| MsgExportDone
| MsgTotalTasks (zone : Z) (chunk_name : string) (n : nat)
| MsgZoneTally (zone : Z) (chunk_name : string) (succeeded attempted : nat)
| MsgNoDirectory (chunk_dir : string)
| MsgDeleted (path : string)
| MsgDeleteFailed (path : string)
| MsgDeletedCount (chunk_name : string) (deleted : nat).

(** Observable actions, in the order they happen. *)
Inductive event :=
| Log (l : level) (m : message)
| Sleep (seconds : Q)
| ResolveCRS (tile_index : Z)
| GetDownloadURL (dir name : string)
| HttpGet (dir name : string)
| WriteFile (dir name : string)
| TagBands (dir name : string)
| RemoveFile (dir name : string)
| StartExport (asset_id : string).

Inductive exn :=
| EEException | ConnectionError | HTTPError | OSError | RasterioIOError
| IndexError | ValueError | CRSError
| SystemExit (code : Z).

(** [except Exception] does not catch [SystemExit]. *)
Definition is_Exception (e : exn) : bool :=
  match e with SystemExit _ => false | _ => true end.

(** The file system maps a directory path to its entries; [locked] holds the
    entries the process may neither open for writing nor unlink; [assets]
    is the remote asset store; [trace] is the history, oldest first. *)
Record world := World {
  fs : gmap string (gmap string file);
  locked : gset (string * string);
  assets : gmap string (list tile);
  trace : list event
}.

(** ** State and exceptions *)

Inductive outcome (A : Type) :=
| Ret (a : A)
| Raise (e : exn).
Arguments Ret {A} a.
Arguments Raise {A} e.

Definition M (A : Type) : Type := world -> outcome A * world.

Definition ret {A} (a : A) : M A := fun w => (Ret a, w).
Definition raise {A} (e : exn) : M A := fun w => (Raise e, w).
Definition bind {A B} (m : M A) (k : A -> M B) : M B :=
  fun w => match m w with
           | (Ret a, w') => k a w'
           | (Raise e, w') => (Raise e, w')
           end.

Declare Scope m_scope.
Delimit Scope m_scope with M.
Notation "x <- m ;; k" := (bind m (fun x => k))
  (at level 100, m at next level, right associativity) : m_scope.
Notation "m ;; k" := (bind m (fun _ => k))
  (at level 100, right associativity) : m_scope.
Local Open Scope m_scope.

(** [try: m  except Exception as e: ...] as a value: [inl e] when [m]
    raised an [Exception]; what [m] did to the world before raising stays. *)
Definition try_ {A} (m : M A) : M (exn + A) :=
  fun w => match m w with
           | (Ret a, w') => (Ret (inr a), w')
           | (Raise e, w') => if is_Exception e then (Ret (inl e), w') else (Raise e, w')
           end.

Definition get_fs : M (gmap string (gmap string file)) := fun w => (Ret (fs w), w).
Definition put_fs (f : gmap string (gmap string file)) : M unit :=
  fun w => (Ret tt, World f (locked w) (assets w) (trace w)).
Definition emit (e : event) : M unit :=
  fun w => (Ret tt, World (fs w) (locked w) (assets w) (trace w ++ [e])).
(** [logging.info], [logging.warning], [logging.error]: a record handed to
    the root logger. *)
Definition log (l : level) (m : message) : M unit := emit (Log l m).

(** The stream handler that [download.py] and [gee_embedding_download.py]
    install at import carries [WarningFilter], which lets a record through
    unless its level is WARNING ([validate.py] installs no filter). *)
Definition WarningFilter (l : level) : bool :=
  match l with WARNING => false | _ => true end.

(** what of a history the handler of these two scripts prints *)
Definition printed (evs : list event) : list event :=
  List.filter (fun e => match e with Log l _ => WarningFilter l | _ => false end) evs.

(** sequential [for x in l: f x], collecting the results *)
Fixpoint mapM {A B} (f : A -> M B) (l : list A) : M (list B) :=
  match l with
  | [] => ret []
  | x :: l' => y <- f x ;; ys <- mapM f l' ;; ret (y :: ys)
  end.

Fixpoint forM_ {A} (l : list A) (f : A -> M unit) : M unit :=
  match l with
  | [] => ret tt
  | x :: l' => f x ;; forM_ l' f
  end.

(** ** Operating-system and codec calls *)

(** [os.makedirs(d, exist_ok=True)] *)
Definition makedirs (d : string) : M unit :=
  f <- get_fs ;;
  match f !! d with
  | Some _ => ret tt
  | None => put_fs (<[d := ∅]> f)
  end.

(** [os.path.exists(os.path.join(d, n))] *)
Definition path_exists (d n : string) : M bool :=
  f <- get_fs ;;
  ret (match f !! d with
       | Some entries => bool_decide (is_Some (entries !! n))
       | None => false
       end).

(** [os.path.isdir(d)] *)
Definition isdir (d : string) : M bool :=
  f <- get_fs ;; ret (bool_decide (is_Some (f !! d))).

(** [os.listdir(d)] *)
Definition listdir (d : string) : M (list string) :=
  f <- get_fs ;;
  match f !! d with
  | Some entries => ret (map fst (map_to_list entries))
  | None => raise OSError
  end.

(** [with open(path, 'w') as f: f.write(...)]: creates or truncates. *)
Definition write_file (d n : string) (c : file) : M unit :=
  fun w =>
    if bool_decide ((d, n) ∈ locked w) then (Raise OSError, w)
    else match fs w !! d with
         | None => (Raise OSError, w)
         | Some entries =>
             (Ret tt, World (<[d := <[n := c]> entries]> (fs w)) (locked w) (assets w)
                            (trace w ++ [WriteFile d n]))
         end.

(** [os.remove(path)] *)
Definition remove (d n : string) : M unit :=
  fun w =>
    if bool_decide ((d, n) ∈ locked w) then (Raise OSError, w)
    else match fs w !! d with
         | None => (Raise OSError, w)
         | Some entries =>
             match entries !! n with
             | None => (Raise OSError, w)
             | Some _ =>
                 (Ret tt, World (<[d := delete n entries]> (fs w)) (locked w) (assets w)
                                (trace w ++ [RemoveFile d n]))
             end
         end.

(** [time.sleep(x)]: a negative length is a [ValueError]. *)
Definition sleep (x : Q) : M unit :=
  if Qle_bool 0 x then emit (Sleep x) else raise ValueError.

(** A body as it lies on disk right after the write: a raster carries one
    empty description per band. *)
Definition fresh_file (p : payload) : file :=
  match p with
  | GeoTiff count _ => File p (replicate count None)
  | Opaque _ => File p []
  end.

(** The tagging block: [rasterio.open(outp, 'r+')], band 1 becomes
    ["wetland_label"], band [bi] in [range(2, count + 1)] becomes
    ["embedding_{bi-2}"]. *)
Definition tagged (count : nat) (ds : list (option string)) : list (option string) :=
  foldl (fun ds bi => <[(bi - 1)%nat := Some ("embedding_" ++ Py.str (Z.of_nat (bi - 2)))]> ds)
        (<[0%nat := Some "wetland_label"]> ds)
        (seq 2 (count - 1)).

Definition tag_bands (d n : string) : M unit :=
  f <- get_fs ;;
  match f !! d with
  | None => raise RasterioIOError
  | Some entries =>
      match entries !! n with
      | Some (File (GeoTiff count px) ds) =>
          match count with
          | O => raise IndexError
          | S _ =>
              put_fs (<[d := <[n := File (GeoTiff count px) (tagged count ds)]> entries]> f) ;;
              emit (TagBands d n)
          end
      | _ => raise RasterioIOError
      end
  end.

(** ** Configuration ([config.json], read once at start-up) *)

Record config := Config {
  COUNTRY_NAME : string;
  SOUTH : bool;
  MAX_RETRIES : nat;
  BASE_WAIT : Q;
  YEAR : string;
  RES : Z;
  OUTPUT_DIR : string;
  GRID_SIZE : Z;
  ASSET_FOLDER : string;
  raw_chunks : list (string * list Z)
}.

(** [os.path.join(OUTPUT_DIR, COUNTRY_NAME, YEAR, chunk_name)] *)
Definition out_dir (cfg : config) (chunk_name : string) : string :=
  Py.path_join (OUTPUT_DIR cfg) [COUNTRY_NAME cfg; YEAR cfg; chunk_name].

(** [f"google_embed_{COUNTRY_NAME}_{YEAR}_{RES}m_"] *)
Definition artifact_prefix (cfg : config) : string :=
  "google_embed_" ++ COUNTRY_NAME cfg ++ "_" ++ YEAR cfg ++ "_" ++ Py.str (RES cfg) ++ "m_".

(** [f"google_embed_{COUNTRY_NAME}_{YEAR}_{RES}m_{epsg}_{chunk_name}_{i}.tif"] *)
Definition filename (cfg : config) (epsg : Z) (chunk_name : string) (i : Z) : string :=
  artifact_prefix cfg ++ Py.str epsg ++ "_" ++ chunk_name ++ "_" ++ Py.str i ++ ".tif".

(** [{name: [f"A{i:02d}" for i in band_indices]}] *)
Definition chunks_of (raw : list (string * list Z)) : list (string * list string) :=
  map (fun '(chunk_name, band_indices) =>
         (chunk_name, map (fun i => "A" ++ Py.pad2 i) band_indices)) raw.

(** [sum(r is not None for r in results)] *)
Definition succeeded (results : list (option string)) : nat :=
  length (List.filter (fun r : option string => match r with Some _ => true | None => false end)
                      results).

(** ** The download attempt and the retry loop (both pipelines)

    The body of the [try] inside [for attempt in range(MAX_RETRIES)]:
    download URL, HTTP GET, status check, write, band tagging and, for tile
    index 0, the manifest. *)
Definition download_attempt (feat : tile) (k : nat) (i : Z) (dir name : string)
    (band_list : list string) : M string :=
  emit (GetDownloadURL dir name) ;;
  match responses feat k with
  | NoURL => raise EEException
  | NoReply => emit (HttpGet dir name) ;; raise ConnectionError
  | BadStatus => emit (HttpGet dir name) ;; raise HTTPError
  | Content p =>
      emit (HttpGet dir name) ;;
      write_file dir name (fresh_file p) ;;
      tag_bands dir name ;;
      (if i =? 0
       then write_file dir "bands_used.txt" (File (Opaque (Py.join (String "010" "") band_list)) [])
       else ret tt) ;;
      ret (Py.path_join2 dir name)
  end.

(** [for attempt in attempts: try: return body(attempt)
     except Exception: warning(...); time.sleep(BASE_WAIT * 2**attempt)];
    [None] when the loop runs out. *)
Fixpoint retry_loop (cfg : config) (body : nat -> M string) (tile_index : option Z)
    (attempts : list nat) : M (option string) :=
  match attempts with
  | [] => ret None
  | attempt :: rest =>
      r <- try_ (body attempt) ;;
      match r with
      | inr outp => ret (Some outp)
      | inl _ =>
          log WARNING (MsgRetryFailed tile_index (attempt + 1) (MAX_RETRIES cfg)) ;;
          sleep (BASE_WAIT cfg * inject_Z (2 ^ Z.of_nat attempt)) ;;
          retry_loop cfg body tile_index rest
      end
  end.

(** ** [download.py] *)

Module Download.

Definition CHUNKS (cfg : config) : list (string * list string) := chunks_of (raw_chunks cfg).

(** The EPSG expression evaluated by the service for a centroid. *)
Definition utm_zone (lon : Q) : Z := Qfloor ((lon + 180) / 6) + 1.
Definition is_southern (lat : Q) : bool := negb (Qle_bool 0 lat).
Definition epsg_code (lon lat : Q) : Z :=
  if is_southern lat then 32700 + utm_zone lon else 32600 + utm_zone lon.

(** [int(ee.Number(epsg_code).getInfo())]: the one blocking evaluation of the
    worker's preamble. *)
Definition resolve_epsg (i : Z) (feat : tile) : M Z :=
  emit (ResolveCRS i) ;;
  match centroid feat with
  | Some (lon, lat) => ret (epsg_code lon lat)
  | None => raise EEException
  end.

(** [feat.transform(...)] followed by [get_embedding_image] *)
Definition get_embedding_image (feat : tile) : M unit :=
  if transform_ok feat && image_ok feat then ret tt else raise EEException.

Definition check_and_download (cfg : config)
    (params : Z * tile * list string * string) : M (option string) :=
  let '(i, feat, band_list, chunk_name) := params in
  epsg <- resolve_epsg i feat ;;
  let dir := out_dir cfg chunk_name in
  makedirs dir ;;
  let name := filename cfg epsg chunk_name i in
  present <- path_exists dir name ;;
  if present then ret None
  else
    img <- try_ (get_embedding_image feat) ;;
    match img with
    | inl _ => log ERROR (MsgImageFailed (Some i)) ;; ret None
    | inr _ =>
        r <- retry_loop cfg (fun attempt => download_attempt feat attempt i dir name band_list)
               (Some i) (seq 0 (MAX_RETRIES cfg)) ;;
        match r with
        | Some outp => ret (Some outp)
        | None => log ERROR (MsgGaveUp name) ;; ret None
        end
    end.

(** [f.endswith(".tif") and f.startswith(prefix)] *)
Definition is_artifact (cfg : config) (f : string) : bool :=
  Py.endswith ".tif" f && Py.startswith (artifact_prefix cfg) f.

(** [int(f.split("_")[-1].replace(".tif", ""))] *)
Definition tile_index_of (f : string) : option Z :=
  Py.int (Py.remove_all ".tif" (Py.last_field "_" f)).

Definition existing_files (cfg : config) (names : list string) : M (list Z) :=
  l <- mapM (fun f => match tile_index_of f with
                      | Some z => ret z
                      | None => raise ValueError
                      end)
            (List.filter (is_artifact cfg) names) ;;
  ret (merge_sort Z.le l).

(** [max(l) + 1 if l else 0] *)
Definition start_index (existing : list Z) : Z :=
  match existing with
  | [] => 0
  | x :: l => fold_left Z.max l x + 1
  end.

(** [features.get(i)]: a negative index counts from the end; outside the
    list the element cannot be evaluated. *)
Definition unevaluable : tile := Tile None false false (fun _ => NoURL).

Definition features_get (grid : list tile) (i : Z) : tile :=
  let j := if i <? 0 then Z.of_nat (length grid) + i else i in
  if j <? 0 then unevaluable
  else default unevaluable (grid !! Z.to_nat j).

Definition all_params (grid : list tile) (start : Z) (band_list : list string)
    (chunk_name : string) : list (Z * tile * list string * string) :=
  map (fun i => (i, features_get grid i, band_list, chunk_name))
      (seqZ start (Z.of_nat (length grid) - start)).

(** One iteration of [for chunk_name, band_list in CHUNKS.items()].  The
    pool is run in enumeration order; [r.get()] hands on the first
    exception a worker raised. *)
Definition process_chunk (cfg : config) (grid : list tile)
    (chunk : string * list string) : M unit :=
  let '(chunk_name, band_list) := chunk in
  log INFO (MsgStartChunk chunk_name band_list) ;;
  let dir := out_dir cfg chunk_name in
  makedirs dir ;;
  names <- listdir dir ;;
  existing <- existing_files cfg names ;;
  let params := all_params grid (start_index existing) band_list chunk_name in
  results <- mapM (check_and_download cfg) params ;;
  log INFO (MsgChunkTally chunk_name (succeeded results) (length params)).

Definition main (cfg : config) (grid : list tile) : M unit :=
  log INFO MsgLoadingGrid ;;
  forM_ (CHUNKS cfg) (process_chunk cfg grid).

End Download.

(** ** [gee_embedding_download.py] *)

Module GeeEmbeddingDownload.

(** [[f"A{i:02d}" for i in range(1, 64)]] and its three slices *)
Definition ALL_BANDS : list string := map (fun i => "A" ++ Py.pad2 i) (seqZ 1 63).

Definition CHUNKS : list (string * list string) :=
  [ ("bands_01_22", take 22 ALL_BANDS);
    ("bands_23_44", take 22 (drop 22 ALL_BANDS));
    ("bands_45_64", take 19 (drop 44 ALL_BANDS)) ].

(** [asset_exists]: [ee.data.getAsset] raising means absent. *)
Definition asset_exists (aid : string) : M bool :=
  fun w => (Ret (bool_decide (is_Some (assets w !! aid))), w).

(** Modelled from the spec: [pyproj]'s
    [CRS.from_dict({'proj':'utm','zone':zone,'south':south}).to_authority()[1]]
    is outside the repository; by the zone-to-code formula of the
    specification it is 32700 + zone for the southern and 32600 + zone for
    the northern hemisphere, for the 60 zones that exist. *)
Definition utm_epsg (zone : Z) (south : bool) : option Z :=
  if (1 <=? zone) && (zone <=? 60)
  then Some (if south then 32700 + zone else 32600 + zone)
  else None.

(** [while task.active(): info(...); time.sleep(10)] *)
Fixpoint wait_for_export (zone : Z) (polls : nat) : M unit :=
  match polls with
  | O => ret tt
  | S n => log INFO (MsgWaiting zone) ;; sleep 10 ;; wait_for_export zone n
  end.

(** [Export.table.toAsset(...)], [task.start()] and the polling loop; the
    asset appears when the task completes. *)
Definition run_export (z : zone_feature) (asset_id : string) : M unit :=
  emit (StartExport asset_id) ;;
  wait_for_export (zone_number z) (export_polls z) ;;
  if export_ok z
  then fun w => (Ret tt, World (fs w) (locked w)
                               (<[asset_id := covering_grid z]> (assets w)) (trace w))
  else ret tt.

Definition zone_entry : Type := Z * Z * string * string.

(** Body of [for z in zones]; [None] stands for [continue]. *)
Definition export_zone (cfg : config) (z : zone_feature) : M (option zone_entry) :=
  let zone := zone_number z in
  match area z with
  | None => log ERROR (MsgAreaError zone) ;; ret None
  | Some area_sq_m =>
      if Qeq_bool area_sq_m 0 then ret None
      else
        match utm_epsg zone (SOUTH cfg) with
        | None => raise CRSError
        | Some epsg =>
            let crs := "EPSG:" ++ Py.str epsg in
            let asset_id := ASSET_FOLDER cfg ++ COUNTRY_NAME cfg ++ "_utm_grid_"
                            ++ Py.str (GRID_SIZE cfg) ++ "m_zone" ++ Py.str zone in
            present <- asset_exists asset_id ;;
            (if present then log INFO (MsgAssetExists asset_id)
             else log INFO (MsgExporting asset_id) ;;
                  run_export z asset_id ;;
                  log INFO (MsgExported zone)) ;;
            ret (Some (zone, epsg, crs, asset_id))
        end
  end.

Definition export_zone_grids (cfg : config) (zones : list zone_feature) : M (list zone_entry) :=
  log INFO MsgStartExport ;;
  found <- mapM (export_zone cfg) zones ;;
  let zone_info := omap id found in
  match zone_info with
  | [] => log ERROR MsgNoZones ;; raise (SystemExit 1)
  | _ => log INFO MsgExportDone ;; ret zone_info
  end.

Definition download_images (cfg : config)
    (params : tile * Z * Z * list string * string) : M (option string) :=
  let '(feat, idx, epsg, band_list, chunk_name) := params in
  (if transform_ok feat then ret tt else raise EEException) ;;
  img <- try_ (if image_ok feat then ret tt else raise EEException) ;;
  match img with
  | inl _ => log ERROR (MsgImageFailed None) ;; ret None
  | inr _ =>
      let dir := out_dir cfg chunk_name in
      makedirs dir ;;
      let name := filename cfg epsg chunk_name idx in
      let outp := Py.path_join2 dir name in
      present <- path_exists dir name ;;
      if present then ret (Some outp)
      else
        r <- retry_loop cfg (fun i => download_attempt feat i idx dir name band_list)
               None (seq 0 (MAX_RETRIES cfg)) ;;
        match r with
        | Some outp => ret (Some outp)
        | None => log ERROR (MsgGaveUp name) ;; ret None
        end
  end.

(** [ee.FeatureCollection(aid)] listed by [getInfo()] *)
Definition asset_features (aid : string) : M (list tile) :=
  fun w => match assets w !! aid with
           | Some lst => (Ret lst, w)
           | None => (Raise EEException, w)
           end.

Definition process_zone (cfg : config) (chunk : string * list string)
    (entry : zone_entry) : M unit :=
  let '(chunk_name, band_list) := chunk in
  let '(zone, epsg, crs, aid) := entry in
  lst <- asset_features aid ;;
  let params := imap (fun i feat => (feat, Z.of_nat i, epsg, band_list, chunk_name)) lst in
  log INFO (MsgTotalTasks zone chunk_name (length params)) ;;
  results <- mapM (download_images cfg) params ;;
  log INFO (MsgZoneTally zone chunk_name (succeeded results) (length params)).

Definition main (cfg : config) (zones : list zone_feature) : M unit :=
  zone_info <- export_zone_grids cfg zones ;;
  forM_ CHUNKS (fun chunk =>
    log INFO (MsgStartChunk (fst chunk) (snd chunk)) ;;
    forM_ zone_info (process_zone cfg chunk)).

End GeeEmbeddingDownload.

(** ** [validate.py] *)

Module Validate.

Definition EXPECTED_LABEL_BANDS : nat := 1.

Definition CHUNKS (cfg : config) : list (string * list string) := chunks_of (raw_chunks cfg).

(** [rasterio.open(full_path).count] *)
Definition band_count (d n : string) : M nat :=
  f <- get_fs ;;
  match f !! d with
  | None => raise RasterioIOError
  | Some entries =>
      match entries !! n with
      | Some (File (GeoTiff count _) _) => ret count
      | _ => raise RasterioIOError
      end
  end.

(** Returns the entry when it has to go, [None] when it is in order. *)
Definition validate_file (args : string * string * nat) : M (option string) :=
  let '(d, n, expected_bands) := args in
  r <- try_ (present <- path_exists d n ;;
             if negb present then ret (Some n)
             else count <- band_count d n ;;
                  if negb (Nat.eqb count expected_bands) then ret (Some n) else ret None) ;;
  match r with
  | inl _ => ret (Some n)
  | inr v => ret v
  end.

(** Body of [for path in results] *)
Definition delete_marked (d : string) (deleted : nat) (path : option string) : M nat :=
  match path with
  | None => ret deleted
  | Some n =>
      present <- path_exists d n ;;
      if present then
        r <- try_ (remove d n ;; log WARNING (MsgDeleted (Py.path_join2 d n))) ;;
        match r with
        | inr _ => ret (S deleted)
        | inl _ => log ERROR (MsgDeleteFailed (Py.path_join2 d n)) ;; ret deleted
        end
      else ret deleted
  end.

Fixpoint foldM {A B} (f : B -> A -> M B) (b : B) (l : list A) : M B :=
  match l with
  | [] => ret b
  | x :: l' => b' <- f b x ;; foldM f b' l'
  end.

Definition sorted (l : list string) : list string :=
  merge_sort (fun a b => String.leb a b) l.

Definition sweep_chunk (cfg : config) (chunk : string * list string) : M unit :=
  let '(chunk_name, bands) := chunk in
  let expected_bands := (EXPECTED_LABEL_BANDS + length bands)%nat in
  let chunk_dir := out_dir cfg chunk_name in
  d <- isdir chunk_dir ;;
  if negb d then log WARNING (MsgNoDirectory chunk_dir)
  else
    names <- listdir chunk_dir ;;
    let tif_files := sorted (List.filter (Py.endswith ".tif") names) in
    results <- mapM validate_file (map (fun f => (chunk_dir, f, expected_bands)) tif_files) ;;
    deleted <- foldM (delete_marked chunk_dir) 0%nat results ;;
    log INFO (MsgDeletedCount chunk_name deleted).

Definition main (cfg : config) : M unit :=
  forM_ (CHUNKS cfg) (sweep_chunk cfg).

End Validate.

(** ** Vocabulary of the statements *)

(** the entry stored under a directory and a name *)
Definition entry (w : world) (d n : string) : option file :=
  match fs w !! d with
  | Some entries => entries !! n
  | None => None
  end.

(** [os.path.exists] of an entry, as a proposition *)
Definition present (w : world) (d n : string) : Prop := is_Some (entry w d n).

(** the world after further events / with another file system *)
Definition after (w : world) (evs : list event) : world :=
  World (fs w) (locked w) (assets w) (trace w ++ evs).

Definition with_fs (w : world) (f : gmap string (gmap string file)) : world :=
  World f (locked w) (assets w) (trace w).

(** the world once [d] is a directory *)
Definition with_dir (w : world) (d : string) : world :=
  match fs w !! d with
  | Some _ => with_fs w (fs w)
  | None => with_fs w (<[d := ∅]> (fs w))
  end.

(** a fetch: a download URL requested, an HTTP GET issued or a file written *)
Definition is_fetch (e : event) : bool :=
  match e with
  | GetDownloadURL _ _ | HttpGet _ _ | WriteFile _ _ => true
  | _ => false
  end.

(** the input/output of an attempt after its URL request *)
Definition is_io (e : event) : bool :=
  match e with
  | HttpGet _ _ | WriteFile _ _ | TagBands _ _ => true
  | _ => false
  end.

(** a history without that input/output: URL requests, log records, sleeps *)
Definition skeleton (evs : list event) : list event :=
  List.filter (fun e => negb (is_io e)) evs.

(** what a worker that runs out of attempts leaves in the skeleton *)
Definition failed_attempts (cfg : config) (tile_index : option Z) (d n : string)
    (attempts : list nat) : list event :=
  flat_map (fun k => [ GetDownloadURL d n;
                       Log WARNING (MsgRetryFailed tile_index (k + 1) (MAX_RETRIES cfg));
                       Sleep (BASE_WAIT cfg * inject_Z (2 ^ Z.of_nat k)) ])
           attempts.

(** the manifest of a chunk directory and the writes to it *)
Definition manifest : string := "bands_used.txt".

Definition writes_to (d n : string) (e : event) : bool :=
  match e with
  | WriteFile d' n' => String.eqb d d' && String.eqb n n'
  | _ => false
  end.

Definition manifest_writes (d : string) (evs : list event) : nat :=
  length (List.filter (writes_to d manifest) evs).

(** events of an attempt that goes through *)
Definition success_events (i : Z) (d n : string) : list event :=
  [GetDownloadURL d n; HttpGet d n; WriteFile d n; TagBands d n]
  ++ (if i =? 0 then [WriteFile d manifest] else []).


(** the entries of a directory, none when it does not exist *)
Definition dir_entries (w : world) (d : string) : gmap string file :=
  default ∅ (fs w !! d).

(** an entry the validator keeps: a readable raster with the expected count *)
Definition shape_ok (expected_bands : nat) (o : option file) : bool :=
  match o with
  | Some (File (GeoTiff count _) _) => Nat.eqb count expected_bands
  | _ => false
  end.

(** the events of a sweep: log records and removals *)
Definition is_sweep_event (e : event) : bool :=
  match e with
  | Log _ _ | RemoveFile _ _ => true
  | _ => false
  end.

(** a zone without usable area: the computation fails or yields zero *)
Definition barren (z : zone_feature) : bool :=
  match area z with
  | None => true
  | Some a => Qeq_bool a 0
  end.

(** a worker returned the path of an artifact *)
Definition is_done (r : outcome (option string)) : bool :=
  match r with
  | Ret (Some _) => true
  | _ => false
  end.

Definition is_log (e : event) : bool :=
  match e with Log _ _ => true | _ => false end.


(** ** Sample inputs *)

Definition sample_config : config :=
  Config "DK" false 3 2 "2020" 10 "out" 1000 "users/x/" [("c1", [1; 2]); ("c2", [3])].

Definition empty_world : world := World ∅ ∅ ∅ [].

(** always answered with a three-band raster *)
Definition sound_tile : tile :=
  Tile (Some (10%Q, 52%Q)) true true (fun _ => Content (GeoTiff 3 7)).

(** first answered with an error page under a success status *)
Definition flaky_tile : tile :=
  Tile (Some (10%Q, 52%Q)) true true
       (fun k => match k with
                 | O => Content (Opaque "<html>")
                 | _ => Content (GeoTiff 3 7)
                 end).

(** never answered *)
Definition dead_tile : tile :=
  Tile (Some (10%Q, 52%Q)) true true (fun _ => NoReply).

(** the centroid cannot be evaluated *)
Definition lost_tile : tile :=
  Tile None true true (fun _ => Content (GeoTiff 3 7)).

Definition sample_zone (zone : Z) : zone_feature :=
  ZoneFeature zone (Some 5%Q) [sound_tile] 1 true.

(** a zone whose area cannot be computed, and one that misses the country *)
Definition failing_zone (zone : Z) : zone_feature :=
  ZoneFeature zone None [sound_tile] 1 true.

Definition empty_zone (zone : Z) : zone_feature :=
  ZoneFeature zone (Some 0%Q) [] 1 true.

(** a chunk directory holding a sound artifact, one with a band missing, an
    error page saved as an artifact, and the manifest *)
Definition sample_directory : gmap string file :=
  {[ "a.tif" := File (GeoTiff 3 7) [];
     "b.tif" := File (GeoTiff 2 7) [];
     "c.tif" := File (Opaque "<html>") [];
     "bands_used.txt" := File (Opaque "A01") [] ]}.

Definition sample_store : world :=
  World {[ "out/DK/2020/c1" := sample_directory ]} ∅ ∅ [].

(** ** Vocabulary of the proofs *)

Definition lacks (c : ascii) (s : string) : Prop :=
  existsb (Ascii.eqb c) (list_ascii_of_string s) = false.

(** A relation between the world before and after that holds across every
    primitive step holds across the control structures. *)
Definition preserves (R : world -> world -> Prop) {A} (m : M A) : Prop :=
  forall w r w', m w = (r, w') -> R w w'.

Definition extends (allowed : event -> bool) (w w' : world) : Prop :=
  locked w' = locked w /\
  exists evs, trace w' = (trace w ++ evs)%list /\ forallb allowed evs = true.

Definition put_entry (w : world) (d n : string) (c : file) : world :=
  match fs w !! d with
  | Some entries => with_fs w (<[d := <[n := c]> entries]> (fs w))
  | None => w
  end.

Definition taggable (o : option file) : option file :=
  match o with
  | Some (File (GeoTiff (S c) px) ds) => Some (File (GeoTiff (S c) px) (tagged (S c) ds))
  | _ => None
  end.

Definition is_attempt_io (d n : string) (e : event) : Prop :=
  e = GetDownloadURL d n \/ e = HttpGet d n \/ e = WriteFile d n \/ e = TagBands d n.

Definition attempt_failed (d n : string) (w : world) (r : outcome string) (w' : world) : Prop :=
  exists e evs, r = Raise e /\ is_Exception e = true
    /\ trace w' = (trace w ++ evs)%list /\ Forall (is_attempt_io d n) evs.

Definition attempt_succeeded (feat : tile) (k : nat) (i : Z) (d n : string)
    (band_list : list string) (w : world) (r : outcome string) (w' : world) : Prop :=
  exists c px, r = Ret (Py.path_join2 d n)
    /\ responses feat k = Content (GeoTiff (S c) px)
    /\ trace w' = (trace w ++ success_events i d n)%list
    /\ entry w' d n
       = Some (File (GeoTiff (S c) px) (tagged (S c) (replicate (S c) None)))
    /\ (i = 0 -> entry w' d manifest
                 = Some (File (Opaque (Py.join (String "010" "") band_list)) [])).

(** what no step of a worker undoes: permissions, assets, directories, files *)
Definition grows (w w' : world) : Prop :=
  locked w' = locked w /\ assets w' = assets w /\
  (forall d, is_Some (fs w !! d) -> is_Some (fs w' !! d)) /\
  (forall d n, present w d n -> present w' d n).

(** what a retry loop does before its last attempt *)
Definition is_retry_event (d n : string) (e : event) : Prop :=
  is_attempt_io d n e \/ (exists l m, e = Log l m) \/ (exists x, e = Sleep x).

Definition loop_succeeded (feat : tile) (i : Z) (d n : string) (band_list : list string)
    (attempts : list nat) (evs : list event) (w' : world) : Prop :=
  exists pre k c px,
    In k attempts
    /\ responses feat k = Content (GeoTiff (S c) px)
    /\ evs = (pre ++ success_events i d n)%list
    /\ Forall (is_retry_event d n) pre
    /\ entry w' d n = Some (File (GeoTiff (S c) px) (tagged (S c) (replicate (S c) None)))
    /\ (i = 0 -> entry w' d manifest
                 = Some (File (Opaque (Py.join (String "010" "") band_list)) [])).

Definition parse_or_raise (f : string) : M Z :=
  match Download.tile_index_of f with
  | Some z => ret z
  | None => raise ValueError
  end.

(** the list comprehension of [existing_files] as a function *)
Fixpoint parsed (names : list string) : option (list Z) :=
  match names with
  | [] => Some []
  | f :: rest =>
      match Download.tile_index_of f, parsed rest with
      | Some z, Some zs => Some (z :: zs)
      | _, _ => None
      end
  end.

(** what [process_chunk] hands to the pool *)
Definition chunk_names (cfg : config) (w : world) (chunk_name : string) : list string :=
  List.filter (Download.is_artifact cfg)
    (map fst (map_to_list (dir_entries w (out_dir cfg chunk_name)))).

Definition skip_events (z : zone_feature) : list event :=
  match area z with
  | None => [Log ERROR (MsgAreaError (zone_number z))]
  | Some _ => []
  end.

Definition verdict (expected_bands : nat) (w : world) (d n : string) : option string :=
  if shape_ok expected_bands (entry w d n) then None else Some n.

(** the world without an entry *)
Definition without (w : world) (d n : string) : world :=
  match fs w !! d with
  | Some entries => with_fs w (<[d := delete n entries]> (fs w))
  | None => w
  end.

(** what a pass over the verdicts leaves *)
Definition swept (d : string) (w : world) (k : nat) (results : list (option string))
    (k' : nat) (w' : world) : Prop :=
  locked w' = locked w
  /\ (forall d' n, entry w' d' n
                   = if bool_decide (d' = d /\ Some n ∈ results) then None
                     else entry w d' n)
  /\ (k <= k')%nat
  /\ exists evs, trace w' = (trace w ++ evs)%list /\ forallb is_sweep_event evs = true.

(** a store that holds tile 1 of chunk [c1] *)
Definition cached_world : world :=
  World {[ out_dir sample_config "c1" :=
             {[ filename sample_config 32632 "c1" 1 := fresh_file (GeoTiff 3 7) ]} ]}
        ∅ ∅ [].

Definition no_fetch (e : event) : bool := negb (is_fetch e).

(** nothing fetched, and every file and every asset as it was *)
Definition quiet (w w' : world) : Prop :=
  extends no_fetch w w' /\ assets w' = assets w
  /\ forall d n, entry w' d n = entry w d n.

(** the events of [w'] that [w] has not seen *)
Definition since (w w' : world) : list event := drop (length (trace w)) (trace w').

(** a tally that counts every item handed to the pool as succeeded *)
Definition full_tally (e : event) : bool :=
  match e with
  | Log _ (MsgChunkTally _ s n) => Nat.eqb s n
  | Log _ (MsgZoneTally _ _ s n) => Nat.eqb s n
  | _ => true
  end.

(** the scan of a chunk directory meets the index of the last tile, or a
    later one *)
Definition settled (cfg : config) (size : nat) (w : world) (chunk_name : string) : Prop :=
  exists f j, present w (out_dir cfg chunk_name) f
    /\ Download.is_artifact cfg f = true
    /\ Download.tile_index_of f = Some j
    /\ Z.of_nat size - 1 <= j.

(** files stay and the history is extended *)
Definition advances (w w' : world) : Prop :=
  grows w w' /\ exists evs, trace w' = (trace w ++ evs)%list.

(** the asset that holds the grid of a zone *)
Definition zone_asset (cfg : config) (zone : Z) : string :=
  ASSET_FOLDER cfg ++ COUNTRY_NAME cfg ++ "_utm_grid_"
  ++ Py.str (GRID_SIZE cfg) ++ "m_zone" ++ Py.str zone.

(** the grid asset exists and each of its tiles has its artifact in the
    directory of every chunk *)
Definition fetched (cfg : config) (w : world) (epsg : Z) (aid : string) : Prop :=
  exists lst, assets w !! aid = Some lst
    /\ forall chunk idx, In chunk GeeEmbeddingDownload.CHUNKS -> (idx < length lst)%nat ->
         present w (out_dir cfg (fst chunk)) (filename cfg epsg (fst chunk) (Z.of_nat idx)).

Definition entry_fetched (cfg : config) (w : world) (e : GeeEmbeddingDownload.zone_entry) :
    Prop :=
  let '(_, epsg, _, aid) := e in fetched cfg w epsg aid.

(** a zone that meets the country has been provisioned and fetched *)
Definition zone_fetched (cfg : config) (w : world) (z : zone_feature) : Prop :=
  barren z = false ->
  forall epsg, GeeEmbeddingDownload.utm_epsg (zone_number z) (SOUTH cfg) = Some epsg ->
  fetched cfg w epsg (zone_asset cfg (zone_number z)).

(** each tile of the grid of a zone has its artifact in the directory of
    one chunk *)
Definition tiles_fetched (cfg : config) (w : world) (chunk_name : string)
    (e : GeeEmbeddingDownload.zone_entry) : Prop :=
  let '(_, epsg, _, aid) := e in
  exists lst, assets w !! aid = Some lst
    /\ forall idx, (idx < length lst)%nat ->
         present w (out_dir cfg chunk_name) (filename cfg epsg chunk_name (Z.of_nat idx)).

(** the entries outside [mine] are as they were *)
Definition apart (mine : string -> string -> bool) (w w' : world) : Prop :=
  forall d n, mine d n = false -> entry w' d n = entry w d n.

(** the entries a worker may write for tile [i] of a chunk: artifacts of
    that index, whatever their CRS, and for tile 0 the manifest *)
Definition own (cfg : config) (chunk_name : string) (i : Z) (d n : string) : bool :=
  String.eqb d (out_dir cfg chunk_name)
  && (((i =? 0) && String.eqb n manifest)
      || (Download.is_artifact cfg n && bool_decide (Download.tile_index_of n = Some i))).

(** the descriptions of a tagged raster of [count] bands *)
Definition band_names (count : nat) : list (option string) :=
  Some "wetland_label"
  :: map (fun k => Some ("embedding_" ++ Py.str (Z.of_nat k))) (seq 0 (count - 1)).



(** what a sweep may do to a world: keep the permissions, the assets and
    the directories, remove entries selected by [gone], and add log records
    and removals to the history *)
Definition pruned (gone : string -> string -> Prop) (w w' : world) : Prop :=
  locked w' = locked w
  /\ assets w' = assets w
  /\ (forall d, is_Some (fs w' !! d) <-> is_Some (fs w !! d))
  /\ (forall d n, entry w' d n = entry w d n \/ (gone d n /\ entry w' d n = None))
  /\ exists evs, trace w' = (trace w ++ evs)%list /\ forallb is_sweep_event evs = true.

(** every raster of a chunk directory has the expected shape *)
Definition clean (cfg : config) (chunk : string * list string) (w : world) : Prop :=
  forall n, Py.endswith ".tif" n = true ->
            present w (out_dir cfg (fst chunk)) n ->
            shape_ok (Validate.EXPECTED_LABEL_BANDS + length (snd chunk))
                     (entry w (out_dir cfg (fst chunk)) n) = true.

(** an entry the sweep of some chunk rejects *)
Definition rejected (cfg : config) (w : world) (d n : string) : Prop :=
  Py.endswith ".tif" n = true
  /\ exists chunk, In chunk (Validate.CHUNKS cfg)
       /\ d = out_dir cfg (fst chunk)
       /\ shape_ok (Validate.EXPECTED_LABEL_BANDS + length (snd chunk)) (entry w d n) = false.

(** an event that does not concern tile [i]: neither its centroid nor a
    file whose name carries that index *)
Definition untouched (i : Z) (e : event) : bool :=
  match e with
  | ResolveCRS k => negb (k =? i)
  | GetDownloadURL _ n | HttpGet _ n | WriteFile _ n | TagBands _ n | RemoveFile _ n =>
      negb (bool_decide (Download.tile_index_of n = Some i))
  | _ => true
  end.



(** the removals of a history *)
Definition removed (evs : list event) : nat :=
  length (List.filter (fun e => match e with RemoveFile _ _ => true | _ => false end) evs).

(** no entry is lost *)
Definition keeps_files (w w' : world) : Prop :=
  forall d n, present w d n -> present w' d n.

(** the download URLs a history asks for *)
Definition requests (evs : list event) : nat :=
  length (List.filter (fun e => match e with GetDownloadURL _ _ => true | _ => false end) evs).


(** * Properties *)

(** ** Facts about the string primitives *)


Lemma append_cons a (s t : string) : String a s ++ t = String a (s ++ t).
Proof. reflexivity. Qed.

Lemma lacks_cons c a s : lacks c (String a s) <-> a <> c /\ lacks c s.
Proof.
  unfold lacks. simpl. rewrite orb_false_iff, Ascii.eqb_neq. intuition congruence.
Qed.

Lemma lacks_app c s t : lacks c s -> lacks c t -> lacks c (s ++ t).
Proof.
  induction s as [|a s IH]; simpl; intros Hs Ht; [exact Ht|].
  apply lacks_cons in Hs as [Ha Hs]. apply lacks_cons. auto.
Qed.

Lemma last_field_lacks sep s : lacks sep s -> Py.last_field sep s = s.
Proof.
  destruct s as [|a s]; [reflexivity|]. intros [Ha Hs]%lacks_cons. simpl.
  apply Ascii.eqb_neq in Ha. rewrite Ha. unfold lacks in Hs. now rewrite Hs.
Qed.

Lemma found_app c a b :
  existsb (Ascii.eqb c) (list_ascii_of_string (a ++ String c b)) = true.
Proof.
  induction a as [|x a IH]; simpl.
  - now rewrite Ascii.eqb_refl.
  - rewrite IH. apply orb_true_r.
Qed.

Lemma last_field_app sep a b :
  lacks sep b -> Py.last_field sep (a ++ String sep b) = b.
Proof.
  intros Hb. induction a as [|x a IH]; simpl.
  - rewrite Ascii.eqb_refl. now apply last_field_lacks.
  - destruct (Ascii.eqb x sep); [exact IH|]. now rewrite found_app.
Qed.

Lemma remove_suffix_tif s :
  lacks "." s -> Py.remove_all ".tif" (s ++ ".tif") = s.
Proof.
  unfold Py.remove_all. induction s as [|a s IH]; [reflexivity|].
  intros [Ha Hs]%lacks_cons. rewrite append_cons. cbn [Py.remove_from].
  assert (Py.startswith ".tif" (String a (s ++ ".tif")) = false) as ->.
  { cbn [Py.startswith]. apply Ascii.eqb_neq in Ha. rewrite Ascii.eqb_sym in Ha.
    now rewrite Ha. }
  now rewrite IH.
Qed.

Lemma startswith_app p s : Py.startswith p (p ++ s) = true.
Proof.
  induction p as [|a p IH]; [reflexivity|]. simpl. now rewrite Ascii.eqb_refl.
Qed.

Lemma endswith_app p s : Py.endswith p (s ++ p) = true.
Proof.
  induction s as [|a s IH].
  - change ("" ++ p) with p. destruct p; [reflexivity|].
    cbn [Py.endswith]. now rewrite String.eqb_refl.
  - rewrite append_cons. cbn [Py.endswith]. rewrite IH. apply orb_true_r.
Qed.

Lemma app_assoc_string (a b c : string) : (a ++ b) ++ c = a ++ (b ++ c).
Proof. induction a as [|x a IH]; [reflexivity|]. rewrite !append_cons. now rewrite IH. Qed.

(** decimal numerals *)

Lemma digits_lacks d c :
  Py.digit_value c = None -> lacks c (NilEmpty.string_of_uint d).
Proof.
  intros Hc. induction d; simpl; [reflexivity|..];
    (apply lacks_cons; split; [intros <-; discriminate Hc | exact IHd]).
Qed.

Lemma read_digits_uint d acc :
  0 <= acc ->
  Py.read_digits acc (NilEmpty.string_of_uint d)
  = Some (Z.of_nat (Nat.of_uint_acc d (Z.to_nat acc))).
Proof.
  revert acc. induction d; intros acc Hacc; cbn [NilEmpty.string_of_uint Py.read_digits Nat.of_uint_acc];
    [f_equal; lia|..];
    (change (Py.digit_value _) with (Some 0) || change (Py.digit_value _) with (Some 1)
     || change (Py.digit_value _) with (Some 2) || change (Py.digit_value _) with (Some 3)
     || change (Py.digit_value _) with (Some 4) || change (Py.digit_value _) with (Some 5)
     || change (Py.digit_value _) with (Some 6) || change (Py.digit_value _) with (Some 7)
     || change (Py.digit_value _) with (Some 8) || change (Py.digit_value _) with (Some 9));
    cbv iota beta; rewrite IHd by lia; do 3 f_equal; rewrite Nat.tail_mul_spec; lia.
Qed.

Lemma int_digit_first c s v :
  Py.digit_value c = Some v -> Py.int (String c s) = Py.read_digits 0 (String c s).
Proof.
  intros H.
  destruct c as [[] [] [] [] [] [] [] []]; try discriminate H; reflexivity.
Qed.

Lemma int_of_numeral d :
  Py.int (NilZero.string_of_uint d) = Some (Z.of_nat (Nat.of_uint d)).
Proof.
  destruct d as [|d|d|d|d|d|d|d|d|d|d]; [reflexivity|..];
    (cbn [NilZero.string_of_uint NilEmpty.string_of_uint];
     erewrite int_digit_first by reflexivity).
  - exact (read_digits_uint (Decimal.D0 d) 0 ltac:(lia)).
  - exact (read_digits_uint (Decimal.D1 d) 0 ltac:(lia)).
  - exact (read_digits_uint (Decimal.D2 d) 0 ltac:(lia)).
  - exact (read_digits_uint (Decimal.D3 d) 0 ltac:(lia)).
  - exact (read_digits_uint (Decimal.D4 d) 0 ltac:(lia)).
  - exact (read_digits_uint (Decimal.D5 d) 0 ltac:(lia)).
  - exact (read_digits_uint (Decimal.D6 d) 0 ltac:(lia)).
  - exact (read_digits_uint (Decimal.D7 d) 0 ltac:(lia)).
  - exact (read_digits_uint (Decimal.D8 d) 0 ltac:(lia)).
  - exact (read_digits_uint (Decimal.D9 d) 0 ltac:(lia)).
Qed.

Lemma read_number_numeral d :
  Py.read_number (NilZero.string_of_uint d) = Some (Z.of_nat (Nat.of_uint d)).
Proof.
  destruct d as [|d|d|d|d|d|d|d|d|d|d]; [reflexivity|..];
    cbn [NilZero.string_of_uint NilEmpty.string_of_uint]; unfold Py.read_number.
  - exact (read_digits_uint (Decimal.D0 d) 0 ltac:(lia)).
  - exact (read_digits_uint (Decimal.D1 d) 0 ltac:(lia)).
  - exact (read_digits_uint (Decimal.D2 d) 0 ltac:(lia)).
  - exact (read_digits_uint (Decimal.D3 d) 0 ltac:(lia)).
  - exact (read_digits_uint (Decimal.D4 d) 0 ltac:(lia)).
  - exact (read_digits_uint (Decimal.D5 d) 0 ltac:(lia)).
  - exact (read_digits_uint (Decimal.D6 d) 0 ltac:(lia)).
  - exact (read_digits_uint (Decimal.D7 d) 0 ltac:(lia)).
  - exact (read_digits_uint (Decimal.D8 d) 0 ltac:(lia)).
  - exact (read_digits_uint (Decimal.D9 d) 0 ltac:(lia)).
Qed.

(** [int(str(i)) == i] *)
Lemma int_str (i : Z) : Py.int (Py.str i) = Some i.
Proof.
  unfold Py.str. destruct (Z.ltb_spec i 0).
  - change (Py.int (String "-" ?s)) with (Z.opp <$> Py.read_number s).
    rewrite read_number_numeral, Unsigned.of_to. simpl. f_equal. lia.
  - rewrite int_of_numeral, Unsigned.of_to. f_equal. lia.
Qed.

Lemma numeral_lacks d c :
  Py.digit_value c = None -> lacks c (NilZero.string_of_uint d).
Proof.
  intros Hc. destruct d; try exact (digits_lacks _ c Hc).
  apply lacks_cons. split; [intros <-; discriminate Hc | reflexivity].
Qed.

Lemma str_lacks i c :
  Py.digit_value c = None -> c <> "-"%char -> lacks c (Py.str i).
Proof.
  intros Hc Hm. unfold Py.str. destruct (i <? 0).
  - apply lacks_cons. split; [congruence | now apply numeral_lacks].
  - now apply numeral_lacks.
Qed.

(** the artifact name *)

Lemma filename_shape cfg epsg chunk_name i :
  filename cfg epsg chunk_name i
  = (artifact_prefix cfg ++ Py.str epsg ++ "_" ++ chunk_name)
    ++ String "_" (Py.str i ++ ".tif").
Proof. unfold filename. now rewrite !app_assoc_string. Qed.

Lemma tile_index_of_filename cfg epsg chunk_name i :
  Download.tile_index_of (filename cfg epsg chunk_name i) = Some i.
Proof.
  unfold Download.tile_index_of. rewrite filename_shape, last_field_app.
  - rewrite remove_suffix_tif by (now apply str_lacks). apply int_str.
  - apply lacks_app; [now apply str_lacks | reflexivity].
Qed.

Lemma is_artifact_filename cfg epsg chunk_name i :
  Download.is_artifact cfg (filename cfg epsg chunk_name i) = true.
Proof.
  unfold Download.is_artifact. apply andb_true_intro. split.
  - unfold filename. rewrite <- !app_assoc_string. apply endswith_app.
  - unfold filename. apply startswith_app.
Qed.

Lemma filename_not_manifest cfg epsg chunk_name i :
  filename cfg epsg chunk_name i <> "bands_used.txt".
Proof.
  unfold filename, artifact_prefix. rewrite !app_assoc_string. discriminate.
Qed.

(** ** Reasoning about the monad *)

Lemma bind_inv {A B} (m : M A) (k : A -> M B) w r w' :
  bind m k w = (r, w') ->
  (exists a w1, m w = (Ret a, w1) /\ k a w1 = (r, w'))
  \/ (exists e, m w = (Raise e, w') /\ r = Raise e).
Proof.
  unfold bind. destruct (m w) as [[a|e] w1]; intros H.
  - left. eauto.
  - right. inversion H; subst. eauto.
Qed.

Lemma bind_ret_inv {A B} (m : M A) (k : A -> M B) w b w' :
  bind m k w = (Ret b, w') ->
  exists a w1, m w = (Ret a, w1) /\ k a w1 = (Ret b, w').
Proof.
  intros [H|(e & _ & H)]%bind_inv; [exact H | discriminate H].
Qed.

Lemma try_inv {A} (m : M A) w r w' :
  try_ m w = (r, w') ->
  (exists a, m w = (Ret a, w') /\ r = Ret (inr a))
  \/ (exists e, m w = (Raise e, w') /\
        (if is_Exception e then r = Ret (inl e) else r = Raise e)).
Proof.
  unfold try_. destruct (m w) as [[a|e] w1]; intros H.
  - left. inversion H; subst. eauto.
  - right. exists e. destruct (is_Exception e); inversion H; subst; auto.
Qed.


Section Preserves.
Context (R : world -> world -> Prop).
Context (R_refl : forall w, R w w).
Context (R_trans : forall w1 w2 w3, R w1 w2 -> R w2 w3 -> R w1 w3).

Lemma preserves_ret {A} (a : A) : preserves R (ret a).
Proof. intros w r w' H. inversion H; subst. apply R_refl. Qed.

Lemma preserves_raise {A} e : preserves R (@raise A e).
Proof. intros w r w' H. inversion H; subst. apply R_refl. Qed.

Lemma preserves_bind {A B} (m : M A) (k : A -> M B) :
  preserves R m -> (forall a, preserves R (k a)) -> preserves R (bind m k).
Proof.
  intros Hm Hk w r w' [(a & w1 & H1 & H2)|(e & H1 & _)]%bind_inv.
  - eapply R_trans; [eapply Hm | eapply Hk]; eauto.
  - eapply Hm; eauto.
Qed.

Lemma preserves_try {A} (m : M A) : preserves R m -> preserves R (try_ m).
Proof.
  intros Hm w r w' [(a & H & _)|(e & H & _)]%try_inv; eapply Hm; eauto.
Qed.

Lemma preserves_mapM {A B} (f : A -> M B) l :
  (forall x, preserves R (f x)) -> preserves R (mapM f l).
Proof.
  intros Hf. induction l as [|x l IH]; cbn [mapM].
  - apply preserves_ret.
  - apply preserves_bind; [apply Hf|]. intros y.
    apply preserves_bind; [apply IH|]. intros ys. apply preserves_ret.
Qed.

Lemma preserves_forM {A} (f : A -> M unit) l :
  (forall x, preserves R (f x)) -> preserves R (forM_ l f).
Proof.
  intros Hf. induction l as [|x l IH]; cbn [forM_].
  - apply preserves_ret.
  - apply preserves_bind; [apply Hf|]. intros _. apply IH.
Qed.

Lemma preserves_if {A} (b : bool) (m1 m2 : M A) :
  preserves R m1 -> preserves R m2 -> preserves R (if b then m1 else m2).
Proof. now destruct b. Qed.
End Preserves.

(** ** The primitive steps *)

Lemma world_eta w : World (fs w) (locked w) (assets w) (trace w) = w.
Proof. now destruct w. Qed.

Lemma after_nil w : after w [] = w.
Proof. unfold after. rewrite app_nil_r. apply world_eta. Qed.

Lemma after_after w e1 e2 : after (after w e1) e2 = after w (e1 ++ e2).
Proof. unfold after. cbn. now rewrite app_assoc. Qed.

Lemma run_bind_ret {A B} (m : M A) (k : A -> M B) w a w1 :
  m w = (Ret a, w1) -> bind m k w = k a w1.
Proof. unfold bind. now intros ->. Qed.

Lemma run_bind_raise {A B} (m : M A) (k : A -> M B) w e w1 :
  m w = (Raise e, w1) -> bind m k w = (Raise e, w1).
Proof. unfold bind. now intros ->. Qed.

Lemma run_emit e w : emit e w = (Ret tt, after w [e]).
Proof. reflexivity. Qed.

Lemma run_log l m w : log l m w = (Ret tt, after w [Log l m]).
Proof. reflexivity. Qed.

Lemma run_makedirs d w : makedirs d w = (Ret tt, with_dir w d).
Proof.
  unfold makedirs, with_dir, bind, get_fs, with_fs. cbn.
  destruct (fs w !! d); cbn; [now rewrite world_eta | reflexivity].
Qed.

Lemma run_path_exists d n w :
  path_exists d n w = (Ret (bool_decide (present w d n)), w).
Proof.
  unfold path_exists, bind, get_fs, ret, present, entry. cbn.
  destruct (fs w !! d); [reflexivity|].
  rewrite bool_decide_eq_false_2; [reflexivity|]. now intros [x Hx].
Qed.

Lemma entry_with_dir w d d' n : entry (with_dir w d) d' n = entry w d' n.
Proof.
  unfold entry, with_dir. destruct (fs w !! d) eqn:E; cbn; [reflexivity|].
  destruct (decide (d = d')) as [<-|Hne].
  - rewrite lookup_insert_eq, E. apply lookup_empty.
  - now rewrite lookup_insert_ne.
Qed.

Lemma present_with_dir w d d' n : present (with_dir w d) d' n <-> present w d' n.
Proof. unfold present. now rewrite entry_with_dir. Qed.

Lemma with_dir_present w d n : present w d n -> with_dir w d = w.
Proof.
  unfold present, entry, with_dir. destruct (fs w !! d); [|now intros [x Hx]].
  intros _. unfold with_fs. apply world_eta.
Qed.

(** ** C1: the two resolvers *)



Lemma run_resolve_epsg_some i feat lon lat w :
  centroid feat = Some (lon, lat) ->
  Download.resolve_epsg i feat w
  = (Ret (Download.epsg_code lon lat), after w [ResolveCRS i]).
Proof. intros H. unfold Download.resolve_epsg. rewrite H. reflexivity. Qed.

Lemma run_resolve_epsg_none i feat w :
  centroid feat = None ->
  Download.resolve_epsg i feat w = (Raise EEException, after w [ResolveCRS i]).
Proof. intros H. unfold Download.resolve_epsg. rewrite H. reflexivity. Qed.





(** ** Which events a computation can add *)


Lemma extends_refl allowed w : extends allowed w w.
Proof. split; [reflexivity|]. exists []. now rewrite app_nil_r. Qed.

Lemma extends_trans allowed w1 w2 w3 :
  extends allowed w1 w2 -> extends allowed w2 w3 -> extends allowed w1 w3.
Proof.
  intros [L1 (e1 & T1 & A1)] [L2 (e2 & T2 & A2)]. split; [congruence|].
  exists (e1 ++ e2)%list. rewrite T2, T1, app_assoc, forallb_app, A1, A2. auto.
Qed.

Lemma extends_weaken (a b : event -> bool) w w' :
  (forall e, a e = true -> b e = true) -> extends a w w' -> extends b w w'.
Proof.
  intros Hab [L (evs & T & A)]. split; [exact L|]. exists evs. split; [exact T|].
  rewrite forallb_forall in *. auto.
Qed.

Section Steps.
Context (allowed : event -> bool).
Abbreviation keeps := (preserves (extends allowed)).

Lemma keeps_ret {A} (a : A) : keeps (ret a).
Proof. apply preserves_ret, extends_refl. Qed.

Lemma keeps_raise {A} e : keeps (@raise A e).
Proof. apply preserves_raise, extends_refl. Qed.

Lemma keeps_bind {A B} (m : M A) (k : A -> M B) :
  keeps m -> (forall a, keeps (k a)) -> keeps (bind m k).
Proof. apply preserves_bind, extends_trans. Qed.

Lemma keeps_try {A} (m : M A) : keeps m -> keeps (try_ m).
Proof. apply preserves_try. Qed.

Lemma keeps_mapM {A B} (f : A -> M B) l : (forall x, keeps (f x)) -> keeps (mapM f l).
Proof. apply preserves_mapM; [apply extends_refl | apply extends_trans]. Qed.

Lemma keeps_forM {A} (f : A -> M unit) l : (forall x, keeps (f x)) -> keeps (forM_ l f).
Proof. apply preserves_forM; [apply extends_refl | apply extends_trans]. Qed.

Lemma keeps_emit e : allowed e = true -> keeps (emit e).
Proof.
  intros He w r w' H. inversion H; subst. split; [reflexivity|].
  exists [e]. cbn. now rewrite He.
Qed.

Lemma keeps_get_fs : keeps get_fs.
Proof. intros w r w' H. inversion H; subst. apply extends_refl. Qed.

Lemma keeps_put_fs f : keeps (put_fs f).
Proof.
  intros w r w' H. inversion H; subst. split; [reflexivity|].
  exists []. cbn. now rewrite app_nil_r.
Qed.

Lemma keeps_makedirs d : keeps (makedirs d).
Proof.
  apply keeps_bind; [apply keeps_get_fs|]. intros f.
  destruct (f !! d); [apply keeps_ret | apply keeps_put_fs].
Qed.

Lemma keeps_path_exists d n : keeps (path_exists d n).
Proof. apply keeps_bind; [apply keeps_get_fs|]. intros f. apply keeps_ret. Qed.

Lemma keeps_isdir d : keeps (isdir d).
Proof. apply keeps_bind; [apply keeps_get_fs|]. intros f. apply keeps_ret. Qed.

Lemma keeps_listdir d : keeps (listdir d).
Proof.
  apply keeps_bind; [apply keeps_get_fs|]. intros f.
  destruct (f !! d); [apply keeps_ret | apply keeps_raise].
Qed.

Lemma keeps_write_file d n c : allowed (WriteFile d n) = true -> keeps (write_file d n c).
Proof.
  intros He w r w'. unfold write_file.
  destruct (bool_decide _); [intros H; inversion H; subst; apply extends_refl|].
  destruct (fs w !! d); intros H; inversion H; subst; [|apply extends_refl].
  split; [reflexivity|]. exists [WriteFile d n]. cbn. now rewrite He.
Qed.

Lemma keeps_remove d n : allowed (RemoveFile d n) = true -> keeps (remove d n).
Proof.
  intros He w r w'. unfold remove.
  destruct (bool_decide _); [intros H; inversion H; subst; apply extends_refl|].
  destruct (fs w !! d) as [es|]; [|intros H; inversion H; subst; apply extends_refl].
  destruct (es !! n); intros H; inversion H; subst; [|apply extends_refl].
  split; [reflexivity|]. exists [RemoveFile d n]. cbn. now rewrite He.
Qed.

Lemma keeps_tag_bands d n : allowed (TagBands d n) = true -> keeps (tag_bands d n).
Proof.
  intros He. apply keeps_bind; [apply keeps_get_fs|]. intros f.
  destruct (f !! d) as [es|]; [|apply keeps_raise].
  destruct (es !! n) as [[[count px|t] ds]|]; try apply keeps_raise.
  destruct count; [apply keeps_raise|].
  apply keeps_bind; [apply keeps_put_fs|]. intros _. now apply keeps_emit.
Qed.

Lemma keeps_sleep x : allowed (Sleep x) = true -> keeps (sleep x).
Proof.
  intros He. unfold sleep. destruct (Qle_bool 0 x); [now apply keeps_emit | apply keeps_raise].
Qed.
End Steps.

(** ** One attempt *)

Lemma download_attempt_events feat k i d n band_list w r w' :
  download_attempt feat k i d n band_list w = (r, w') ->
  locked w' = locked w /\
  exists evs, trace w' = (trace w ++ GetDownloadURL d n :: evs)%list /\ forallb is_io evs = true.
Proof.
  unfold download_attempt. rewrite (run_bind_ret _ _ _ _ _ (run_emit _ _)).
  intros H.
  assert (extends is_io (after w [GetDownloadURL d n]) w') as [L (evs & T & A)].
  { revert H. generalize (after w [GetDownloadURL d n]). intros w0 H. revert w0 r w' H.
    change (preserves (extends is_io)
              (match responses feat k with
               | NoURL => raise EEException
               | NoReply => emit (HttpGet d n) ;; raise ConnectionError
               | BadStatus => emit (HttpGet d n) ;; raise HTTPError
               | Content p =>
                   emit (HttpGet d n) ;;
                   write_file d n (fresh_file p) ;;
                   tag_bands d n ;;
                   (if i =? 0
                    then write_file d "bands_used.txt"
                           (File (Opaque (Py.join (String "010" "") band_list)) [])
                    else ret tt) ;;
                   ret (Py.path_join2 d n)
               end)).
    destruct (responses feat k).
    - apply keeps_raise.
    - apply keeps_bind; [now apply keeps_emit|]. intros _. apply keeps_raise.
    - apply keeps_bind; [now apply keeps_emit|]. intros _. apply keeps_raise.
    - apply keeps_bind; [now apply keeps_emit|]. intros _.
      apply keeps_bind; [now apply keeps_write_file|]. intros _.
      apply keeps_bind; [now apply keeps_tag_bands|]. intros _.
      apply keeps_bind; [|intros _; apply keeps_ret].
      destruct (i =? 0); [now apply keeps_write_file | apply keeps_ret]. }
  split; [exact L|]. exists evs. split; [|exact A].
  rewrite T. cbn. now rewrite <- app_assoc.
Qed.

(** ** The retry loop when every attempt fails *)





Lemma printed_app l1 l2 : printed (l1 ++ l2) = (printed l1 ++ printed l2)%list.
Proof. apply List.filter_app. Qed.

Lemma printed_skeleton evs : printed (skeleton evs) = printed evs.
Proof.
  unfold printed, skeleton. induction evs as [|e evs IH]; [reflexivity|].
  cbn [List.filter]. destruct e as [l m| | | | | | | |]; cbn [is_io negb List.filter];
    try exact IH.
  destruct (WarningFilter l); [f_equal|]; exact IH.
Qed.

Lemma printed_failed_attempts cfg tile_index d n attempts :
  printed (failed_attempts cfg tile_index d n attempts) = [].
Proof. induction attempts as [|k attempts IH]; [reflexivity | exact IH]. Qed.

(** Of an exhausted item the handler prints the final error only. *)
Lemma printed_exhausted cfg tile_index d n attempts pre name evs :
  printed pre = [] ->
  skeleton evs
  = (pre ++ failed_attempts cfg tile_index d n attempts ++ [Log ERROR (MsgGaveUp name)])%list ->
  printed evs = [Log ERROR (MsgGaveUp name)].
Proof.
  intros Hpre Hs. rewrite <- printed_skeleton, Hs, !printed_app, Hpre.
  now rewrite printed_failed_attempts.
Qed.


(** ** Writing and tagging *)


Lemma entry_put_entry_eq w d n c :
  is_Some (fs w !! d) -> entry (put_entry w d n c) d n = Some c.
Proof.
  intros [es Hes]. unfold put_entry, entry. rewrite Hes. cbn.
  now rewrite !lookup_insert_eq.
Qed.

Lemma entry_put_entry_ne w d n c d' n' :
  (d, n) <> (d', n') -> entry (put_entry w d n c) d' n' = entry w d' n'.
Proof.
  intros Hne. unfold put_entry, entry. destruct (fs w !! d) as [es|] eqn:Hes; [|reflexivity].
  cbn. destruct (decide (d = d')) as [<-|Hd].
  - rewrite lookup_insert_eq, Hes. rewrite lookup_insert_ne; [reflexivity|congruence].
  - now rewrite lookup_insert_ne.
Qed.

Lemma dir_put_entry w d n c d' :
  is_Some (fs (put_entry w d n c) !! d') <-> is_Some (fs w !! d').
Proof.
  unfold put_entry. destruct (fs w !! d) as [es|] eqn:Hes; [|reflexivity].
  cbn. destruct (decide (d = d')) as [<-|Hd].
  - rewrite lookup_insert_eq, Hes. split; eauto.
  - now rewrite lookup_insert_ne.
Qed.

Lemma run_write_file d n c w :
  write_file d n c w
  = if bool_decide ((d, n) ∈ locked w) then (Raise OSError, w)
    else match fs w !! d with
         | Some _ => (Ret tt, after (put_entry w d n c) [WriteFile d n])
         | None => (Raise OSError, w)
         end.
Proof.
  unfold write_file, put_entry. destruct (bool_decide _); [reflexivity|].
  now destruct (fs w !! d).
Qed.


Lemma run_tag_bands d n w :
  tag_bands d n w
  = match taggable (entry w d n) with
    | Some c => (Ret tt, after (put_entry w d n c) [TagBands d n])
    | None => (Raise (match entry w d n with
                      | Some (File (GeoTiff _ _) _) => IndexError
                      | _ => RasterioIOError
                      end), w)
    end.
Proof.
  unfold tag_bands, entry, put_entry, bind, get_fs. cbn.
  destruct (fs w !! d) as [es|] eqn:Hes; [|reflexivity].
  destruct (es !! n) as [[[[|c] px|t] ds]|]; cbn; try reflexivity.
Qed.

(** ** The outcomes of one attempt *)


Lemma grows_refl w : grows w w.
Proof. unfold grows. auto. Qed.

Lemma grows_trans w1 w2 w3 : grows w1 w2 -> grows w2 w3 -> grows w1 w3.
Proof.
  intros (L1 & A1 & D1 & P1) (L2 & A2 & D2 & P2).
  repeat split; [congruence | congruence | auto | auto].
Qed.

Lemma grows_after w evs : grows w (after w evs).
Proof. unfold grows. auto. Qed.

Lemma grows_put_entry w d n c : grows w (put_entry w d n c).
Proof.
  unfold grows. split; [|split; [|split]].
  - unfold put_entry. now destruct (fs w !! d).
  - unfold put_entry. now destruct (fs w !! d).
  - intros d'. apply dir_put_entry.
  - intros d' n' Hp. unfold present.
    destruct (decide ((d, n) = (d', n'))) as [[= <- <-]|Hne].
    + rewrite entry_put_entry_eq; [eauto|].
      unfold present, entry in Hp. destruct (fs w !! d); [eauto|]. now destruct Hp.
    + now rewrite entry_put_entry_ne.
Qed.

Lemma trace_put_entry w d n c : trace (put_entry w d n c) = trace w.
Proof. unfold put_entry. now destruct (fs w !! d). Qed.

Lemma locked_put_entry w d n c : locked (put_entry w d n c) = locked w.
Proof. unfold put_entry. now destruct (fs w !! d). Qed.

Lemma attempt_io_cons d n e evs :
  is_attempt_io d n e -> Forall (is_attempt_io d n) evs -> Forall (is_attempt_io d n) (e :: evs).
Proof. now constructor. Qed.

Lemma download_attempt_cases feat k i d n band_list w r w' :
  n <> manifest ->
  download_attempt feat k i d n band_list w = (r, w') ->
  grows w w' /\
  (attempt_failed d n w r w' \/ attempt_succeeded feat k i d n band_list w r w').
Proof.
  intros Hn. unfold download_attempt.
  rewrite (run_bind_ret _ _ _ _ _ (run_emit _ _)).
  assert (IO1 : is_attempt_io d n (GetDownloadURL d n)) by (unfold is_attempt_io; auto).
  assert (IO2 : is_attempt_io d n (HttpGet d n)) by (unfold is_attempt_io; auto).
  assert (IO3 : is_attempt_io d n (WriteFile d n)) by (unfold is_attempt_io; auto).
  assert (IO4 : is_attempt_io d n (TagBands d n)) by (unfold is_attempt_io; auto).
  destruct (responses feat k) as [| | |p] eqn:Hresp.
  - intros H; inversion H; subst. split; [apply grows_after|].
    left. exists EEException, [GetDownloadURL d n]. repeat split; auto.
  - rewrite (run_bind_ret _ _ _ _ _ (run_emit _ _)), after_after.
    intros H; inversion H; subst. split; [apply grows_after|].
    left. exists ConnectionError, [GetDownloadURL d n; HttpGet d n]. repeat split; auto.
  - rewrite (run_bind_ret _ _ _ _ _ (run_emit _ _)), after_after.
    intros H; inversion H; subst. split; [apply grows_after|].
    left. exists HTTPError, [GetDownloadURL d n; HttpGet d n]. repeat split; auto.
  - rewrite (run_bind_ret _ _ _ _ _ (run_emit _ _)), after_after. cbn [app].
    set (w1 := after w [GetDownloadURL d n; HttpGet d n]).
    assert (G1 : grows w w1) by apply grows_after.
    unfold bind at 1. rewrite run_write_file.
    destruct (bool_decide ((d, n) ∈ locked w1)).
    { intros H; inversion H; subst. split; [exact G1|].
      left. exists OSError, [GetDownloadURL d n; HttpGet d n]. repeat split; auto. }
    destruct (fs w1 !! d) as [es|] eqn:Hes.
    2:{ intros H; inversion H; subst. split; [exact G1|].
        left. exists OSError, [GetDownloadURL d n; HttpGet d n]. repeat split; auto. }
    set (w2 := after (put_entry w1 d n (fresh_file p)) [WriteFile d n]).
    assert (G2 : grows w w2).
    { eapply grows_trans; [exact G1|]. eapply grows_trans; [apply grows_put_entry | apply grows_after]. }
    assert (E2 : entry w2 d n = Some (fresh_file p)).
    { apply entry_put_entry_eq. eauto. }
    assert (T2 : trace w2 = (trace w ++ [GetDownloadURL d n; HttpGet d n; WriteFile d n])%list).
    { unfold w2. cbn. rewrite trace_put_entry. cbn. now rewrite <- app_assoc. }
    unfold bind at 1. rewrite run_tag_bands, E2.
    destruct p as [[|c] px|t]; cbn [fresh_file taggable].
    { intros H; inversion H; subst. split; [exact G2|].
      left. exists IndexError, [GetDownloadURL d n; HttpGet d n; WriteFile d n].
      repeat split; auto. }
    2:{ intros H; inversion H; subst. split; [exact G2|].
        left. exists RasterioIOError, [GetDownloadURL d n; HttpGet d n; WriteFile d n].
        repeat split; auto. }
    set (tagged_file := File (GeoTiff (S c) px) (tagged (S c) (replicate (S c) None))).
    set (w3 := after (put_entry w2 d n tagged_file) [TagBands d n]).
    assert (Hd2 : is_Some (fs w2 !! d)).
    { destruct G2 as (_ & _ & D & _). apply D. exists es. exact Hes. }
    assert (G3 : grows w w3).
    { eapply grows_trans; [exact G2|]. eapply grows_trans; [apply grows_put_entry | apply grows_after]. }
    assert (E3 : entry w3 d n = Some tagged_file).
    { now apply entry_put_entry_eq. }
    assert (T3 : trace w3 = (trace w ++ [GetDownloadURL d n; HttpGet d n; WriteFile d n; TagBands d n])%list).
    { unfold w3. cbn. rewrite trace_put_entry, T2, <- app_assoc. reflexivity. }
    unfold success_events.
    destruct (Z.eqb_spec i 0) as [Hi|Hi].
    + unfold bind, ret. rewrite run_write_file.
      destruct (bool_decide ((d, "bands_used.txt") ∈ locked w3)).
      { intros H; inversion H; subst. split; [exact G3|].
        left. exists OSError, [GetDownloadURL d n; HttpGet d n; WriteFile d n; TagBands d n].
        repeat split; auto. }
      assert (Hd3 : is_Some (fs w3 !! d)).
      { destruct G3 as (_ & _ & D & _). apply D. exists es. exact Hes. }
      destruct Hd3 as [es3 Hes3]. rewrite Hes3.
      intros H; inversion H; subst. clear H.
      split.
      { eapply grows_trans; [exact G3|]. eapply grows_trans; [apply grows_put_entry | apply grows_after]. }
      right. exists c, px. split; [reflexivity|]. split; [exact Hresp|]. split; [|split].
      * cbn. rewrite trace_put_entry, T3, <- app_assoc. reflexivity.
      * change (entry (after ?x _) d n) with (entry x d n).
        rewrite entry_put_entry_ne; [exact E3|]. unfold manifest in Hn. congruence.
      * intros _. change (entry (after ?x _) d manifest) with (entry x d manifest).
        apply entry_put_entry_eq. eauto.
    + unfold bind, ret.
      intros H; inversion H; subst. clear H. split; [exact G3|].
      right. exists c, px. split; [reflexivity|]. split; [exact Hresp|]. split; [|split].
      * rewrite T3. unfold success_events. apply Z.eqb_neq in Hi. now rewrite Hi.
      * exact E3.
      * intros ->. contradiction.
Qed.

(** ** The retry loop in general *)


Lemma manifest_writes_app d' e1 e2 :
  manifest_writes d' (e1 ++ e2) = (manifest_writes d' e1 + manifest_writes d' e2)%nat.
Proof. unfold manifest_writes. now rewrite List.filter_app, length_app. Qed.

Lemma writes_to_other d' d n : n <> manifest -> writes_to d' manifest (WriteFile d n) = false.
Proof.
  intros Hn. unfold writes_to. apply andb_false_intro2. apply String.eqb_neq. congruence.
Qed.

Lemma manifest_writes_skip d' e evs :
  writes_to d' manifest e = false -> manifest_writes d' (e :: evs) = manifest_writes d' evs.
Proof. intros H. unfold manifest_writes. cbn [List.filter]. now rewrite H. Qed.

Lemma manifest_writes_hit d' e evs :
  writes_to d' manifest e = true -> manifest_writes d' (e :: evs) = S (manifest_writes d' evs).
Proof. intros H. unfold manifest_writes. cbn [List.filter]. now rewrite H. Qed.

Lemma retry_events_no_manifest d' d n evs :
  n <> manifest -> Forall (is_retry_event d n) evs -> manifest_writes d' evs = 0%nat.
Proof.
  intros Hn. induction 1 as [|e evs He _ IH]; [reflexivity|].
  rewrite manifest_writes_skip; [exact IH|].
  destruct He as [[ -> | [ -> | [ -> | -> ]]] | [(l & m & ->) | (x & ->)]]; try reflexivity.
  now apply writes_to_other.
Qed.

Lemma manifest_writes_success i d n :
  n <> manifest ->
  manifest_writes d (success_events i d n) = if i =? 0 then 1%nat else 0%nat.
Proof.
  intros Hn. unfold success_events.
  change ([?a; ?b; ?c; ?e] ++ ?l)%list with (a :: b :: c :: e :: l).
  rewrite !manifest_writes_skip by (reflexivity || now apply writes_to_other).
  destruct (i =? 0); [|reflexivity].
  rewrite manifest_writes_hit; [reflexivity|].
  unfold writes_to. now rewrite !String.eqb_refl.
Qed.

Lemma attempt_io_retry d n evs :
  Forall (is_attempt_io d n) evs -> Forall (is_retry_event d n) evs.
Proof. apply List.Forall_impl. unfold is_retry_event. auto. Qed.

Lemma retry_event_log d n l m : is_retry_event d n (Log l m).
Proof. right. left. eauto. Qed.

Lemma retry_event_sleep d n x : is_retry_event d n (Sleep x).
Proof. right. right. eauto. Qed.


Lemma retry_loop_cases cfg feat i d n band_list tile_index attempts w r w' :
  n <> manifest ->
  retry_loop cfg (fun k => download_attempt feat k i d n band_list) tile_index attempts w
    = (r, w') ->
  grows w w' /\
  exists evs, trace w' = (trace w ++ evs)%list /\
    match r with
    | Ret (Some outp) =>
        outp = Py.path_join2 d n /\ loop_succeeded feat i d n band_list attempts evs w'
    | _ => Forall (is_retry_event d n) evs
    end.
Proof.
  intros Hn. revert w. induction attempts as [|k rest IH]; intros w; cbn [retry_loop].
  - intros H; inversion H; subst. split; [apply grows_refl|].
    exists []. rewrite app_nil_r. auto.
  - intros [(a & w1 & H1 & H2)|(e & H1 & ->)]%bind_inv.
    + apply try_inv in H1 as [(outp & Hk & [= ->])|(e & Hk & He)].
      * inversion H2; subst. clear H2.
        destruct (download_attempt_cases _ _ _ _ _ _ _ _ _ Hn Hk) as [G [F|S]].
        { destruct F as (e & evs & [=] & _). }
        destruct S as (c & px & [= <-] & Hr & T & E & Em).
        split; [exact G|]. exists (success_events i d n). split; [exact T|].
        split; [reflexivity|]. exists [], k, c, px. repeat split; auto. now left.
      * destruct (is_Exception e); [|discriminate He]. injection He as ->.
        destruct (download_attempt_cases _ _ _ _ _ _ _ _ _ Hn Hk) as [G [F|S]].
        2:{ destruct S as (c & px & [=] & _). }
        destruct F as (e' & evs & _ & _ & T & A).
        rewrite (run_bind_ret _ _ _ _ _ (run_log _ _ _)) in H2.
        set (warn := Log WARNING (MsgRetryFailed tile_index (k + 1) (MAX_RETRIES cfg))) in *.
        unfold sleep in H2.
        destruct (Qle_bool 0 (BASE_WAIT cfg * inject_Z (2 ^ Z.of_nat k))).
        -- rewrite (run_bind_ret _ _ _ _ _ (run_emit _ _)), after_after in H2.
           set (nap := Sleep (BASE_WAIT cfg * inject_Z (2 ^ Z.of_nat k))) in *.
           destruct (IH _ H2) as [G' (evs' & T' & Hr)].
           split.
           { eapply grows_trans; [exact G|]. eapply grows_trans; [apply grows_after | exact G']. }
           exists (evs ++ [warn; nap] ++ evs')%list. split.
           { rewrite T'. cbn. rewrite T, <- !app_assoc. reflexivity. }
           assert (Hpre : Forall (is_retry_event d n) (evs ++ [warn; nap])%list).
           { apply Forall_app. split; [now apply attempt_io_retry|].
             apply List.Forall_cons; [apply retry_event_log|].
             apply List.Forall_cons; [apply retry_event_sleep | apply List.Forall_nil]. }
           destruct r as [[outp|]|e''].
           ++ destruct Hr as [-> (pre & k' & c & px & Hin & Hresp & -> & Hp & E & Em)].
              split; [reflexivity|].
              exists ((evs ++ [warn; nap]) ++ pre)%list, k', c, px.
              repeat split; auto.
              ** now right.
              ** now rewrite <- !app_assoc.
              ** apply Forall_app. auto.
           ++ rewrite app_assoc. apply Forall_app. auto.
           ++ rewrite app_assoc. apply Forall_app. auto.
        -- unfold bind, raise in H2. inversion H2; subst. clear H2.
           split. { eapply grows_trans; [exact G | apply grows_after]. }
           exists (evs ++ [warn])%list. split.
           { cbn. rewrite T, <- app_assoc. reflexivity. }
           apply Forall_app. split; [now apply attempt_io_retry|].
           apply List.Forall_cons; [apply retry_event_log | apply List.Forall_nil].
    + apply try_inv in H1 as [(outp & Hk & [=])|(e' & Hk & He)].
      destruct (is_Exception e') eqn:Hex; [discriminate He|]. injection He as <-.
      destruct (download_attempt_cases _ _ _ _ _ _ _ _ _ Hn Hk) as [G [F|S]].
      * destruct F as (e'' & evs & [= <-] & Hex' & _). congruence.
      * destruct S as (c & px & [=] & _).
Qed.

(** ** The two workers *)

Lemma grows_with_dir w d : grows w (with_dir w d).
Proof.
  split; [|split; [|split]].
  - unfold with_dir. now destruct (fs w !! d).
  - unfold with_dir. now destruct (fs w !! d).
  - intros d' Hd'. unfold with_dir. destruct (fs w !! d) eqn:E; [exact Hd'|]. cbn.
    destruct (decide (d = d')) as [<-|Hne].
    + rewrite lookup_insert_eq. eauto.
    + now rewrite lookup_insert_ne.
  - intros d' n'. now rewrite present_with_dir.
Qed.

Lemma trace_with_dir w d : trace (with_dir w d) = trace w.
Proof. unfold with_dir. now destruct (fs w !! d). Qed.

Lemma filename_manifest cfg epsg chunk_name i : filename cfg epsg chunk_name i <> manifest.
Proof. apply filename_not_manifest. Qed.

Lemma check_and_download_present cfg i feat band_list chunk_name lon lat w :
  centroid feat = Some (lon, lat) ->
  present w (out_dir cfg chunk_name)
            (filename cfg (Download.epsg_code lon lat) chunk_name i) ->
  Download.check_and_download cfg (i, feat, band_list, chunk_name) w
  = (Ret None, after w [ResolveCRS i]).
Proof.
  intros Hc Ha. unfold Download.check_and_download.
  rewrite (run_bind_ret _ _ _ _ _ (run_resolve_epsg_some _ _ _ _ _ Hc)).
  rewrite (run_bind_ret _ _ _ _ _ (run_makedirs _ _)).
  rewrite (run_bind_ret _ _ _ _ _ (run_path_exists _ _ _)).
  rewrite bool_decide_eq_true_2 by (now apply present_with_dir).
  unfold ret. f_equal. eapply with_dir_present. exact Ha.
Qed.

Lemma download_images_present cfg i feat band_list chunk_name epsg w :
  transform_ok feat = true -> image_ok feat = true ->
  present w (out_dir cfg chunk_name) (filename cfg epsg chunk_name i) ->
  GeeEmbeddingDownload.download_images cfg (feat, i, epsg, band_list, chunk_name) w
  = (Ret (Some (Py.path_join2 (out_dir cfg chunk_name)
                              (filename cfg epsg chunk_name i))), w).
Proof.
  intros Ht Him Hb. unfold GeeEmbeddingDownload.download_images. rewrite Ht, Him.
  unfold bind at 1. cbn [ret]. unfold bind at 1. cbn [try_ ret].
  rewrite (run_bind_ret _ _ _ _ _ (run_makedirs _ _)).
  rewrite (run_bind_ret _ _ _ _ _ (run_path_exists _ _ _)).
  rewrite bool_decide_eq_true_2 by (now apply present_with_dir).
  unfold ret. f_equal. eapply with_dir_present. exact Hb.
Qed.

Lemma check_and_download_cases cfg i feat band_list chunk_name w r w' :
  Download.check_and_download cfg (i, feat, band_list, chunk_name) w = (r, w') ->
  grows w w' /\
  exists evs, trace w' = (trace w ++ ResolveCRS i :: evs)%list /\
    match r with
    | Ret (Some outp) =>
        exists lon lat,
          centroid feat = Some (lon, lat)
          /\ outp = Py.path_join2 (out_dir cfg chunk_name)
                      (filename cfg (Download.epsg_code lon lat) chunk_name i)
          /\ ~ present w (out_dir cfg chunk_name)
                 (filename cfg (Download.epsg_code lon lat) chunk_name i)
          /\ loop_succeeded feat i (out_dir cfg chunk_name)
               (filename cfg (Download.epsg_code lon lat) chunk_name i)
               band_list (seq 0 (MAX_RETRIES cfg)) evs w'
    | _ => forall d', manifest_writes d' evs = 0%nat
    end.
Proof.
  unfold Download.check_and_download.
  destruct (centroid feat) as [[lon lat]|] eqn:Hc.
  2:{ rewrite (run_bind_raise _ _ _ _ _ (run_resolve_epsg_none _ _ _ Hc)).
      intros H; inversion H; subst. split; [apply grows_after|]. exists []. auto. }
  rewrite (run_bind_ret _ _ _ _ _ (run_resolve_epsg_some _ _ _ _ _ Hc)).
  rewrite (run_bind_ret _ _ _ _ _ (run_makedirs _ _)).
  rewrite (run_bind_ret _ _ _ _ _ (run_path_exists _ _ _)).
  set (dir := out_dir cfg chunk_name).
  set (name := filename cfg (Download.epsg_code lon lat) chunk_name i).
  set (w0 := with_dir (after w [ResolveCRS i]) dir).
  assert (G0 : grows w w0).
  { eapply grows_trans; [apply grows_after | apply grows_with_dir]. }
  assert (T0 : trace w0 = (trace w ++ [ResolveCRS i])%list).
  { unfold w0. now rewrite trace_with_dir. }
  destruct (bool_decide (present w0 dir name)) eqn:Hp.
  { intros H; inversion H; subst. split; [exact G0|]. exists []. auto. }
  apply bool_decide_eq_false in Hp.
  unfold Download.get_embedding_image.
  destruct (transform_ok feat && image_ok feat).
  2:{ unfold bind at 1, try_ at 1, raise at 1. cbn [is_Exception].
      rewrite (run_bind_ret _ _ _ _ _ (run_log _ _ _)).
      intros H; inversion H; subst. split.
      { eapply grows_trans; [exact G0 | apply grows_after]. }
      exists [Log ERROR (MsgImageFailed (Some i))]. split; [|reflexivity].
      cbn. rewrite T0, <- app_assoc. reflexivity. }
  unfold bind at 1, try_ at 1, ret at 1.
  intros [(a & w1 & H1 & H2)|(e & H1 & ->)]%bind_inv.
  - destruct (retry_loop_cases _ _ _ _ _ _ _ _ _ _ _ (filename_manifest _ _ _ _) H1)
      as [G1 (evs & T1 & Hr)].
    destruct a as [outp|].
    + inversion H2; subst. clear H2. split; [eapply grows_trans; eauto|].
      exists evs. split. { rewrite T1, T0, <- app_assoc. reflexivity. }
      destruct Hr as [-> Hs]. exists lon, lat. repeat split; auto.
      intros Hq. apply Hp. unfold w0. now apply present_with_dir.
    + rewrite (run_bind_ret _ _ _ _ _ (run_log _ _ _)) in H2.
      inversion H2; subst. clear H2. split.
      { eapply grows_trans; [exact G0|]. eapply grows_trans; [exact G1 | apply grows_after]. }
      exists (evs ++ [Log ERROR (MsgGaveUp name)])%list. split.
      { cbn. rewrite T1, T0, <- !app_assoc. reflexivity. }
      intros d'. rewrite manifest_writes_app,
        (retry_events_no_manifest d' _ _ _ (filename_manifest _ _ _ _) Hr). reflexivity.
  - destruct (retry_loop_cases _ _ _ _ _ _ _ _ _ _ _ (filename_manifest _ _ _ _) H1)
      as [G1 (evs & T1 & Hr)].
    split; [eapply grows_trans; eauto|].
    exists evs. split. { rewrite T1, T0, <- app_assoc. reflexivity. }
    intros d'. exact (retry_events_no_manifest d' _ _ _ (filename_manifest _ _ _ _) Hr).
Qed.

Lemma download_images_cases cfg i feat band_list chunk_name epsg w r w' :
  GeeEmbeddingDownload.download_images cfg (feat, i, epsg, band_list, chunk_name) w = (r, w') ->
  let dir := out_dir cfg chunk_name in
  let name := filename cfg epsg chunk_name i in
  grows w w' /\
  exists evs, trace w' = (trace w ++ evs)%list /\
    match r with
    | Ret (Some outp) =>
        outp = Py.path_join2 dir name
        /\ ((present w dir name /\ evs = [])
            \/ (~ present w dir name
                /\ loop_succeeded feat i dir name band_list (seq 0 (MAX_RETRIES cfg)) evs w'))
    | _ => forall d', manifest_writes d' evs = 0%nat
    end.
Proof.
  intros H dir name. revert H. unfold GeeEmbeddingDownload.download_images.
  destruct (transform_ok feat).
  2:{ unfold bind at 1, raise at 1. intros H; inversion H; subst.
      split; [apply grows_refl|]. exists []. rewrite app_nil_r. auto. }
  unfold bind at 1, ret at 1.
  destruct (image_ok feat).
  2:{ unfold bind at 1, try_ at 1, raise at 1. cbn [is_Exception].
      rewrite (run_bind_ret _ _ _ _ _ (run_log _ _ _)).
      intros H; inversion H; subst. split; [apply grows_after|].
      exists [Log ERROR (MsgImageFailed None)]. auto. }
  unfold bind at 1, try_ at 1, ret at 1.
  rewrite (run_bind_ret _ _ _ _ _ (run_makedirs _ _)).
  rewrite (run_bind_ret _ _ _ _ _ (run_path_exists _ _ _)).
  fold dir. fold name.
  set (w0 := with_dir w dir).
  assert (G0 : grows w w0) by apply grows_with_dir.
  assert (T0 : trace w0 = trace w) by apply trace_with_dir.
  destruct (bool_decide (present w0 dir name)) eqn:Hp.
  { apply bool_decide_eq_true in Hp. apply present_with_dir in Hp.
    intros H; inversion H; subst. split; [exact G0|]. exists [].
    rewrite app_nil_r. auto. }
  apply bool_decide_eq_false in Hp.
  assert (Hp' : ~ present w dir name).
  { intros Hq. apply Hp. now apply present_with_dir. }
  intros [(a & w1 & H1 & H2)|(e & H1 & ->)]%bind_inv.
  - destruct (retry_loop_cases _ _ _ _ _ _ _ _ _ _ _ (filename_manifest _ _ _ _) H1)
      as [G1 (evs & T1 & Hr)].
    destruct a as [outp|].
    + inversion H2; subst. clear H2. split; [eapply grows_trans; eauto|].
      exists evs. split. { now rewrite T1, T0. }
      destruct Hr as [-> Hs]. auto.
    + rewrite (run_bind_ret _ _ _ _ _ (run_log _ _ _)) in H2.
      inversion H2; subst. clear H2. split.
      { eapply grows_trans; [exact G0|]. eapply grows_trans; [exact G1 | apply grows_after]. }
      exists (evs ++ [Log ERROR (MsgGaveUp name)])%list. split.
      { cbn. rewrite T1, T0, <- !app_assoc. reflexivity. }
      intros d'. rewrite manifest_writes_app,
        (retry_events_no_manifest d' _ _ _ (filename_manifest _ _ _ _) Hr). reflexivity.
  - destruct (retry_loop_cases _ _ _ _ _ _ _ _ _ _ _ (filename_manifest _ _ _ _) H1)
      as [G1 (evs & T1 & Hr)].
    split; [eapply grows_trans; eauto|].
    exists evs. split. { now rewrite T1, T0. }
    intros d'. exact (retry_events_no_manifest d' _ _ _ (filename_manifest _ _ _ _) Hr).
Qed.

Lemma check_and_download_unresolved cfg i feat band_list chunk_name w :
  centroid feat = None ->
  Download.check_and_download cfg (i, feat, band_list, chunk_name) w
  = (Raise EEException, after w [ResolveCRS i]).
Proof.
  intros Hc. unfold Download.check_and_download.
  now rewrite (run_bind_raise _ _ _ _ _ (run_resolve_epsg_none _ _ _ Hc)).
Qed.

(** C3, at a tile whose centroid the remote service fails to evaluate:
    [check_and_download] raises out of the worker, in whatever state and for
    whatever item; and [main] of [download.py], given a grid whose second
    tile is such a tile, ends with that exception: the chunk has no tally,
    the second chunk is never started and, the pool taken in order, neither
    is the third tile. *)
Theorem C3_unresolved_centroid_aborts_batch :
  let d := "out/DK/2020/c1" in
  let n0 := "google_embed_DK_2020_10m_32632_c1_0.tif" in
  (forall cfg i band_list chunk_name w,
      Download.check_and_download cfg (i, lost_tile, band_list, chunk_name) w
      = (Raise EEException, after w [ResolveCRS i]))
  /\ (let '(r, w) := Download.main sample_config [sound_tile; lost_tile; sound_tile] empty_world in
      r = Raise EEException
      /\ trace w = [ Log INFO MsgLoadingGrid;
                     Log INFO (MsgStartChunk "c1" ["A01"; "A02"]);
                     ResolveCRS 0;
                     GetDownloadURL d n0; HttpGet d n0; WriteFile d n0; TagBands d n0;
                     WriteFile d "bands_used.txt";
                     ResolveCRS 1 ]).
Proof.
  split.
  - intros. now apply check_and_download_unresolved.
  - vm_compute. split; reflexivity.
Qed.

(** C6 as worded fails inside one invocation.  A body that is not a raster
    is written and fails tagging, and the retry writes the same path again;
    and when the manifest cannot be written, tile 0 is written and tagged
    three times, the artifact stays on disk and the item counts as failed. *)
Lemma C6_counterexample :
  let d := "out/DK/2020/c1" in
  let n0 := "google_embed_DK_2020_10m_32632_c1_0.tif" in
  let n1 := "google_embed_DK_2020_10m_32632_c1_1.tif" in
  (let '(r, w) := Download.check_and_download sample_config
                    (1, flaky_tile, ["A01"; "A02"], "c1") empty_world in
   r = Ret (Some "out/DK/2020/c1/google_embed_DK_2020_10m_32632_c1_1.tif")
   /\ trace w = [ ResolveCRS 1;
                  GetDownloadURL d n1; HttpGet d n1; WriteFile d n1;
                  Log WARNING (MsgRetryFailed (Some 1) 1 3); Sleep 2;
                  GetDownloadURL d n1; HttpGet d n1; WriteFile d n1; TagBands d n1 ])
  /\
  (let '(r, w) := Download.check_and_download sample_config
                    (0, sound_tile, ["A01"; "A02"], "c1")
                    (World ∅ {[(d, "bands_used.txt")]} ∅ []) in
   r = Ret None
   /\ trace w = [ ResolveCRS 0;
                  GetDownloadURL d n0; HttpGet d n0; WriteFile d n0; TagBands d n0;
                  Log WARNING (MsgRetryFailed (Some 0) 1 3); Sleep 2;
                  GetDownloadURL d n0; HttpGet d n0; WriteFile d n0; TagBands d n0;
                  Log WARNING (MsgRetryFailed (Some 0) 2 3); Sleep 4;
                  GetDownloadURL d n0; HttpGet d n0; WriteFile d n0; TagBands d n0;
                  Log WARNING (MsgRetryFailed (Some 0) 3 3); Sleep 8;
                  Log ERROR (MsgGaveUp n0) ]).
Proof. vm_compute. repeat split; reflexivity. Qed.

(** C6 (amended): a worker that finds its output path present fetches
    nothing and writes nothing ([download.py] only resolves the CRS), so the
    artifact is unchanged.  A worker that returns success has, as its last
    attempt, requested, fetched, written and tagged the artifact once each
    (and written the manifest for tile 0); the artifact is then a raster
    whose bands are tagged, and the same worker started again in the state
    it left skips the item. *)
Theorem C6_skip_and_final_write cfg (i : Z) feat band_list chunk_name lon lat epsg w :
  let dir := out_dir cfg chunk_name in
  let name_a := filename cfg (Download.epsg_code lon lat) chunk_name i in
  let name_b := filename cfg epsg chunk_name i in
  let worker_a := Download.check_and_download cfg (i, feat, band_list, chunk_name) in
  let worker_b :=
    GeeEmbeddingDownload.download_images cfg (feat, i, epsg, band_list, chunk_name) in
  centroid feat = Some (lon, lat) ->
  transform_ok feat = true -> image_ok feat = true ->
  (present w dir name_a -> worker_a w = (Ret None, after w [ResolveCRS i]))
  /\ (present w dir name_b -> worker_b w = (Ret (Some (Py.path_join2 dir name_b)), w))
  /\ (forall outp w', worker_a w = (Ret (Some outp), w') ->
        exists pre c px,
          trace w' = (trace w ++ ResolveCRS i :: pre ++ success_events i dir name_a)%list
          /\ entry w' dir name_a
             = Some (File (GeoTiff (S c) px) (tagged (S c) (replicate (S c) None)))
          /\ worker_a w' = (Ret None, after w' [ResolveCRS i]))
  /\ (forall outp w', ~ present w dir name_b -> worker_b w = (Ret (Some outp), w') ->
        exists pre c px,
          trace w' = (trace w ++ pre ++ success_events i dir name_b)%list
          /\ entry w' dir name_b
             = Some (File (GeoTiff (S c) px) (tagged (S c) (replicate (S c) None)))
          /\ worker_b w' = (Ret (Some (Py.path_join2 dir name_b)), w')).
Proof.
  intros dir name_a name_b worker_a worker_b Hc Ht Him.
  split; [|split; [|split]].
  - intros Hp. eapply check_and_download_present; [exact Hc | exact Hp].
  - intros Hp. now apply download_images_present.
  - intros outp w' Hrun.
    destruct (check_and_download_cases _ _ _ _ _ _ _ _ Hrun)
      as [_ (evs & T & lon' & lat' & Hc' & _ & _ & Hs)].
    rewrite Hc in Hc'. injection Hc' as <- <-.
    destruct Hs as (pre & k & c & px & _ & _ & -> & _ & E & _).
    exists pre, c, px. split; [exact T|]. split; [exact E|].
    eapply check_and_download_present; [exact Hc|]. eexists. exact E.
  - intros outp w' Hp Hrun.
    destruct (download_images_cases _ _ _ _ _ _ _ _ _ Hrun)
      as [_ (evs & T & _ & [[Hq _]|[_ Hs]])]; [contradiction|].
    destruct Hs as (pre & k & c & px & _ & _ & -> & _ & E & _).
    exists pre, c, px. split; [exact T|]. split; [exact E|].
    apply download_images_present; [exact Ht | exact Him |].
    eexists. exact E.
Qed.

(** C6 (amended) at tile 1 of chunk [c1], already on disk. *)
Lemma C6_skip_and_final_write_witness :
  let d := "out/DK/2020/c1" in
  let n := "google_embed_DK_2020_10m_32632_c1_1.tif" in
  let w := World {[ d := {[ n := File (GeoTiff 3 7) [] ]} ]} ∅ ∅ [] in
  Download.check_and_download sample_config (1, sound_tile, ["A01"; "A02"], "c1") w
  = (Ret None, after w [ResolveCRS 1]).
Proof.
  intros d n w.
  refine (proj1 (C6_skip_and_final_write sample_config 1 sound_tile ["A01"; "A02"] "c1"
                   10%Q 52%Q 32632 w eq_refl eq_refl eq_refl) _).
  vm_compute. eauto.
Defined.

(** C9 as worded fails both ways.  In [gee_embedding_download.py] the zones
    of a chunk share its directory, and with two zones the manifest of
    chunk [bands_01_22] is written twice; in [download.py], when tile 0
    fails and tile 1 is fetched, the directory holds an artifact and the
    manifest is never written. *)
Lemma C9_counterexample :
  (let '(r, w) := GeeEmbeddingDownload.main sample_config
                    [sample_zone 32; sample_zone 33] empty_world in
   r = Ret tt /\ manifest_writes "out/DK/2020/bands_01_22" (trace w) = 2%nat)
  /\
  (let '(r, w) := Download.main sample_config [dead_tile; sound_tile] empty_world in
   r = Ret tt
   /\ is_Some (entry w "out/DK/2020/c1" "google_embed_DK_2020_10m_32632_c1_1.tif")
   /\ manifest_writes "out/DK/2020/c1" (trace w) = 0%nat).
Proof. vm_compute. repeat split; eauto. Qed.

Lemma last_success_events i d n :
  i = 0 -> forall pre, last (pre ++ success_events i d n) = Some (WriteFile d manifest).
Proof.
  intros -> pre. unfold success_events. cbn [Z.eqb app].
  change [GetDownloadURL d n; HttpGet d n; WriteFile d n; TagBands d n; WriteFile d manifest]
    with ([GetDownloadURL d n; HttpGet d n; WriteFile d n; TagBands d n] ++ [WriteFile d manifest])%list.
  rewrite app_assoc. apply last_snoc.
Qed.

Lemma loop_succeeded_manifest feat i d n band_list attempts evs w' :
  n <> manifest ->
  loop_succeeded feat i d n band_list attempts evs w' ->
  manifest_writes d evs = (if i =? 0 then 1%nat else 0%nat)
  /\ (i = 0 -> last evs = Some (WriteFile d manifest)
               /\ entry w' d manifest
                  = Some (File (Opaque (Py.join (String "010" "") band_list)) [])).
Proof.
  intros Hn (pre & k & c & px & _ & _ & -> & Hpre & _ & Em). split.
  - rewrite manifest_writes_app, (retry_events_no_manifest d _ _ _ Hn Hpre).
    now rewrite manifest_writes_success.
  - intros Hi. split; [now apply last_success_events | now apply Em].
Qed.

(** C9 (amended): a worker writes the manifest of its chunk directory, the
    band identifiers one per line, exactly when it fetches the tile of
    index 0, as the last step of the attempt that goes through; it writes
    it once then, and never for a tile of another index, for an item that
    fails, or (in [gee_embedding_download.py]) for an item it skips. *)
Theorem C9_manifest_follows_tile_zero cfg (i : Z) feat band_list chunk_name epsg w :
  let dir := out_dir cfg chunk_name in
  let listing := File (Opaque (Py.join (String "010" "") band_list)) [] in
  (forall r w',
      Download.check_and_download cfg (i, feat, band_list, chunk_name) w = (r, w') ->
      exists evs,
        trace w' = (trace w ++ evs)%list
        /\ manifest_writes dir evs = (if (i =? 0) && is_done r then 1%nat else 0%nat)
        /\ (i = 0 -> is_done r = true ->
            last evs = Some (WriteFile dir manifest)
            /\ entry w' dir manifest = Some listing))
  /\
  (forall r w',
      GeeEmbeddingDownload.download_images cfg (feat, i, epsg, band_list, chunk_name) w
        = (r, w') ->
      exists evs,
        trace w' = (trace w ++ evs)%list
        /\ manifest_writes dir evs
           = (if (i =? 0) && is_done r
                 && negb (bool_decide (present w dir (filename cfg epsg chunk_name i)))
              then 1%nat else 0%nat)
        /\ (i = 0 -> is_done r = true ->
            ~ present w dir (filename cfg epsg chunk_name i) ->
            last evs = Some (WriteFile dir manifest)
            /\ entry w' dir manifest = Some listing)).
Proof.
  intros dir listing. split; intros r w' Hrun.
  - destruct (check_and_download_cases _ _ _ _ _ _ _ _ Hrun) as [_ (evs & T & Hr)].
    exists (ResolveCRS i :: evs). split; [exact T|].
    rewrite manifest_writes_skip by reflexivity.
    destruct r as [[outp|]|e]; cbn [is_done]; rewrite ?andb_false_r;
      try (split; [apply Hr | intros _ [=]]).
    destruct Hr as (lon & lat & _ & _ & _ & Hs).
    destruct (loop_succeeded_manifest _ _ _ _ _ _ _ _ (filename_manifest _ _ _ _) Hs)
      as [Hcount Hlast].
    rewrite andb_true_r. split; [exact Hcount|]. intros Hi _.
    destruct (Hlast Hi) as [Hl He]. split; [|exact He].
    destruct Hs as (pre & k & c & px & _ & _ & -> & _).
    change (ResolveCRS i :: pre ++ ?l)%list with ((ResolveCRS i :: pre) ++ l)%list.
    now apply last_success_events.
  - destruct (download_images_cases _ _ _ _ _ _ _ _ _ Hrun) as [_ (evs & T & Hr)].
    exists evs. split; [exact T|].
    destruct r as [[outp|]|e]; cbn [is_done]; rewrite ?andb_false_r; cbn [andb];
      try (split; [apply Hr | intros _ [=]]).
    rewrite andb_true_r.
    destruct Hr as [_ [[Hp ->]|[Hp Hs]]].
    + rewrite bool_decide_eq_true_2 by exact Hp. rewrite andb_false_r.
      split; [reflexivity|]. intros _ _ Hq. contradiction.
    + rewrite bool_decide_eq_false_2 by exact Hp. rewrite andb_true_r.
      destruct (loop_succeeded_manifest _ _ _ _ _ _ _ _ (filename_manifest _ _ _ _) Hs)
        as [Hcount Hlast].
      split; [exact Hcount|]. intros Hi _ _. now apply Hlast.
Qed.

(** C9 (amended) at tile 0 of chunk [c1] in an empty directory. *)
Lemma C9_manifest_follows_tile_zero_witness :
  let w := World {[ "out/DK/2020/c1" := ∅ ]} ∅ ∅ [] in
  let run := Download.check_and_download sample_config (0, sound_tile, ["A01"; "A02"], "c1") w in
  exists evs,
    trace (snd run) = (trace w ++ evs)%list
    /\ manifest_writes "out/DK/2020/c1" evs = 1%nat
    /\ last evs = Some (WriteFile "out/DK/2020/c1" manifest).
Proof.
  intros w run.
  destruct (proj1 (C9_manifest_follows_tile_zero sample_config 0 sound_tile
                     ["A01"; "A02"] "c1" 32632 w) (fst run) (snd run))
    as (evs & T & Hcount & Hlast).
  { vm_compute. reflexivity. }
  exists evs. split; [exact T|]. split.
  - exact Hcount.
  - apply Hlast; reflexivity.
Defined.

(** ** The index-resume generator *)



Lemma Forall2_right {A B} (P : A -> B -> Prop) l k y :
  Forall2 P l k -> In y k -> exists x, In x l /\ P x y.
Proof.
  induction 1 as [|x y' l k Hxy _ IH]; intros Hin; [destruct Hin|].
  destruct Hin as [->|Hin]; [exists x; split; [now left | exact Hxy]|].
  destruct (IH Hin) as (x' & Hx' & Hp). exists x'. split; [now right | exact Hp].
Qed.

Lemma Forall2_left {A B} (P : A -> B -> Prop) l k x :
  Forall2 P l k -> In x l -> exists y, In y k /\ P x y.
Proof.
  induction 1 as [|x' y l k Hxy _ IH]; intros Hin; [destruct Hin|].
  destruct Hin as [->|Hin]; [exists y; split; [now left | exact Hxy]|].
  destruct (IH Hin) as (y' & Hy' & Hp). exists y'. split; [now right | exact Hp].
Qed.


Lemma fold_max_spec l x :
  let m := fold_left Z.max l x in
  In m (x :: l) /\ forall y, In y (x :: l) -> y <= m.
Proof.
  revert x. induction l as [|a l IH]; intros x; cbn.
  - split; [auto|]. intros y [->|[]]. lia.
  - destruct (IH (Z.max x a)) as [Hin Hle]. split.
    + destruct Hin as [Hm|Hm]; [|auto].
      rewrite <- Hm. destruct (Z.max_spec x a) as [[_ ->]|[_ ->]]; auto.
    + intros y [->|[->|Hy]].
      * specialize (Hle _ (or_introl eq_refl)). lia.
      * specialize (Hle _ (or_introl eq_refl)). lia.
      * apply Hle. now right.
Qed.

Lemma start_index_spec existing :
  existing <> [] ->
  In (Download.start_index existing - 1) existing
  /\ forall y, In y existing -> y < Download.start_index existing.
Proof.
  destruct existing as [|x l]; [congruence|]. intros _. unfold Download.start_index.
  destruct (fold_max_spec l x) as [Hin Hle].
  replace (fold_left Z.max l x + 1 - 1) with (fold_left Z.max l x) by lia.
  split; [exact Hin|]. intros y Hy. specialize (Hle y Hy). lia.
Qed.


Lemma run_mapM_parse names w :
  mapM parse_or_raise names w
  = (match parsed names with Some zs => Ret zs | None => Raise ValueError end, w).
Proof.
  induction names as [|f names IH]; [reflexivity|]. cbn [mapM parsed].
  unfold parse_or_raise at 1. destruct (Download.tile_index_of f) as [z|]; [|reflexivity].
  unfold bind at 1, ret at 1. unfold bind at 1. rewrite IH.
  now destruct (parsed names).
Qed.

Lemma run_existing_files cfg names w :
  Download.existing_files cfg names w
  = (match parsed (List.filter (Download.is_artifact cfg) names) with
     | Some zs => Ret (merge_sort Z.le zs)
     | None => Raise ValueError
     end, w).
Proof.
  unfold Download.existing_files. fold parse_or_raise. unfold bind.
  rewrite run_mapM_parse. now destruct (parsed _).
Qed.

Lemma fs_with_dir w d : fs (with_dir w d) !! d = Some (dir_entries w d).
Proof.
  unfold with_dir, dir_entries. destruct (fs w !! d) eqn:E; cbn.
  - exact E.
  - now rewrite lookup_insert_eq.
Qed.

Lemma run_listdir d w entries :
  fs w !! d = Some entries -> listdir d w = (Ret (map fst (map_to_list entries)), w).
Proof. intros H. unfold listdir, bind, get_fs. cbn. now rewrite H. Qed.


Lemma run_process_chunk cfg grid chunk_name band_list w :
  let w1 := with_dir (after w [Log INFO (MsgStartChunk chunk_name band_list)])
                     (out_dir cfg chunk_name) in
  Download.process_chunk cfg grid (chunk_name, band_list) w
  = match parsed (chunk_names cfg w chunk_name) with
    | None => (Raise ValueError, w1)
    | Some zs =>
        let params := Download.all_params grid (Download.start_index (merge_sort Z.le zs))
                        band_list chunk_name in
        (results <- mapM (Download.check_and_download cfg) params ;;
         log INFO (MsgChunkTally chunk_name (succeeded results) (length params))) w1
    end.
Proof.
  intros w1. unfold Download.process_chunk.
  rewrite (run_bind_ret _ _ _ _ _ (run_log _ _ _)).
  rewrite (run_bind_ret _ _ _ _ _ (run_makedirs _ _)).
  rewrite (run_bind_ret _ _ _ _ _ (run_listdir _ _ _ (fs_with_dir _ _))).
  fold w1. unfold bind at 1. rewrite run_existing_files.
  change (dir_entries (after w ?e) ?d) with (dir_entries w d).
  fold (chunk_names cfg w chunk_name).
  now destruct (parsed (chunk_names cfg w chunk_name)).
Qed.



(** ** Zone provisioning *)


Lemma run_export_zone_barren cfg z w :
  barren z = true ->
  GeeEmbeddingDownload.export_zone cfg z w = (Ret None, after w (skip_events z)).
Proof.
  unfold barren, skip_events, GeeEmbeddingDownload.export_zone.
  destruct (area z) as [a|].
  - intros ->. unfold ret. now rewrite after_nil.
  - intros _. reflexivity.
Qed.

Lemma forallb_is_log_skip z : forallb is_log (skip_events z) = true.
Proof. unfold skip_events. now destruct (area z). Qed.

Lemma run_mapM_barren cfg zones w :
  forallb barren zones = true ->
  exists evs,
    mapM (GeeEmbeddingDownload.export_zone cfg) zones w
    = (Ret (map (fun _ => None) zones), after w evs)
    /\ forallb is_log evs = true.
Proof.
  revert w. induction zones as [|z zones IH]; intros w Hb.
  - exists []. now rewrite after_nil.
  - cbn [forallb] in Hb. apply andb_true_iff in Hb as [Hz Hzs].
    destruct (IH (after w (skip_events z)) Hzs) as (evs & Hrun & Hlog).
    exists (skip_events z ++ evs)%list. split.
    + cbn [mapM]. rewrite (run_bind_ret _ _ _ _ _ (run_export_zone_barren _ _ _ Hz)).
      rewrite (run_bind_ret _ _ _ _ _ Hrun). now rewrite after_after.
    + now rewrite forallb_app, forallb_is_log_skip, Hlog.
Qed.

Lemma omap_all_none {A B} (l : list A) : omap id (map (fun _ => @None B) l) = [].
Proof. induction l; [reflexivity | exact IHl]. Qed.

(** C8: zone provisioning in [gee_embedding_download.py].  A zone whose
    clipped area is zero is skipped silently and yields no grid; a zone
    whose area cannot be computed is logged as an error and skipped; when
    every candidate zone is of one of these kinds, [main] ends with
    [SystemExit 1] right after the error record, having done nothing but
    log; and among a failing, an empty and a sound zone, only the sound one
    is exported. *)
Theorem C8_zone_provisioning cfg (z : zone_feature) (zones : list zone_feature) w :
  forallb barren zones = true ->
  (forall a, area z = Some a -> Qeq_bool a 0 = true ->
             GeeEmbeddingDownload.export_zone cfg z w = (Ret None, w))
  /\ (area z = None ->
      GeeEmbeddingDownload.export_zone cfg z w
      = (Ret None, after w [Log ERROR (MsgAreaError (zone_number z))]))
  /\ (exists evs,
        GeeEmbeddingDownload.main cfg zones w = (Raise (SystemExit 1), after w evs)
        /\ forallb is_log evs = true
        /\ last evs = Some (Log ERROR MsgNoZones))
  /\ (let '(r, w') := GeeEmbeddingDownload.export_zone_grids sample_config
                        [failing_zone 31; empty_zone 33; sample_zone 32] empty_world in
      let aid := "users/x/DK_utm_grid_1000m_zone32" in
      r = Ret [(32, 32632, "EPSG:32632", aid)]
      /\ trace w' = [ Log INFO MsgStartExport;
                      Log ERROR (MsgAreaError 31);
                      Log INFO (MsgExporting aid); StartExport aid;
                      Log INFO (MsgWaiting 32); Sleep 10; Log INFO (MsgExported 32);
                      Log INFO MsgExportDone ]).
Proof.
  intros Hb. split; [|split; [|split]].
  - intros a Ha Hzero. unfold GeeEmbeddingDownload.export_zone. now rewrite Ha, Hzero.
  - intros Ha. unfold GeeEmbeddingDownload.export_zone. now rewrite Ha.
  - destruct (run_mapM_barren cfg zones (after w [Log INFO MsgStartExport]) Hb)
      as (evs & Hrun & Hlog).
    exists ([Log INFO MsgStartExport] ++ evs ++ [Log ERROR MsgNoZones])%list.
    split; [|split].
    + unfold GeeEmbeddingDownload.main, GeeEmbeddingDownload.export_zone_grids.
      unfold bind at 1.
      rewrite (run_bind_ret _ _ _ _ _ (run_log _ _ _)).
      rewrite (run_bind_ret _ _ _ _ _ Hrun), omap_all_none.
      rewrite (run_bind_ret _ _ _ _ _ (run_log _ _ _)).
      unfold raise. now rewrite !after_after.
    + cbn [app forallb is_log]. now rewrite forallb_app, Hlog.
    + rewrite app_assoc. apply last_snoc.
  - vm_compute. split; reflexivity.
Qed.

(** C8 at a zone whose area fails and a zone of area zero. *)
Lemma C8_zone_provisioning_witness :
  exists evs,
    GeeEmbeddingDownload.main sample_config [failing_zone 31; empty_zone 33] empty_world
    = (Raise (SystemExit 1), after empty_world evs)
    /\ forallb is_log evs = true.
Proof.
  destruct (proj1 (proj2 (proj2
              (C8_zone_provisioning sample_config (empty_zone 33)
                 [failing_zone 31; empty_zone 33] empty_world eq_refl))))
    as (evs & Hrun & Hlog & _).
  exists evs. split; [exact Hrun | exact Hlog].
Defined.

(** ** The validator *)

Lemma run_band_count d n w :
  Validate.band_count d n w
  = (match entry w d n with
     | Some (File (GeoTiff count _) _) => Ret count
     | _ => Raise RasterioIOError
     end, w).
Proof.
  unfold Validate.band_count, entry, bind, get_fs. cbn.
  destruct (fs w !! d) as [es|]; [|reflexivity].
  now destruct (es !! n) as [[[c px|t] ds]|].
Qed.


Lemma run_validate_file d n expected_bands w :
  Validate.validate_file (d, n, expected_bands) w
  = (Ret (verdict expected_bands w d n), w).
Proof.
  unfold Validate.validate_file, verdict.
  unfold bind at 1, try_ at 1. rewrite (run_bind_ret _ _ _ _ _ (run_path_exists _ _ _)).
  unfold present. destruct (entry w d n) as [[[c px|t] ds]|] eqn:E.
  - rewrite bool_decide_eq_true_2 by eauto. cbn [negb].
    unfold bind. rewrite run_band_count, E. cbn [shape_ok].
    now destruct (Nat.eqb c expected_bands).
  - rewrite bool_decide_eq_true_2 by eauto. cbn [negb].
    unfold bind. rewrite run_band_count, E. reflexivity.
  - rewrite bool_decide_eq_false_2 by (intros [x Hx]; discriminate Hx). reflexivity.
Qed.

Lemma run_mapM_validate d expected_bands names w :
  mapM Validate.validate_file (map (fun f => (d, f, expected_bands)) names) w
  = (Ret (map (verdict expected_bands w d) names), w).
Proof.
  induction names as [|n names IH]; [reflexivity|]. cbn [map mapM].
  rewrite (run_bind_ret _ _ _ _ _ (run_validate_file _ _ _ _)).
  now rewrite (run_bind_ret _ _ _ _ _ IH).
Qed.


Lemma entry_without w d n d' n' :
  entry (without w d n) d' n'
  = if bool_decide ((d, n) = (d', n')) then None else entry w d' n'.
Proof.
  unfold without, entry. destruct (fs w !! d) as [es|] eqn:Hes.
  - cbn. destruct (decide (d = d')) as [<-|Hd].
    + rewrite lookup_insert_eq, Hes. destruct (decide (n = n')) as [<-|Hn].
      * rewrite bool_decide_eq_true_2 by reflexivity. apply lookup_delete_eq.
      * rewrite bool_decide_eq_false_2 by congruence. now apply lookup_delete_ne.
    + rewrite bool_decide_eq_false_2 by congruence. now rewrite lookup_insert_ne.
  - case_bool_decide as Heq; [|reflexivity]. injection Heq as <- <-. now rewrite Hes.
Qed.

Lemma run_remove d n w :
  (d, n) ∉ locked w -> present w d n ->
  remove d n w = (Ret tt, after (without w d n) [RemoveFile d n]).
Proof.
  intros Hl Hp. unfold remove, without. rewrite bool_decide_eq_false_2 by exact Hl.
  unfold present, entry in Hp. destruct (fs w !! d) as [es|]; [|now destruct Hp].
  destruct (es !! n); [reflexivity | now destruct Hp].
Qed.

Lemma locked_without w d n : locked (without w d n) = locked w.
Proof. unfold without. now destruct (fs w !! d). Qed.

Lemma trace_without w d n : trace (without w d n) = trace w.
Proof. unfold without. now destruct (fs w !! d). Qed.

Lemma run_delete_marked d deleted n w :
  (d, n) ∉ locked w ->
  Validate.delete_marked d deleted (Some n) w
  = if bool_decide (present w d n)
    then (Ret (S deleted),
          after (without w d n)
                [RemoveFile d n; Log WARNING (MsgDeleted (Py.path_join2 d n))])
    else (Ret deleted, w).
Proof.
  intros Hl. unfold Validate.delete_marked.
  rewrite (run_bind_ret _ _ _ _ _ (run_path_exists _ _ _)).
  case_bool_decide as Hp; [|reflexivity].
  unfold bind at 1, try_ at 1.
  rewrite (run_bind_ret _ _ _ _ _ (run_remove _ _ _ Hl Hp)).
  rewrite run_log, after_after. reflexivity.
Qed.


Lemma run_foldM_delete d results :
  forall k w,
    (forall n, (d, n) ∉ locked w) ->
    exists k' w',
      Validate.foldM (Validate.delete_marked d) k results w = (Ret k', w')
      /\ swept d w k results k' w'.
Proof.
  induction results as [|[n|] results IH]; intros k w Hl.
  - exists k, w. split; [reflexivity|]. split; [reflexivity|]. split; [|split].
    + intros d' n. rewrite bool_decide_eq_false_2; [reflexivity|].
      intros [_ H]. now apply elem_of_nil in H.
    + lia.
    + exists []. now rewrite app_nil_r.
  - cbn [Validate.foldM]. unfold bind at 1. rewrite (run_delete_marked _ _ _ _ (Hl n)).
    case_bool_decide as Hp.
    + set (w1 := after (without w d n)
                   [RemoveFile d n; Log WARNING (MsgDeleted (Py.path_join2 d n))]).
      destruct (IH (S k) w1) as (k' & w' & Hrun & L & E & Hk & evs & T & A).
      { intros n'. unfold w1. cbn. rewrite locked_without. apply Hl. }
      exists k', w'. split; [exact Hrun|]. split; [|split; [|split]].
      * rewrite L. unfold w1. cbn. apply locked_without.
      * intros d' n'. rewrite E. unfold w1.
        change (entry (after ?x _) d' n') with (entry x d' n').
        rewrite entry_without.
        destruct (decide (d' = d /\ Some n' ∈ results)) as [Hin|Hin].
        -- rewrite bool_decide_eq_true_2 by exact Hin.
           rewrite bool_decide_eq_true_2; [reflexivity|].
           rewrite elem_of_cons. tauto.
        -- rewrite (bool_decide_eq_false_2 _ Hin).
           destruct (decide ((d, n) = (d', n'))) as [[= <- <-]|Hne].
           ++ rewrite bool_decide_eq_true_2 by reflexivity.
              rewrite bool_decide_eq_true_2; [reflexivity|].
              rewrite elem_of_cons. auto.
           ++ rewrite (bool_decide_eq_false_2 _ Hne).
              rewrite bool_decide_eq_false_2; [reflexivity|].
              rewrite elem_of_cons. intros [-> [[= ->]|Hr]]; [congruence | tauto].
      * lia.
      * exists ([RemoveFile d n; Log WARNING (MsgDeleted (Py.path_join2 d n))] ++ evs)%list.
        split.
        -- rewrite T. unfold w1. cbn. rewrite trace_without, <- app_assoc. reflexivity.
        -- rewrite forallb_app, A. reflexivity.
    + destruct (IH k w Hl) as (k' & w' & Hrun & L & E & Hk & evs & T & A).
      exists k', w'. split; [exact Hrun|]. split; [exact L|]. split; [|split].
      * intros d' n'. rewrite E.
        destruct (decide (d' = d /\ Some n' ∈ results)) as [Hin|Hin].
        -- rewrite bool_decide_eq_true_2 by exact Hin.
           rewrite bool_decide_eq_true_2; [reflexivity|].
           rewrite elem_of_cons. tauto.
        -- rewrite (bool_decide_eq_false_2 _ Hin).
           destruct (decide ((d, n) = (d', n'))) as [[= <- <-]|Hne].
           ++ rewrite bool_decide_eq_true_2 by (rewrite elem_of_cons; auto).
              unfold present in Hp. destruct (entry w d n); [|reflexivity].
              exfalso. apply Hp. eauto.
           ++ rewrite bool_decide_eq_false_2; [reflexivity|].
              rewrite elem_of_cons. intros [-> [[= ->]|Hr]]; [congruence | tauto].
      * exact Hk.
      * exists evs. auto.
  - cbn [Validate.foldM]. unfold bind at 1, Validate.delete_marked at 1, ret at 1.
    destruct (IH k w Hl) as (k' & w' & Hrun & L & E & Hk & evs & T & A).
    exists k', w'. split; [exact Hrun|]. split; [exact L|]. split; [|split].
    + intros d' n'. rewrite E.
      assert (bool_decide (d' = d /\ Some n' ∈ results)
              = bool_decide (d' = d /\ Some n' ∈ None :: results)) as ->; [|reflexivity].
      apply bool_decide_ext. rewrite elem_of_cons.
      split; [tauto|]. intros [Hd [Hin|Hin]]; [discriminate Hin | auto].
    + exact Hk.
    + exists evs. auto.
Qed.

Lemma listing_elem (entries : gmap string file) n :
  n ∈ map fst (map_to_list entries) <-> is_Some (entries !! n).
Proof.
  rewrite list_elem_of_In, in_map_iff. split.
  - intros ([n' f] & <- & Hin). apply list_elem_of_In, elem_of_map_to_list in Hin.
    cbn. eauto.
  - intros [f Hf]. exists (n, f). split; [reflexivity|].
    now apply list_elem_of_In, elem_of_map_to_list.
Qed.

Lemma marked_elem expected_bands w d names n :
  Some n ∈ map (verdict expected_bands w d) names
  <-> n ∈ names /\ shape_ok expected_bands (entry w d n) = false.
Proof.
  rewrite list_elem_of_In, in_map_iff. unfold verdict. split.
  - intros (n' & Hv & Hin). destruct (shape_ok expected_bands (entry w d n')) eqn:E;
      [discriminate Hv|]. injection Hv as ->. split; [now apply list_elem_of_In | exact E].
  - intros [Hin Hs]. exists n. rewrite Hs. split; [reflexivity | now apply list_elem_of_In].
Qed.

Lemma sorted_elem l n : n ∈ Validate.sorted l <-> n ∈ l.
Proof. unfold Validate.sorted. now rewrite merge_sort_Permutation. Qed.

Lemma run_isdir d w : isdir d w = (Ret (bool_decide (is_Some (fs w !! d))), w).
Proof. reflexivity. Qed.






(** ** A second run *)


Lemma quiet_refl w : quiet w w.
Proof. split; [apply extends_refl | split; reflexivity]. Qed.

Lemma quiet_trans w1 w2 w3 : quiet w1 w2 -> quiet w2 w3 -> quiet w1 w3.
Proof.
  intros (E1 & A1 & F1) (E2 & A2 & F2). split; [eapply extends_trans; eauto|].
  split; [congruence|]. intros d n. now rewrite F2, F1.
Qed.

Lemma quiet_after w evs : forallb no_fetch evs = true -> quiet w (after w evs).
Proof.
  intros H. split; [|split; reflexivity]. split; [reflexivity|]. now exists evs.
Qed.

Lemma quiet_with_dir w d : quiet w (with_dir w d).
Proof.
  split; [|split; [unfold with_dir; now destruct (fs w !! d)
                  |intros d' n; apply entry_with_dir]].
  split; [unfold with_dir; now destruct (fs w !! d)|].
  exists []. rewrite app_nil_r. split; [apply trace_with_dir | reflexivity].
Qed.

Lemma quiet_settled cfg size w w' c : quiet w w' -> settled cfg size w c -> settled cfg size w' c.
Proof.
  intros (_ & _ & F) (f & j & Hp & H). exists f, j. split; [|exact H].
  unfold present. now rewrite F.
Qed.

Lemma advances_refl w : advances w w.
Proof. split; [apply grows_refl|]. exists []. now rewrite app_nil_r. Qed.

Lemma advances_trans w1 w2 w3 : advances w1 w2 -> advances w2 w3 -> advances w1 w3.
Proof.
  intros [G1 (e1 & T1)] [G2 (e2 & T2)]. split; [eapply grows_trans; eauto|].
  exists (e1 ++ e2)%list. now rewrite T2, T1, app_assoc.
Qed.

Lemma since_app w w' evs : trace w' = (trace w ++ evs)%list -> since w w' = evs.
Proof. intros H. unfold since. rewrite H. apply drop_app_length. Qed.

(** Each item of a pool that returns was run, between the start and the end. *)
Lemma mapM_elem {A B} (R : world -> world -> Prop)
    (R_refl : forall w, R w w)
    (R_trans : forall w1 w2 w3, R w1 w2 -> R w2 w3 -> R w1 w3)
    (f : A -> M B) l :
  (forall x, preserves R (f x)) ->
  forall w rs w', mapM f l w = (Ret rs, w') ->
  length rs = length l
  /\ forall k x, l !! k = Some x ->
       exists r wa wb, rs !! k = Some r /\ f x wa = (Ret r, wb) /\ R w wa /\ R wb w'.
Proof.
  intros Hf. induction l as [|x l IH]; intros w rs w'; cbn [mapM].
  - intros H. inversion H; subst. split; [reflexivity|]. intros k x Hk. discriminate Hk.
  - intros (y & w1 & Hx & (ys & w2 & Hl & Hr)%bind_ret_inv)%bind_ret_inv.
    inversion Hr; subst. destruct (IH _ _ _ Hl) as [Hlen Hel].
    split; [cbn; now rewrite Hlen|].
    intros [|k] x' Hk.
    + inversion Hk; subst. exists y, w, w1. repeat split; auto.
      eapply preserves_mapM; eauto.
    + destruct (Hel k x' Hk) as (r & wa & wb & Hr' & Hrun & Ra & Rb).
      exists r, wa, wb. repeat split; auto.
      eapply R_trans; [|exact Ra]. eapply Hf; eauto.
Qed.

Lemma succeeded_all results :
  succeeded results = length results -> forall r, In r results -> exists outp, r = Some outp.
Proof.
  unfold succeeded. induction results as [|r results IH]; intros H r' Hin; [destruct Hin|].
  cbn in H. destruct r as [outp|].
  - cbn in H. destruct Hin as [<-|Hin]; [eauto|]. apply IH; [lia | exact Hin].
  - pose proof (List.filter_length_le
                  (fun r : option string => match r with Some _ => true | None => false end)
                  results). lia.
Qed.

Lemma parsed_indices names zs :
  parsed names = Some zs ->
  Forall2 (fun f z => Download.tile_index_of f = Some z) names zs.
Proof.
  revert zs. induction names as [|f names IH]; intros zs; cbn [parsed].
  - intros [= <-]. constructor.
  - destruct (Download.tile_index_of f) as [z|] eqn:E; [|discriminate].
    destruct (parsed names) as [zs'|]; [|discriminate].
    intros [= <-]. constructor; [exact E | now apply IH].
Qed.

Lemma entry_dir_entries w d n : entry w d n = dir_entries w d !! n.
Proof. unfold entry, dir_entries. now destruct (fs w !! d). Qed.

Lemma chunk_names_elem cfg w c f :
  In f (chunk_names cfg w c)
  <-> present w (out_dir cfg c) f /\ Download.is_artifact cfg f = true.
Proof.
  unfold chunk_names. rewrite List.filter_In, <- list_elem_of_In, listing_elem.
  unfold present. now rewrite entry_dir_entries.
Qed.

Lemma sorted_indices zs z : In z (merge_sort Z.le zs) <-> In z zs.
Proof. rewrite <- !list_elem_of_In. now rewrite merge_sort_Permutation. Qed.

(** Where the scan meets index [j], enumeration starts beyond [j]. *)
Lemma settled_start cfg size w c zs :
  settled cfg size w c ->
  parsed (chunk_names cfg w c) = Some zs ->
  Z.of_nat size <= Download.start_index (merge_sort Z.le zs).
Proof.
  intros (f & j & Hp & Ha & Hj & Hle) Hzs.
  assert (In f (chunk_names cfg w c)) as Hin by (apply chunk_names_elem; auto).
  destruct (Forall2_left _ _ _ _ (parsed_indices _ _ Hzs) Hin) as (z & Hz & Hfz).
  rewrite Hj in Hfz. injection Hfz as <-.
  apply sorted_indices in Hz.
  assert (merge_sort Z.le zs <> []) as Hne by (intros E; rewrite E in Hz; destruct Hz).
  destruct (start_index_spec _ Hne) as [_ Hub]. specialize (Hub j Hz). lia.
Qed.

Lemma all_params_nil grid start band_list chunk_name :
  Z.of_nat (length grid) <= start ->
  Download.all_params grid start band_list chunk_name = [].
Proof.
  intros H. unfold Download.all_params. rewrite seqZ_nil by lia. reflexivity.
Qed.

(** A settled chunk gives the second run nothing to do. *)
Lemma process_chunk_settled cfg grid chunk_name band_list w r w' :
  settled cfg (length grid) w chunk_name ->
  Download.process_chunk cfg grid (chunk_name, band_list) w = (r, w') ->
  quiet w w'.
Proof.
  intros Hs. rewrite run_process_chunk.
  assert (quiet w (with_dir (after w [Log INFO (MsgStartChunk chunk_name band_list)])
                            (out_dir cfg chunk_name))) as Hq.
  { eapply quiet_trans; [|apply quiet_with_dir]. now apply quiet_after. }
  destruct (parsed (chunk_names cfg w chunk_name)) as [zs|] eqn:Hzs.
  - cbv zeta. rewrite all_params_nil by (eapply settled_start; eauto).
    cbn [mapM]. unfold bind at 1, ret at 1. rewrite run_log. intros [= <- <-].
    eapply quiet_trans; [exact Hq | apply quiet_after; reflexivity].
  - intros [= <- <-]. exact Hq.
Qed.

Lemma features_get_nil i : Download.features_get [] i = Download.unevaluable.
Proof.
  unfold Download.features_get. cbv zeta.
  destruct (_ <? 0); [reflexivity|]. now rewrite lookup_nil.
Qed.

Lemma mapM_unevaluable cfg band_list chunk_name l w r w' :
  mapM (Download.check_and_download cfg)
       (map (fun i => (i, Download.unevaluable, band_list, chunk_name)) l) w = (r, w') ->
  quiet w w'.
Proof.
  destruct l as [|i l]; cbn [map mapM].
  - intros [= <- <-]. apply quiet_refl.
  - rewrite (run_bind_raise _ _ _ _ _
               (check_and_download_unresolved cfg i Download.unevaluable band_list
                  chunk_name w eq_refl)).
    intros [= <- <-]. now apply quiet_after.
Qed.

(** Without tiles every item fails at its centroid, before any fetch. *)
Lemma process_chunk_no_tiles cfg chunk_name band_list w r w' :
  Download.process_chunk cfg [] (chunk_name, band_list) w = (r, w') ->
  quiet w w'.
Proof.
  rewrite run_process_chunk.
  assert (quiet w (with_dir (after w [Log INFO (MsgStartChunk chunk_name band_list)])
                            (out_dir cfg chunk_name))) as Hq.
  { eapply quiet_trans; [|apply quiet_with_dir]. now apply quiet_after. }
  destruct (parsed (chunk_names cfg w chunk_name)) as [zs|].
  - cbv zeta. unfold Download.all_params.
    rewrite (List.map_ext _ (fun i => (i, Download.unevaluable, band_list, chunk_name)))
      by (intros i; now rewrite features_get_nil).
    intros [(results & w1 & Hrun & Hlog)|(e & Hrun & _)]%bind_inv.
    + rewrite run_log in Hlog. injection Hlog as <- <-.
      eapply quiet_trans; [exact Hq|].
      eapply quiet_trans; [eapply mapM_unevaluable; exact Hrun | now apply quiet_after].
    + eapply quiet_trans; [exact Hq | eapply mapM_unevaluable; exact Hrun].
  - intros [= <- <-]. exact Hq.
Qed.

Lemma process_chunk_second_run cfg grid chunk w r w' :
  (grid <> [] -> settled cfg (length grid) w (fst chunk)) ->
  Download.process_chunk cfg grid chunk w = (r, w') ->
  quiet w w'.
Proof.
  destruct chunk as [chunk_name band_list]. destruct grid as [|t grid].
  - intros _. apply process_chunk_no_tiles.
  - intros Hs. apply process_chunk_settled. now apply Hs.
Qed.

Lemma chunks_second_run cfg grid chunks w r w' :
  (grid <> [] -> forall chunk, In chunk chunks -> settled cfg (length grid) w (fst chunk)) ->
  forM_ chunks (Download.process_chunk cfg grid) w = (r, w') ->
  quiet w w'.
Proof.
  revert w. induction chunks as [|chunk chunks IH]; intros w Hs; cbn [forM_].
  - intros [= <- <-]. apply quiet_refl.
  - intros [(u & w1 & Hrun & Hrest)|(e & Hrun & _)]%bind_inv.
    + assert (quiet w w1) as Hq.
      { eapply process_chunk_second_run; [|exact Hrun].
        intros Hg. apply Hs; [exact Hg | now left]. }
      eapply quiet_trans; [exact Hq|]. eapply IH; [|exact Hrest].
      intros Hg c Hc. eapply quiet_settled; [exact Hq|]. apply Hs; [exact Hg | now right].
    + eapply process_chunk_second_run; [|exact Hrun].
      intros Hg. apply Hs; [exact Hg | now left].
Qed.

(** ** The first run *)

Lemma check_and_download_advances cfg params :
  preserves advances (Download.check_and_download cfg params).
Proof.
  destruct params as [[[i feat] band_list] chunk_name]. intros w r w' Hrun.
  destruct (check_and_download_cases _ _ _ _ _ _ _ _ Hrun) as [G (evs & T & _)].
  split; [exact G|]. eauto.
Qed.

Lemma check_and_download_done cfg i feat band_list chunk_name w outp w' :
  Download.check_and_download cfg (i, feat, band_list, chunk_name) w = (Ret (Some outp), w') ->
  exists epsg, present w' (out_dir cfg chunk_name) (filename cfg epsg chunk_name i).
Proof.
  intros Hrun.
  destruct (check_and_download_cases _ _ _ _ _ _ _ _ Hrun)
    as [_ (evs & _ & lon & lat & _ & _ & _ & Hs)].
  destruct Hs as (pre & k & c & px & _ & _ & _ & _ & E & _).
  exists (Download.epsg_code lon lat). eexists. exact E.
Qed.

Lemma lookup_map {A B} (f : A -> B) l k : map f l !! k = f <$> l !! k.
Proof. apply (list_lookup_fmap f l k). Qed.

Lemma all_params_last grid start band_list chunk_name :
  start < Z.of_nat (length grid) ->
  exists k feat,
    Download.all_params grid start band_list chunk_name !! k
    = Some (Z.of_nat (length grid) - 1, feat, band_list, chunk_name).
Proof.
  intros H. exists (Z.to_nat (Z.of_nat (length grid) - start - 1)).
  exists (Download.features_get grid (Z.of_nat (length grid) - 1)).
  unfold Download.all_params. rewrite lookup_map.
  rewrite (proj2 (lookup_seqZ start _ _ (Z.of_nat (length grid) - 1))) by lia.
  reflexivity.
Qed.

Lemma advances_present w w' d n : advances w w' -> present w d n -> present w' d n.
Proof. intros [(_ & _ & _ & P) _]. apply P. Qed.

(** After a chunk whose tally is full, the directory holds the last tile or
    one beyond it: the one the scan started from, or the one just fetched. *)
Lemma process_chunk_first_run cfg grid chunk_name band_list w w' :
  grid <> [] ->
  Download.process_chunk cfg grid (chunk_name, band_list) w = (Ret tt, w') ->
  advances w w'
  /\ (forallb full_tally (since w w') = true -> settled cfg (length grid) w' chunk_name).
Proof.
  intros Hg. rewrite run_process_chunk.
  destruct (parsed (chunk_names cfg w chunk_name)) as [zs|] eqn:Hzs; [|discriminate].
  cbv zeta.
  set (start := Download.start_index (merge_sort Z.le zs)).
  set (params := Download.all_params grid start band_list chunk_name).
  set (w1 := with_dir (after w [Log INFO (MsgStartChunk chunk_name band_list)])
                      (out_dir cfg chunk_name)).
  intros (results & wm & Hrun & Hlog)%bind_ret_inv.
  rewrite run_log in Hlog. injection Hlog as <-.
  assert (advances w w1) as A1.
  { split.
    - eapply grows_trans; [apply grows_after | apply grows_with_dir].
    - eexists. unfold w1. rewrite trace_with_dir. reflexivity. }
  destruct (mapM_elem advances advances_refl advances_trans _ params
              (check_and_download_advances cfg) _ _ _ Hrun) as [Hlen Hel].
  assert (advances w1 wm) as Am.
  { eapply (preserves_mapM advances advances_refl advances_trans); [|exact Hrun].
    apply check_and_download_advances. }
  assert (advances wm (after wm [Log INFO (MsgChunkTally chunk_name (succeeded results)
                                                          (length params))])) as At.
  { split; [apply grows_after | eexists; reflexivity]. }
  split; [eapply advances_trans; [exact A1 | eapply advances_trans; eauto]|].
  intros Hfull.
  assert (succeeded results = length results) as Hall.
  { destruct Am as [_ (evs & Tm)].
    rewrite (since_app w _ ([Log INFO (MsgStartChunk chunk_name band_list)] ++ evs
                            ++ [Log INFO (MsgChunkTally chunk_name (succeeded results)
                                                        (length params))])) in Hfull.
    - rewrite !forallb_app in Hfull. cbn in Hfull.
      destruct (forallb full_tally evs); [|discriminate].
      rewrite andb_true_r in Hfull. apply Nat.eqb_eq in Hfull. congruence.
    - cbn [after trace]. rewrite Tm. unfold w1. rewrite trace_with_dir. cbn [after trace].
      now rewrite <- !app_assoc. }
  destruct (Z_lt_le_dec start (Z.of_nat (length grid))) as [Hlt|Hge].
  - destruct (all_params_last grid start band_list chunk_name Hlt) as (k & feat & Hk).
    destruct (Hel k _ Hk) as (r & wa & wb & Hr & Hwork & _ & Ab).
    destruct (succeeded_all results Hall r) as [outp ->].
    { apply list_elem_of_In. eapply list_elem_of_lookup_2. exact Hr. }
    destruct (check_and_download_done _ _ _ _ _ _ _ _ Hwork) as [epsg Hp].
    exists (filename cfg epsg chunk_name (Z.of_nat (length grid) - 1)),
           (Z.of_nat (length grid) - 1).
    split; [|split; [|split]].
    + eapply advances_present; [exact At|]. eapply advances_present; [exact Ab | exact Hp].
    + apply is_artifact_filename.
    + apply tile_index_of_filename.
    + lia.
  - assert (merge_sort Z.le zs <> []) as Hne.
    { intros E. unfold start in Hge. rewrite E in Hge. cbn in Hge.
      destruct grid; [congruence | cbn in Hge; lia]. }
    destruct (start_index_spec _ Hne) as [Hin _]. fold start in Hin.
    apply (proj1 (sorted_indices _ _)) in Hin.
    destruct (Forall2_right _ _ _ _ (parsed_indices _ _ Hzs) Hin) as (f & Hf & Hj).
    apply chunk_names_elem in Hf as [Hp Ha].
    exists f, (start - 1). split; [|split; [|split]]; [|exact Ha|exact Hj|lia].
    eapply advances_present; [exact At|]. eapply advances_present; [exact Am|].
    eapply advances_present; [exact A1 | exact Hp].
Qed.

Lemma advances_settled cfg size w w' c :
  advances w w' -> settled cfg size w c -> settled cfg size w' c.
Proof.
  intros A (f & j & Hp & H). exists f, j. split; [|exact H].
  eapply advances_present; eauto.
Qed.

Lemma since_advances w1 w2 w3 :
  advances w1 w2 -> advances w2 w3 -> since w1 w3 = (since w1 w2 ++ since w2 w3)%list.
Proof.
  intros [_ (e1 & T1)] [_ (e2 & T2)].
  rewrite (since_app _ _ _ T1), (since_app _ _ _ T2).
  apply since_app. now rewrite T2, T1, app_assoc.
Qed.

Lemma chunks_first_run cfg grid chunks w w' :
  grid <> [] ->
  forM_ chunks (Download.process_chunk cfg grid) w = (Ret tt, w') ->
  advances w w'
  /\ (forallb full_tally (since w w') = true ->
      forall chunk, In chunk chunks -> settled cfg (length grid) w' (fst chunk)).
Proof.
  intros Hg. revert w. induction chunks as [|[chunk_name band_list] chunks IH]; intros w;
    cbn [forM_].
  - intros [= <-]. split; [apply advances_refl|]. intros _ c [].
  - intros ([] & w1 & Hrun & Hrest)%bind_ret_inv.
    destruct (process_chunk_first_run _ _ _ _ _ _ Hg Hrun) as [A1 S1].
    destruct (IH _ Hrest) as [A2 S2].
    split; [eapply advances_trans; eauto|].
    rewrite (since_advances _ _ _ A1 A2), forallb_app.
    intros [F1 F2]%andb_prop c [<-|Hc].
    + eapply advances_settled; [exact A2 | now apply S1].
    + now apply S2.
Qed.

Lemma no_fetch_filter evs : forallb no_fetch evs = true -> List.filter is_fetch evs = [].
Proof.
  induction evs as [|e evs IH]; [reflexivity|]. cbn. unfold no_fetch at 1.
  destruct (is_fetch e); [discriminate|]. exact IH.
Qed.

(** [download.py] run again after a run in which every item of every
    chunk was fetched. *)
Lemma download_second_run cfg grid grid' w0 w1 w1' r2 w2 :
  Download.main cfg grid w0 = (Ret tt, w1) ->
  forallb full_tally (since w0 w1) = true ->
  (forall d n, present w1 d n -> present w1' d n) ->
  length grid' = length grid ->
  Download.main cfg grid' w1' = (r2, w2) ->
  quiet w1' w2.
Proof.
  unfold Download.main. intros Hrun1 Hfull Hkept Hlen Hrun2.
  rewrite (run_bind_ret _ _ _ _ _ (run_log _ _ _)) in Hrun1.
  rewrite (run_bind_ret _ _ _ _ _ (run_log _ _ _)) in Hrun2.
  eapply quiet_trans; [apply (quiet_after w1' [Log INFO MsgLoadingGrid]); reflexivity|].
  eapply chunks_second_run; [|exact Hrun2].
  intros Hg' chunk Hc. rewrite Hlen.
  assert (grid <> []) as Hg by (destruct grid, grid'; cbn in Hlen; congruence).
  destruct (chunks_first_run _ _ _ _ _ Hg Hrun1) as [A1 S1].
  assert (advances w0 (after w0 [Log INFO MsgLoadingGrid])) as A0.
  { split; [apply grows_after | eexists; reflexivity]. }
  rewrite (since_advances _ _ _ A0 A1), forallb_app in Hfull.
  apply andb_prop in Hfull as [_ Hfull].
  destruct (S1 Hfull chunk Hc) as (f & j & Hp & H).
  exists f, j. split; [|exact H]. change (present (after w1' ?e) ?d ?n) with (present w1' d n).
  now apply Hkept.
Qed.

(** ** A second run of the zone pipeline *)


Lemma quiet_fetched cfg w w' epsg aid : quiet w w' -> fetched cfg w epsg aid -> fetched cfg w' epsg aid.
Proof.
  intros (_ & A & F) (lst & Hl & Hp). exists lst. split; [now rewrite A|].
  intros chunk idx Hc Hi. unfold present. rewrite F. now apply Hp.
Qed.

Lemma quiet_present w w' d n : quiet w w' -> present w d n -> present w' d n.
Proof. intros (_ & _ & F). unfold present. now rewrite F. Qed.

(** A worker of the zone pipeline that finds its artifact fetches nothing. *)
Lemma download_images_quiet cfg feat idx epsg band_list chunk_name w r w' :
  present w (out_dir cfg chunk_name) (filename cfg epsg chunk_name idx) ->
  GeeEmbeddingDownload.download_images cfg (feat, idx, epsg, band_list, chunk_name) w = (r, w') ->
  quiet w w'.
Proof.
  intros Hp. destruct (transform_ok feat) eqn:Ht; [destruct (image_ok feat) eqn:Him|].
  - rewrite (download_images_present _ _ _ _ _ _ _ Ht Him Hp).
    intros [= <- <-]. apply quiet_refl.
  - unfold GeeEmbeddingDownload.download_images. rewrite Ht, Him.
    unfold bind at 1, ret at 1. unfold bind at 1, try_ at 1, raise at 1. cbn [is_Exception].
    rewrite (run_bind_ret _ _ _ _ _ (run_log _ _ _)).
    intros [= <- <-]. now apply quiet_after.
  - unfold GeeEmbeddingDownload.download_images. rewrite Ht.
    unfold bind at 1, raise at 1. intros [= <- <-]. apply quiet_refl.
Qed.

Lemma pool_quiet cfg epsg band_list chunk_name lst :
  forall (g : nat -> Z) w r w',
  (forall k, (k < length lst)%nat ->
             present w (out_dir cfg chunk_name) (filename cfg epsg chunk_name (g k))) ->
  mapM (GeeEmbeddingDownload.download_images cfg)
       (imap (fun i feat => (feat, g i, epsg, band_list, chunk_name)) lst) w = (r, w') ->
  quiet w w'.
Proof.
  induction lst as [|feat lst IH]; intros g w r w' Hp; cbn [imap mapM].
  - intros [= <- <-]. apply quiet_refl.
  - intros [(y & w1 & Hrun & Hrest)|(e & Hrun & _)]%bind_inv.
    + assert (quiet w w1) as Hq.
      { eapply download_images_quiet; [|exact Hrun]. apply Hp. cbn. lia. }
      apply bind_inv in Hrest as [(ys & w2 & Hrest & [= <- <-])|(e & Hrest & _)].
      * eapply quiet_trans; [exact Hq|].
        eapply (IH (fun i => g (S i))); [|exact Hrest].
        intros k Hk. eapply quiet_present; [exact Hq|]. apply Hp. cbn. lia.
      * eapply quiet_trans; [exact Hq|].
        eapply (IH (fun i => g (S i))); [|exact Hrest].
        intros k Hk. eapply quiet_present; [exact Hq|]. apply Hp. cbn. lia.
    + eapply download_images_quiet; [|exact Hrun]. apply Hp. cbn. lia.
Qed.

Lemma process_zone_quiet cfg chunk zone epsg crs aid w r w' :
  In chunk GeeEmbeddingDownload.CHUNKS ->
  fetched cfg w epsg aid ->
  GeeEmbeddingDownload.process_zone cfg chunk (zone, epsg, crs, aid) w = (r, w') ->
  quiet w w'.
Proof.
  intros Hc (lst & Hl & Hp). destruct chunk as [chunk_name band_list].
  unfold GeeEmbeddingDownload.process_zone.
  unfold bind at 1, GeeEmbeddingDownload.asset_features at 1. rewrite Hl.
  rewrite (run_bind_ret _ _ _ _ _ (run_log _ _ _)).
  set (w1 := after w _).
  assert (quiet w w1) as Hq by (now apply quiet_after).
  assert (forall k, (k < length lst)%nat ->
            present w1 (out_dir cfg chunk_name) (filename cfg epsg chunk_name (Z.of_nat k)))
    as Hp1 by (intros k Hk; apply (Hp (chunk_name, band_list) k Hc Hk)).
  intros [(results & w2 & Hrun & Hlog)|(e & Hrun & _)]%bind_inv.
  - rewrite run_log in Hlog. injection Hlog as <- <-.
    eapply quiet_trans; [exact Hq|].
    eapply quiet_trans; [eapply pool_quiet; [exact Hp1 | exact Hrun] | now apply quiet_after].
  - eapply quiet_trans; [exact Hq | eapply pool_quiet; [exact Hp1 | exact Hrun]].
Qed.

(** A zone that is provisioned is not exported again. *)
Lemma export_zone_quiet cfg z w r w' :
  zone_fetched cfg w z ->
  GeeEmbeddingDownload.export_zone cfg z w = (r, w') ->
  quiet w w' /\ forall e, r = Ret (Some e) -> entry_fetched cfg w e.
Proof.
  intros Hz. unfold GeeEmbeddingDownload.export_zone.
  destruct (area z) as [a|] eqn:Ha.
  2:{ rewrite (run_bind_ret _ _ _ _ _ (run_log _ _ _)). intros [= <- <-].
      split; [now apply quiet_after | discriminate]. }
  destruct (Qeq_bool a 0) eqn:Hzero.
  { intros [= <- <-]. split; [apply quiet_refl | discriminate]. }
  destruct (GeeEmbeddingDownload.utm_epsg (zone_number z) (SOUTH cfg)) as [epsg|] eqn:He.
  2:{ intros [= <- <-]. split; [apply quiet_refl | discriminate]. }
  assert (fetched cfg w epsg (zone_asset cfg (zone_number z))) as Hf.
  { apply Hz; [|exact He]. unfold barren. now rewrite Ha. }
  fold (zone_asset cfg (zone_number z)).
  unfold bind at 1, GeeEmbeddingDownload.asset_exists at 1.
  destruct Hf as (lst & Hl & Hp).
  rewrite bool_decide_eq_true_2 by (rewrite Hl; eauto).
  rewrite (run_bind_ret _ _ _ _ _ (run_log _ _ _)).
  intros [= <- <-]. split; [now apply quiet_after|].
  intros e [= <-]. exists lst. auto.
Qed.

Lemma export_zones_quiet cfg zones :
  forall w r w',
  (forall z, In z zones -> zone_fetched cfg w z) ->
  mapM (GeeEmbeddingDownload.export_zone cfg) zones w = (r, w') ->
  quiet w w'
  /\ forall found, r = Ret found -> Forall (entry_fetched cfg w) (omap id found).
Proof.
  assert (forall w w' z, quiet w w' -> zone_fetched cfg w z -> zone_fetched cfg w' z) as Hkeep.
  { intros w w' z Hq Hz Hb epsg He. eapply quiet_fetched; [exact Hq | now apply Hz]. }
  induction zones as [|z zones IH]; intros w r w' Hz; cbn [mapM].
  - intros [= <- <-]. split; [apply quiet_refl|]. intros found [= <-]. constructor.
  - intros [(y & w1 & Hrun & Hrest)|(e & Hrun & ->)]%bind_inv.
    + destruct (export_zone_quiet _ _ _ _ _ (Hz z (or_introl eq_refl)) Hrun) as [Hq Hy].
      assert (forall z', In z' zones -> zone_fetched cfg w1 z') as Hz1.
      { intros z' Hin. eapply Hkeep; [exact Hq|]. apply Hz. now right. }
      apply bind_inv in Hrest as [(ys & w2 & Hrest & [= <- <-])|(e & Hrest & ->)].
      * destruct (IH _ _ _ Hz1 Hrest) as [Hq' Hys].
        split; [eapply quiet_trans; eauto|]. intros found [= <-].
        assert (Forall (entry_fetched cfg w) (omap id ys)) as Hall.
        { eapply List.Forall_impl; [|apply (Hys ys eq_refl)].
          intros [[[zone epsg] crs] aid] (lst & Hl & Hp).
          destruct Hq as (_ & A & F). exists lst. split; [now rewrite <- A|].
          intros chunk idx Hc Hi. unfold present. rewrite <- F. now apply Hp. }
        destruct y as [e|]; cbn; [|exact Hall].
        constructor; [now apply Hy | exact Hall].
      * destruct (IH _ _ _ Hz1 Hrest) as [Hq' _].
        split; [eapply quiet_trans; eauto | discriminate].
    + destruct (export_zone_quiet _ _ _ _ _ (Hz z (or_introl eq_refl)) Hrun) as [Hq _].
      split; [exact Hq | discriminate].
Qed.

Lemma zones_quiet cfg chunk zone_info :
  In chunk GeeEmbeddingDownload.CHUNKS ->
  forall w r w',
  Forall (entry_fetched cfg w) zone_info ->
  forM_ zone_info (GeeEmbeddingDownload.process_zone cfg chunk) w = (r, w') ->
  quiet w w'.
Proof.
  intros Hc. induction zone_info as [|[[[zone epsg] crs] aid] zone_info IH];
    intros w r w' Hall; cbn [forM_].
  - intros [= <- <-]. apply quiet_refl.
  - apply List.Forall_cons_iff in Hall as [He Hall].
    intros [(u & w1 & Hrun & Hrest)|(e & Hrun & _)]%bind_inv.
    + assert (quiet w w1) as Hq by (eapply process_zone_quiet; eauto).
      eapply quiet_trans; [exact Hq|]. eapply IH; [|exact Hrest].
      eapply List.Forall_impl; [|exact Hall].
      intros [[[zone' epsg'] crs'] aid']. apply quiet_fetched, Hq.
    + eapply process_zone_quiet; eauto.
Qed.

Lemma gee_chunks_quiet cfg zone_info chunks :
  (forall chunk, In chunk chunks -> In chunk GeeEmbeddingDownload.CHUNKS) ->
  forall w r w',
  Forall (entry_fetched cfg w) zone_info ->
  forM_ chunks (fun chunk =>
    log INFO (MsgStartChunk (fst chunk) (snd chunk)) ;;
    forM_ zone_info (GeeEmbeddingDownload.process_zone cfg chunk)) w = (r, w') ->
  quiet w w'.
Proof.
  assert (forall w w', quiet w w' -> Forall (entry_fetched cfg w) zone_info ->
                       Forall (entry_fetched cfg w') zone_info) as Hkeep.
  { intros w w' Hq. apply List.Forall_impl.
    intros [[[zone epsg] crs] aid]. apply quiet_fetched, Hq. }
  induction chunks as [|chunk chunks IH]; intros Hsub w r w' Hall; cbn [forM_].
  - intros [= <- <-]. apply quiet_refl.
  - assert (quiet w (after w [Log INFO (MsgStartChunk (fst chunk) (snd chunk))])) as Hq0
      by (now apply quiet_after).
    intros [(u & w1 & Hrun & Hrest)|(e & Hrun & _)]%bind_inv;
      rewrite (run_bind_ret _ _ _ _ _ (run_log _ _ _)) in Hrun.
    + assert (quiet w w1) as Hq.
      { eapply quiet_trans; [exact Hq0|].
        eapply zones_quiet; [apply Hsub; now left | | exact Hrun]. eapply Hkeep; eauto. }
      eapply quiet_trans; [exact Hq|].
      eapply IH; [intros c Hin; apply Hsub; now right | | exact Hrest].
      eapply Hkeep; eauto.
    + eapply quiet_trans; [exact Hq0|].
      eapply zones_quiet; [apply Hsub; now left | | exact Hrun]. eapply Hkeep; eauto.
Qed.

(** [gee_embedding_download.py] run in a state where every zone that meets
    the country is provisioned and fetched. *)
Lemma gee_second_run cfg zones w r w' :
  (forall z, In z zones -> zone_fetched cfg w z) ->
  GeeEmbeddingDownload.main cfg zones w = (r, w') ->
  quiet w w'.
Proof.
  intros Hz. unfold GeeEmbeddingDownload.main, GeeEmbeddingDownload.export_zone_grids.
  assert (quiet w (after w [Log INFO MsgStartExport])) as Hq0 by (now apply quiet_after).
  assert (forall z, In z zones -> zone_fetched cfg (after w [Log INFO MsgStartExport]) z) as Hz0.
  { intros z Hin Hb epsg He. eapply quiet_fetched; [exact Hq0 | now apply Hz]. }
  intros [(zone_info & w1 & Hrun & Hrest)|(e & Hrun & _)]%bind_inv;
    rewrite (run_bind_ret _ _ _ _ _ (run_log _ _ _)) in Hrun;
    apply bind_inv in Hrun as [(found & w2 & Hexp & Hrun)|(e' & Hexp & Heq)];
    destruct (export_zones_quiet _ _ _ _ _ Hz0 Hexp) as [Hq1 Hall].
  - specialize (Hall found eq_refl).
    destruct (omap id found) as [|e0 rest] eqn:Ef.
    { rewrite (run_bind_ret _ _ _ _ _ (run_log _ _ _)) in Hrun. discriminate Hrun. }
    rewrite (run_bind_ret _ _ _ _ _ (run_log _ _ _)) in Hrun.
    injection Hrun as <- <-.
    eapply quiet_trans; [exact Hq0|]. eapply quiet_trans; [exact Hq1|].
    eapply quiet_trans; [apply (quiet_after w2 [Log INFO MsgExportDone]); reflexivity|].
    eapply gee_chunks_quiet; [intros c Hc; exact Hc | | exact Hrest].
    eapply List.Forall_impl; [|exact Hall].
    intros [[[zone epsg] crs] aid]. apply quiet_fetched.
    eapply quiet_trans; [exact Hq1 | now apply quiet_after].
  - discriminate Heq.
  - destruct (omap id found) as [|e0 rest].
    + rewrite (run_bind_ret _ _ _ _ _ (run_log _ _ _)) in Hrun.
      inversion Hrun; subst.
      eapply quiet_trans; [exact Hq0|]. eapply quiet_trans; [exact Hq1|]. now apply quiet_after.
    + rewrite (run_bind_ret _ _ _ _ _ (run_log _ _ _)) in Hrun. discriminate Hrun.
  - eapply quiet_trans; [exact Hq0 | exact Hq1].
Qed.

(** ** The first run of the zone pipeline *)

Lemma download_images_advances cfg params :
  preserves advances (GeeEmbeddingDownload.download_images cfg params).
Proof.
  destruct params as [[[[feat idx] epsg] band_list] chunk_name]. intros w r w' Hrun.
  destruct (download_images_cases _ _ _ _ _ _ _ _ _ Hrun) as [G (evs & T & _)].
  split; [exact G|]. eauto.
Qed.

Lemma download_images_done cfg feat idx epsg band_list chunk_name w outp w' :
  GeeEmbeddingDownload.download_images cfg (feat, idx, epsg, band_list, chunk_name) w
    = (Ret (Some outp), w') ->
  present w' (out_dir cfg chunk_name) (filename cfg epsg chunk_name idx).
Proof.
  intros Hrun.
  destruct (download_images_cases _ _ _ _ _ _ _ _ _ Hrun)
    as [(_ & _ & _ & P) (evs & _ & _ & [[Hp _]|[_ Hs]])].
  - now apply P.
  - destruct Hs as (pre & k & c & px & _ & _ & _ & _ & E & _). eexists. exact E.
Qed.

Lemma advances_assets w w' : advances w w' -> assets w' = assets w.
Proof. now intros [(_ & A & _) _]. Qed.

(** After a zone whose tally is full, every tile of its grid has its
    artifact in the directory of the chunk. *)
Lemma process_zone_first_run cfg chunk_name band_list zone epsg crs aid w w' :
  GeeEmbeddingDownload.process_zone cfg (chunk_name, band_list) (zone, epsg, crs, aid) w
    = (Ret tt, w') ->
  advances w w'
  /\ exists lst, assets w !! aid = Some lst
     /\ (forallb full_tally (since w w') = true ->
         forall idx, (idx < length lst)%nat ->
           present w' (out_dir cfg chunk_name) (filename cfg epsg chunk_name (Z.of_nat idx))).
Proof.
  unfold GeeEmbeddingDownload.process_zone.
  unfold bind at 1, GeeEmbeddingDownload.asset_features at 1.
  destruct (assets w !! aid) as [lst|]; [|discriminate].
  set (params := imap (fun i feat => (feat, Z.of_nat i, epsg, band_list, chunk_name)) lst).
  rewrite (run_bind_ret _ _ _ _ _ (run_log _ _ _)).
  set (w1 := after w _).
  intros (results & wm & Hrun & Hlog)%bind_ret_inv.
  rewrite run_log in Hlog. injection Hlog as <-.
  assert (advances w w1) as A1 by (split; [apply grows_after | eexists; reflexivity]).
  destruct (mapM_elem advances advances_refl advances_trans _ params
              (download_images_advances cfg) _ _ _ Hrun) as [Hlen Hel].
  assert (advances w1 wm) as Am.
  { eapply (preserves_mapM advances advances_refl advances_trans); [|exact Hrun].
    apply download_images_advances. }
  assert (advances wm (after wm [Log INFO (MsgZoneTally zone chunk_name (succeeded results)
                                                         (length params))])) as At.
  { split; [apply grows_after | eexists; reflexivity]. }
  split; [eapply advances_trans; [exact A1 | eapply advances_trans; eauto]|].
  exists lst. split; [reflexivity|]. intros Hfull idx Hidx.
  assert (succeeded results = length results) as Hall.
  { destruct Am as [_ (evs & Tm)].
    rewrite (since_app w _ ([Log INFO (MsgTotalTasks zone chunk_name (length params))] ++ evs
                            ++ [Log INFO (MsgZoneTally zone chunk_name (succeeded results)
                                                       (length params))])) in Hfull.
    - rewrite !forallb_app in Hfull. cbn in Hfull.
      destruct (forallb full_tally evs); [|discriminate].
      rewrite andb_true_r in Hfull. apply Nat.eqb_eq in Hfull. congruence.
    - cbn [after trace]. rewrite Tm. unfold w1. cbn [after trace].
      now rewrite <- !app_assoc. }
  destruct (lookup_lt_is_Some_2 lst idx Hidx) as [feat Hfeat].
  assert (params !! idx = Some (feat, Z.of_nat idx, epsg, band_list, chunk_name)) as Hk.
  { unfold params. rewrite list_lookup_imap, Hfeat. reflexivity. }
  destruct (Hel idx _ Hk) as (r & wa & wb & Hr & Hwork & _ & Ab).
  destruct (succeeded_all results Hall r) as [outp ->].
  { apply list_elem_of_In. eapply list_elem_of_lookup_2. exact Hr. }
  eapply advances_present; [exact At|]. eapply advances_present; [exact Ab|].
  eapply download_images_done. exact Hwork.
Qed.


Lemma advances_tiles_fetched cfg w w' c e :
  advances w w' -> tiles_fetched cfg w c e -> tiles_fetched cfg w' c e.
Proof.
  destruct e as [[[zone epsg] crs] aid]. intros A (lst & Hl & Hp).
  exists lst. split; [now rewrite (advances_assets _ _ A)|].
  intros idx Hi. eapply advances_present; [exact A | now apply Hp].
Qed.

Lemma zones_first_run cfg chunk_name band_list zone_info :
  forall w w',
  forM_ zone_info (GeeEmbeddingDownload.process_zone cfg (chunk_name, band_list)) w
    = (Ret tt, w') ->
  advances w w'
  /\ (forallb full_tally (since w w') = true ->
      forall e, In e zone_info -> tiles_fetched cfg w' chunk_name e).
Proof.
  induction zone_info as [|[[[zone epsg] crs] aid] zone_info IH]; intros w w'; cbn [forM_].
  - intros [= <-]. split; [apply advances_refl|]. intros _ e [].
  - intros ([] & w1 & Hrun & Hrest)%bind_ret_inv.
    destruct (process_zone_first_run _ _ _ _ _ _ _ _ _ Hrun) as [A1 (lst & Hl & S1)].
    destruct (IH _ _ Hrest) as [A2 S2].
    split; [eapply advances_trans; eauto|].
    rewrite (since_advances _ _ _ A1 A2), forallb_app.
    intros [F1 F2]%andb_prop e [<-|He].
    + eapply advances_tiles_fetched; [exact A2|].
      exists lst. split; [now rewrite (advances_assets _ _ A1) | now apply S1].
    + now apply S2.
Qed.

Lemma gee_chunks_first_run cfg zone_info chunks :
  forall w w',
  forM_ chunks (fun chunk =>
    log INFO (MsgStartChunk (fst chunk) (snd chunk)) ;;
    forM_ zone_info (GeeEmbeddingDownload.process_zone cfg chunk)) w = (Ret tt, w') ->
  advances w w'
  /\ (forallb full_tally (since w w') = true ->
      forall chunk e, In chunk chunks -> In e zone_info ->
                      tiles_fetched cfg w' (fst chunk) e).
Proof.
  induction chunks as [|[chunk_name band_list] chunks IH]; intros w w'; cbn [forM_].
  - intros [= <-]. split; [apply advances_refl|]. intros _ c e [].
  - intros ([] & w1 & Hrun & Hrest)%bind_ret_inv.
    rewrite (run_bind_ret _ _ _ _ _ (run_log _ _ _)) in Hrun. cbn [fst snd] in Hrun.
    assert (advances w (after w [Log INFO (MsgStartChunk chunk_name band_list)])) as A0.
    { split; [apply grows_after | eexists; reflexivity]. }
    destruct (zones_first_run _ _ _ _ _ _ Hrun) as [A1 S1].
    destruct (IH _ _ Hrest) as [A2 S2].
    split; [eapply advances_trans; [exact A0 | eapply advances_trans; eauto]|].
    rewrite (since_advances _ _ _ (advances_trans _ _ _ A0 A1) A2).
    rewrite (since_advances _ _ _ A0 A1), !forallb_app.
    intros [[_ F1]%andb_prop F2]%andb_prop chunk e [<-|Hc] He.
    + eapply advances_tiles_fetched; [exact A2 | now apply S1].
    + now apply S2.
Qed.

Lemma wait_for_export_extends zone polls :
  preserves (extends (fun _ => true)) (GeeEmbeddingDownload.wait_for_export zone polls).
Proof.
  induction polls as [|polls IH]; cbn [GeeEmbeddingDownload.wait_for_export].
  - apply keeps_ret.
  - apply keeps_bind; [now apply keeps_emit|]. intros _.
    apply keeps_bind; [now apply keeps_sleep|]. intros _. exact IH.
Qed.

Lemma export_zone_extends cfg z :
  preserves (extends (fun _ => true)) (GeeEmbeddingDownload.export_zone cfg z).
Proof.
  unfold GeeEmbeddingDownload.export_zone.
  destruct (area z) as [a|].
  2:{ apply keeps_bind; [now apply keeps_emit|]. intros _. apply keeps_ret. }
  destruct (Qeq_bool a 0); [apply keeps_ret|].
  destruct (GeeEmbeddingDownload.utm_epsg _ _) as [epsg|]; [|apply keeps_raise].
  apply keeps_bind.
  { intros w r w' H. inversion H; subst. apply extends_refl. }
  intros present. apply keeps_bind; [|intros _; apply keeps_ret].
  destruct present; [now apply keeps_emit|].
  apply keeps_bind; [now apply keeps_emit|]. intros _.
  apply keeps_bind; [|intros _; now apply keeps_emit].
  unfold GeeEmbeddingDownload.run_export.
  apply keeps_bind; [now apply keeps_emit|]. intros _.
  apply keeps_bind; [apply wait_for_export_extends|]. intros _.
  destruct (export_ok z); [|apply keeps_ret].
  intros w r w' H. inversion H; subst. split; [reflexivity|].
  exists []. cbn. now rewrite app_nil_r.
Qed.

Lemma export_zone_grids_extends cfg zones :
  preserves (extends (fun _ => true)) (GeeEmbeddingDownload.export_zone_grids cfg zones).
Proof.
  unfold GeeEmbeddingDownload.export_zone_grids.
  apply keeps_bind; [now apply keeps_emit|]. intros _.
  apply keeps_bind; [apply keeps_mapM; intros z; apply export_zone_extends|]. intros found.
  destruct (omap id found).
  - apply keeps_bind; [now apply keeps_emit|]. intros _. apply keeps_raise.
  - apply keeps_bind; [now apply keeps_emit|]. intros _. apply keeps_ret.
Qed.

(** A zone that meets the country and has a code is in the list of zones. *)
Lemma export_zone_entry cfg z w r w' :
  GeeEmbeddingDownload.export_zone cfg z w = (Ret r, w') ->
  barren z = false ->
  forall epsg, GeeEmbeddingDownload.utm_epsg (zone_number z) (SOUTH cfg) = Some epsg ->
  exists crs, r = Some (zone_number z, epsg, crs, zone_asset cfg (zone_number z)).
Proof.
  unfold GeeEmbeddingDownload.export_zone, barren.
  destruct (area z) as [a|]; [|discriminate].
  intros Hrun Hb epsg He. rewrite Hb, He in Hrun.
  apply bind_ret_inv in Hrun as (present & w1 & _ & Hrun).
  apply bind_ret_inv in Hrun as (u & w2 & _ & Hrun).
  injection Hrun as <- _. eexists. reflexivity.
Qed.

Lemma export_zones_entries cfg zones w found w' :
  mapM (GeeEmbeddingDownload.export_zone cfg) zones w = (Ret found, w') ->
  forall z, In z zones -> barren z = false ->
  forall epsg, GeeEmbeddingDownload.utm_epsg (zone_number z) (SOUTH cfg) = Some epsg ->
  exists crs, In (zone_number z, epsg, crs, zone_asset cfg (zone_number z)) (omap id found).
Proof.
  intros Hrun z Hz Hb epsg He.
  destruct (mapM_elem (fun _ _ => True) (fun _ => I) (fun _ _ _ _ _ => I) _ zones
              (fun x w r w' _ => I) _ _ _ Hrun) as [_ Hel].
  apply list_elem_of_In, list_elem_of_lookup_1 in Hz as [k Hk].
  destruct (Hel k z Hk) as (r & wa & wb & Hr & Hwork & _).
  destruct (export_zone_entry _ _ _ _ _ Hwork Hb epsg He) as [crs ->].
  exists crs. apply list_elem_of_In, list_elem_of_omap.
  exists (Some (zone_number z, epsg, crs, zone_asset cfg (zone_number z))).
  split; [eapply list_elem_of_lookup_2; exact Hr | reflexivity].
Qed.

(** After a run of the zone pipeline that returned with full tallies, every
    zone that meets the country is provisioned and fetched. *)
Lemma gee_first_run cfg zones w0 w1 :
  GeeEmbeddingDownload.main cfg zones w0 = (Ret tt, w1) ->
  forallb full_tally (since w0 w1) = true ->
  forall z, In z zones -> zone_fetched cfg w1 z.
Proof.
  unfold GeeEmbeddingDownload.main.
  intros (zone_info & wc & Hexp & Hdl)%bind_ret_inv Hfull z Hz Hb epsg He.
  destruct (export_zone_grids_extends _ _ _ _ _ Hexp) as (_ & evs1 & T1 & _).
  destruct (gee_chunks_first_run _ _ _ _ _ Hdl) as [A2 S2].
  assert (forallb full_tally (since wc w1) = true) as Hfull2.
  { destruct A2 as [_ (evs2 & T2)]. rewrite (since_app _ _ _ T2).
    rewrite (since_app w0 w1 (evs1 ++ evs2)) in Hfull
      by (now rewrite T2, T1, app_assoc).
    rewrite forallb_app in Hfull. now apply andb_prop in Hfull as [_ Hfull]. }
  assert (exists crs, In (zone_number z, epsg, crs, zone_asset cfg (zone_number z)) zone_info)
    as [crs He'].
  { unfold GeeEmbeddingDownload.export_zone_grids in Hexp.
    rewrite (run_bind_ret _ _ _ _ _ (run_log _ _ _)) in Hexp.
    apply bind_ret_inv in Hexp as (found & w2 & Hmap & Hexp).
    destruct (export_zones_entries _ _ _ _ _ Hmap z Hz Hb epsg He) as [crs Hin].
    exists crs. unfold GeeEmbeddingDownload.zone_entry in *. revert Hin Hexp.
    destruct (omap id found) as [|e0 rest]; intros Hin Hexp;
      [now apply in_nil in Hin|].
    rewrite (run_bind_ret _ _ _ _ _ (run_log _ _ _)) in Hexp.
    injection Hexp as <- _. exact Hin. }
  assert (In ("bands_01_22", take 22 GeeEmbeddingDownload.ALL_BANDS)
             GeeEmbeddingDownload.CHUNKS) as Hc0 by (now left).
  destruct (S2 Hfull2 _ _ Hc0 He') as (lst & Hl & _).
  exists lst. split; [exact Hl|]. intros chunk idx Hc Hi.
  destruct (S2 Hfull2 _ _ Hc He') as (lst' & Hl' & Hp').
  apply Hp'. rewrite Hl in Hl'. now injection Hl' as <-.
Qed.

(** [gee_embedding_download.py] run again after a run in which every item of
    every zone and chunk ended with its artifact. *)
Lemma gee_two_runs cfg zones w0 w1 w1' r2 w2 :
  GeeEmbeddingDownload.main cfg zones w0 = (Ret tt, w1) ->
  forallb full_tally (since w0 w1) = true ->
  (forall d n, present w1 d n -> present w1' d n) ->
  (forall aid lst, assets w1 !! aid = Some lst -> assets w1' !! aid = Some lst) ->
  GeeEmbeddingDownload.main cfg zones w1' = (r2, w2) ->
  quiet w1' w2.
Proof.
  intros Hrun1 Hfull Hfiles Hassets Hrun2.
  eapply gee_second_run; [|exact Hrun2].
  intros z Hz Hb epsg He.
  destruct (gee_first_run _ _ _ _ Hrun1 Hfull z Hz Hb epsg He) as (lst & Hl & Hp).
  exists lst. split; [now apply Hassets|]. intros chunk idx Hc Hi. now apply Hfiles, Hp.
Qed.

Lemma quiet_no_fetch w w' :
  quiet w w' ->
  trace w' = (trace w ++ since w w')%list
  /\ List.filter is_fetch (since w w') = []
  /\ forall d n, entry w' d n = entry w d n.
Proof.
  intros ((_ & evs & T & H) & _ & F). rewrite (since_app _ _ _ T).
  split; [exact T|]. split; [now apply no_fetch_filter | exact F].
Qed.

(** C4: a second run fetches nothing.  [download.py]: after a run that
    returned and whose tallies count every item handed to the pool as
    succeeded, a run on a grid of the same size, started in a state that
    still holds every file the first run left, only adds to the history,
    requests no download URL, issues no HTTP GET and writes no file, and
    every entry of the file system is as it was.  [gee_embedding_download.py]:
    the same holds of a run started in a state where every zone that meets
    the country has its grid asset and every tile of that grid has its
    artifact in the directory of every chunk. *)
Theorem C4_second_run_fetches_nothing cfg :
  (forall grid grid' w0 w1 w1' r2 w2,
      Download.main cfg grid w0 = (Ret tt, w1) ->
      forallb full_tally (since w0 w1) = true ->
      (forall d n, present w1 d n -> present w1' d n) ->
      length grid' = length grid ->
      Download.main cfg grid' w1' = (r2, w2) ->
      trace w2 = (trace w1' ++ since w1' w2)%list
      /\ List.filter is_fetch (since w1' w2) = []
      /\ forall d n, entry w2 d n = entry w1' d n)
  /\
  (forall zones w r w',
      (forall z, In z zones -> zone_fetched cfg w z) ->
      GeeEmbeddingDownload.main cfg zones w = (r, w') ->
      trace w' = (trace w ++ since w w')%list
      /\ List.filter is_fetch (since w w') = []
      /\ forall d n, entry w' d n = entry w d n).
Proof.
  split.
  - intros grid grid' w0 w1 w1' r2 w2 Hrun1 Hfull Hkept Hlen Hrun2.
    apply quiet_no_fetch. eapply download_second_run; eauto.
  - intros zones w r w' Hz Hrun. apply quiet_no_fetch. eapply gee_second_run; eauto.
Qed.

(** C4 at two sound tiles, both chunks fetched from an empty store. *)
Lemma C4_second_run_fetches_nothing_witness :
  let grid := [sound_tile; sound_tile] in
  let w1 := snd (Download.main sample_config grid empty_world) in
  let w2 := snd (Download.main sample_config grid w1) in
  length (List.filter is_fetch (since empty_world w1)) = 14%nat
  /\ List.filter is_fetch (since w1 w2) = []
  /\ forall d n, entry w2 d n = entry w1 d n.
Proof.
  intros grid w1 w2. split; [vm_compute; reflexivity|].
  refine (proj2 (proj1 (C4_second_run_fetches_nothing sample_config)
                   grid grid empty_world w1 w1
                   (fst (Download.main sample_config grid w1)) w2 _ _ _ _ _)).
  - vm_compute. reflexivity.
  - vm_compute. reflexivity.
  - intros d n H. exact H.
  - reflexivity.
  - apply surjective_pairing.
Defined.

(** ** What a worker leaves alone *)


Lemma apart_refl mine w : apart mine w w.
Proof. intros d n _. reflexivity. Qed.

Lemma apart_trans mine w1 w2 w3 : apart mine w1 w2 -> apart mine w2 w3 -> apart mine w1 w3.
Proof. intros H1 H2 d n Hm. now rewrite H2, H1. Qed.

Lemma apart_emit mine e : preserves (apart mine) (emit e).
Proof. intros w r w' H. inversion H; subst. intros d n _. reflexivity. Qed.

Lemma apart_log mine l m : preserves (apart mine) (log l m).
Proof. apply apart_emit. Qed.

Lemma apart_sleep mine x : preserves (apart mine) (sleep x).
Proof.
  unfold sleep. destruct (Qle_bool 0 x); [apply apart_emit|].
  apply preserves_raise, apart_refl.
Qed.

Lemma apart_makedirs mine d : preserves (apart mine) (makedirs d).
Proof.
  intros w r w'. rewrite run_makedirs. intros [= <- <-] d' n _. apply entry_with_dir.
Qed.

Lemma apart_path_exists mine d n : preserves (apart mine) (path_exists d n).
Proof. intros w r w'. rewrite run_path_exists. intros [= <- <-]. apply apart_refl. Qed.

Lemma apart_write_file mine d n c :
  mine d n = true -> preserves (apart mine) (write_file d n c).
Proof.
  intros Hm w r w'. rewrite run_write_file.
  destruct (bool_decide _); [intros [= <- <-]; apply apart_refl|].
  destruct (fs w !! d); intros [= <- <-]; [|apply apart_refl].
  intros d' n' Hk. change (entry (after ?x _) d' n') with (entry x d' n').
  apply entry_put_entry_ne. intros [= <- <-]. congruence.
Qed.

Lemma apart_tag_bands mine d n :
  mine d n = true -> preserves (apart mine) (tag_bands d n).
Proof.
  intros Hm w r w'. rewrite run_tag_bands.
  destruct (taggable (entry w d n)); intros [= <- <-]; [|apply apart_refl].
  intros d' n' Hk. change (entry (after ?x _) d' n') with (entry x d' n').
  apply entry_put_entry_ne. intros [= <- <-]. congruence.
Qed.

Lemma apart_download_attempt mine feat k i d n band_list :
  mine d n = true -> (i = 0 -> mine d manifest = true) ->
  preserves (apart mine) (download_attempt feat k i d n band_list).
Proof.
  intros Hn Hm. unfold download_attempt.
  pose proof (apart_refl mine) as Rr. pose proof (apart_trans mine) as Rt.
  apply preserves_bind; auto using apart_emit, apart_log. intros _.
  destruct (responses feat k) as [| | |p].
  - now apply preserves_raise.
  - apply preserves_bind; auto using apart_emit, apart_log. intros _. now apply preserves_raise.
  - apply preserves_bind; auto using apart_emit, apart_log. intros _. now apply preserves_raise.
  - apply preserves_bind; auto using apart_emit, apart_log. intros _.
    apply preserves_bind; auto using apart_write_file. intros _.
    apply preserves_bind; auto using apart_tag_bands. intros _.
    apply preserves_bind; [assumption| |intros _; now apply preserves_ret].
    destruct (Z.eqb_spec i 0) as [Hi|Hi]; [|now apply preserves_ret].
    apply apart_write_file. now apply Hm.
Qed.

Lemma apart_retry_loop mine cfg feat i d n band_list tile_index attempts :
  mine d n = true -> (i = 0 -> mine d manifest = true) ->
  preserves (apart mine)
    (retry_loop cfg (fun k => download_attempt feat k i d n band_list) tile_index attempts).
Proof.
  intros Hn Hm.
  pose proof (apart_refl mine) as Rr. pose proof (apart_trans mine) as Rt.
  induction attempts as [|k rest IH]; cbn [retry_loop]; [now apply preserves_ret|].
  apply preserves_bind; [assumption| |].
  - apply preserves_try. now apply apart_download_attempt.
  - intros [e|outp]; [|now apply preserves_ret].
    apply preserves_bind; auto using apart_emit, apart_log. intros _.
    apply preserves_bind; auto using apart_sleep.
Qed.

Lemma own_filename cfg chunk_name i epsg :
  own cfg chunk_name i (out_dir cfg chunk_name) (filename cfg epsg chunk_name i) = true.
Proof.
  unfold own. rewrite String.eqb_refl, is_artifact_filename.
  rewrite bool_decide_eq_true_2 by apply tile_index_of_filename.
  now rewrite orb_true_r.
Qed.

Lemma own_manifest cfg chunk_name :
  own cfg chunk_name 0 (out_dir cfg chunk_name) manifest = true.
Proof. unfold own. now rewrite !String.eqb_refl. Qed.

Lemma apart_check_and_download cfg i feat band_list chunk_name :
  preserves (apart (own cfg chunk_name i))
    (Download.check_and_download cfg (i, feat, band_list, chunk_name)).
Proof.
  set (mine := own cfg chunk_name i).
  pose proof (apart_refl mine) as Rr. pose proof (apart_trans mine) as Rt.
  unfold Download.check_and_download.
  apply preserves_bind; [assumption| |].
  { unfold Download.resolve_epsg. apply preserves_bind; auto using apart_emit, apart_log. intros _.
    destruct (centroid feat) as [[lon lat]|];
      [now apply preserves_ret | now apply preserves_raise]. }
  intros epsg. apply preserves_bind; auto using apart_makedirs. intros _.
  apply preserves_bind; auto using apart_path_exists. intros [|]; [now apply preserves_ret|].
  apply preserves_bind; [assumption| |].
  { apply preserves_try. unfold Download.get_embedding_image.
    destruct (_ && _); [now apply preserves_ret | now apply preserves_raise]. }
  intros [e|_].
  - apply preserves_bind; auto using apart_emit, apart_log. intros _. now apply preserves_ret.
  - apply preserves_bind; [assumption| |].
    + apply apart_retry_loop; [apply own_filename | intros ->; apply own_manifest].
    + intros [outp|]; [now apply preserves_ret|].
      apply preserves_bind; auto using apart_emit, apart_log. intros _. now apply preserves_ret.
Qed.

Lemma apart_download_images cfg idx feat epsg band_list chunk_name :
  preserves (apart (own cfg chunk_name idx))
    (GeeEmbeddingDownload.download_images cfg (feat, idx, epsg, band_list, chunk_name)).
Proof.
  set (mine := own cfg chunk_name idx).
  pose proof (apart_refl mine) as Rr. pose proof (apart_trans mine) as Rt.
  unfold GeeEmbeddingDownload.download_images.
  apply preserves_bind; [assumption| |].
  { destruct (transform_ok feat); [now apply preserves_ret | now apply preserves_raise]. }
  intros _. apply preserves_bind; [assumption| |].
  { apply preserves_try.
    destruct (image_ok feat); [now apply preserves_ret | now apply preserves_raise]. }
  intros [e|_].
  - apply preserves_bind; auto using apart_emit, apart_log. intros _. now apply preserves_ret.
  - apply preserves_bind; auto using apart_makedirs. intros _.
    apply preserves_bind; auto using apart_path_exists. intros [|]; [now apply preserves_ret|].
    apply preserves_bind; [assumption| |].
    + apply apart_retry_loop; [apply own_filename | intros ->; apply own_manifest].
    + intros [outp|]; [now apply preserves_ret|].
      apply preserves_bind; auto using apart_emit, apart_log. intros _. now apply preserves_ret.
Qed.

(** X1: a worker confines itself to its own tile.  Whatever it returns, and
    also when it raises, every entry of the file system other than an
    artifact of its tile index in its chunk directory and, for tile 0, the
    manifest of that directory is as before; and no entry that was there is
    removed. *)
Theorem worker_footprint cfg (i : Z) feat band_list chunk_name epsg w :
  (forall r w',
      Download.check_and_download cfg (i, feat, band_list, chunk_name) w = (r, w') ->
      (forall d n, own cfg chunk_name i d n = false -> entry w' d n = entry w d n)
      /\ (forall d n, present w d n -> present w' d n))
  /\
  (forall r w',
      GeeEmbeddingDownload.download_images cfg (feat, i, epsg, band_list, chunk_name) w
        = (r, w') ->
      (forall d n, own cfg chunk_name i d n = false -> entry w' d n = entry w d n)
      /\ (forall d n, present w d n -> present w' d n)).
Proof.
  split; intros r w' Hrun; split.
  - eapply apart_check_and_download; exact Hrun.
  - destruct (check_and_download_cases _ _ _ _ _ _ _ _ Hrun) as [(_ & _ & _ & P) _].
    exact P.
  - eapply apart_download_images; exact Hrun.
  - destruct (download_images_cases _ _ _ _ _ _ _ _ _ Hrun) as [(_ & _ & _ & P) _].
    exact P.
Qed.

(** ** Band descriptions *)


Lemma tagging_steps m (l : list (option string)) :
  let f := fun (ds : list (option string)) (bi : nat) =>
             <[(bi - 1)%nat := Some ("embedding_" ++ Py.str (Z.of_nat (bi - 2)))]> ds in
  length (foldl f l (seq 2 m)) = length l
  /\ forall k, foldl f l (seq 2 m) !! k
               = if decide ((1 <= k <= m)%nat /\ (k < length l)%nat)
                 then Some (Some ("embedding_" ++ Py.str (Z.of_nat (k - 1))))
                 else l !! k.
Proof.
  intros f. induction m as [|m [IHlen IH]].
  - split; [reflexivity|]. intros k. destruct (decide _) as [[? _]|_]; [lia | reflexivity].
  - rewrite seq_S, foldl_snoc. split.
    + unfold f at 1. now rewrite length_insert.
    + intros k. unfold f at 1. rewrite list_lookup_insert, IHlen, IH.
      replace (2 + m - 1)%nat with (S m) by lia.
      replace (2 + m - 2)%nat with m by lia.
      destruct (decide (S m = k /\ (S m < length l)%nat)) as [[<- Hl]|Hne].
      * destruct (decide _) as [_|Hn]; [|lia]. do 4 f_equal. lia.
      * destruct (decide ((1 <= k <= m)%nat /\ (k < length l)%nat)) as [Hk|Hk];
          destruct (decide ((1 <= k <= S m)%nat /\ (k < length l)%nat)) as [Hk'|Hk'];
          try reflexivity; lia.
Qed.

(** Tagging overwrites every description, whatever was there. *)
Lemma tagged_band_names count ds :
  length ds = count -> (0 < count)%nat -> tagged count ds = band_names count.
Proof.
  intros Hlen Hpos. unfold tagged.
  destruct (tagging_steps (count - 1) (<[0%nat := Some "wetland_label"]> ds)) as [Hl Hk].
  cbv zeta in Hl, Hk. rewrite length_insert in Hl, Hk.
  apply list_eq. intros k. rewrite Hk. unfold band_names.
  destruct k as [|k].
  - destruct (decide _) as [[? _]|_]; [lia|]. cbn. apply list_lookup_insert_eq. lia.
  - cbn [lookup list_lookup]. change (?l !! k) with (l !! k).
    destruct (decide _) as [[Hk1 Hk2]|Hn].
    + rewrite list_lookup_fmap, lookup_seq_lt by lia. cbn. do 4 f_equal. lia.
    + rewrite list_lookup_insert_ne by lia.
      rewrite list_lookup_fmap.
      rewrite (lookup_ge_None_2 ds) by lia.
      rewrite (lookup_ge_None_2 (seq 0 (count - 1))) by (rewrite length_seq; lia).
      reflexivity.
Qed.

Lemma loop_succeeded_shape cfg feat i d n band_list evs w' :
  loop_succeeded feat i d n band_list (seq 0 (MAX_RETRIES cfg)) evs w' ->
  exists k count px,
    (k < MAX_RETRIES cfg)%nat
    /\ responses feat k = Content (GeoTiff count px)
    /\ (0 < count)%nat
    /\ entry w' d n = Some (File (GeoTiff count px) (band_names count)).
Proof.
  intros (pre & k & c & px & Hk & Hr & _ & _ & E & _).
  exists k, (S c), px. apply in_seq in Hk.
  split; [lia|]. split; [exact Hr|]. split; [lia|].
  rewrite E. now rewrite tagged_band_names by (rewrite ?length_replicate; lia).
Qed.

(** X2: the artifact of an item that a worker returns as downloaded is the
    body of one of its [MAX_RETRIES] responses, a raster with at least one
    band; band 1 is described as [wetland_label] and band [b >= 2] as
    [embedding_{b-2}]. *)
Theorem fetched_artifact_tagged cfg (i : Z) feat band_list chunk_name epsg w outp w' :
  let dir := out_dir cfg chunk_name in
  (Download.check_and_download cfg (i, feat, band_list, chunk_name) w = (Ret (Some outp), w') ->
   exists lon lat k count px,
     centroid feat = Some (lon, lat)
     /\ outp = Py.path_join2 dir (filename cfg (Download.epsg_code lon lat) chunk_name i)
     /\ (k < MAX_RETRIES cfg)%nat
     /\ responses feat k = Content (GeoTiff count px)
     /\ (0 < count)%nat
     /\ entry w' dir (filename cfg (Download.epsg_code lon lat) chunk_name i)
        = Some (File (GeoTiff count px) (band_names count)))
  /\
  (~ present w dir (filename cfg epsg chunk_name i) ->
   GeeEmbeddingDownload.download_images cfg (feat, i, epsg, band_list, chunk_name) w
     = (Ret (Some outp), w') ->
   exists k count px,
     outp = Py.path_join2 dir (filename cfg epsg chunk_name i)
     /\ (k < MAX_RETRIES cfg)%nat
     /\ responses feat k = Content (GeoTiff count px)
     /\ (0 < count)%nat
     /\ entry w' dir (filename cfg epsg chunk_name i)
        = Some (File (GeoTiff count px) (band_names count))).
Proof.
  intros dir. split.
  - intros Hrun.
    destruct (check_and_download_cases _ _ _ _ _ _ _ _ Hrun)
      as [_ (evs & _ & lon & lat & Hc & Ho & _ & Hs)].
    destruct (loop_succeeded_shape _ _ _ _ _ _ _ _ Hs) as (k & count & px & H).
    exists lon, lat, k, count, px. auto.
  - intros Habsent Hrun.
    destruct (download_images_cases _ _ _ _ _ _ _ _ _ Hrun)
      as [_ (evs & _ & Ho & [[Hp _]|[_ Hs]])]; [contradiction|].
    destruct (loop_succeeded_shape _ _ _ _ _ _ _ _ Hs) as (k & count & px & H).
    exists k, count, px. auto.
Qed.

(** X2 at a sound tile: three bands, fetched at the first attempt. *)
Lemma fetched_artifact_tagged_witness :
  let run := Download.check_and_download sample_config (1, sound_tile, ["A01"; "A02"], "c1")
               empty_world in
  entry (snd run) (out_dir sample_config "c1") (filename sample_config 32632 "c1" 1)
  = Some (File (GeoTiff 3 7)
               [Some "wetland_label"; Some "embedding_0"; Some "embedding_1"]).
Proof.
  intros run.
  destruct (proj1 (fetched_artifact_tagged sample_config 1 sound_tile ["A01"; "A02"] "c1"
                     32632 empty_world
                     (Py.path_join2 (out_dir sample_config "c1")
                                    (filename sample_config 32632 "c1" 1))
                     (snd run)))
    as (lon & lat & k & count & px & Hc & _ & _ & Hr & _ & E).
  { vm_compute. reflexivity. }
  injection Hc as <- <-. injection Hr as <- <-. exact E.
Defined.

(** ** Waiting and printing *)













(** ** The validator as a whole *)


Lemma pruned_refl gone w : pruned gone w w.
Proof.
  split; [reflexivity|]. split; [reflexivity|]. split; [reflexivity|].
  split; [now left|]. exists []. now rewrite app_nil_r.
Qed.

Lemma pruned_after gone w evs : forallb is_sweep_event evs = true -> pruned gone w (after w evs).
Proof.
  intros H. split; [reflexivity|]. split; [reflexivity|]. split; [reflexivity|].
  split; [now left|]. now exists evs.
Qed.

(** Removals made one after the other, each judged on the world it found. *)
Lemma pruned_trans (gone1 gone2 gone : string -> string -> Prop) w1 w2 w3 :
  (forall d n, gone1 d n -> gone d n) ->
  (forall d n, entry w2 d n = entry w1 d n -> gone2 d n -> gone d n) ->
  pruned gone1 w1 w2 -> pruned gone2 w2 w3 -> pruned gone w1 w3.
Proof.
  intros H1 H2 (L1 & A1 & D1 & E1 & evs1 & T1 & S1) (L2 & A2 & D2 & E2 & evs2 & T2 & S2).
  split; [congruence|]. split; [congruence|]. split; [intros d; now rewrite D2, D1|].
  split.
  - intros d n. destruct (E2 d n) as [Heq|[Hg Hn]].
    + rewrite Heq. destruct (E1 d n) as [Heq1|[Hg1 Hn1]]; [now left|].
      right. split; [now apply H1 | exact Hn1].
    + destruct (E1 d n) as [Heq1|[Hg1 Hn1]].
      * right. split; [now apply (H2 d n) | exact Hn].
      * right. split; [now apply H1 | exact Hn].
  - exists (evs1 ++ evs2)%list. rewrite T2, T1, app_assoc, forallb_app, S1, S2. auto.
Qed.

Lemma dir_without w d n d' : is_Some (fs (without w d n) !! d') <-> is_Some (fs w !! d').
Proof.
  unfold without. destruct (fs w !! d) as [es|] eqn:Hes; [|reflexivity].
  cbn. destruct (decide (d = d')) as [<-|Hd].
  - rewrite lookup_insert_eq, Hes. split; eauto.
  - now rewrite lookup_insert_ne.
Qed.

Lemma assets_without w d n : assets (without w d n) = assets w.
Proof. unfold without. now destruct (fs w !! d). Qed.

Lemma run_remove_locked d n w : (d, n) ∈ locked w -> remove d n w = (Raise OSError, w).
Proof. intros Hl. unfold remove. now rewrite bool_decide_eq_true_2. Qed.

(** One step of the deletion loop, whatever the permissions: it returns. *)
Lemma delete_marked_any d deleted path w :
  exists k' w',
    Validate.delete_marked d deleted path w = (Ret k', w')
    /\ pruned (fun d' n => d' = d /\ path = Some n /\ present w d n) w w'.
Proof.
  destruct path as [n|]; [|exists deleted, w; split; [reflexivity | apply pruned_refl]].
  unfold Validate.delete_marked.
  rewrite (run_bind_ret _ _ _ _ _ (run_path_exists _ _ _)).
  case_bool_decide as Hp; [|exists deleted, w; split; [reflexivity | apply pruned_refl]].
  unfold bind at 1, try_ at 1.
  destruct (decide ((d, n) ∈ locked w)) as [Hl|Hl].
  - rewrite (run_bind_raise _ _ _ _ _ (run_remove_locked _ _ _ Hl)). cbn [is_Exception].
    rewrite (run_bind_ret _ _ _ _ _ (run_log _ _ _)).
    eexists _, _. split; [reflexivity|]. now apply pruned_after.
  - rewrite (run_bind_ret _ _ _ _ _ (run_remove _ _ _ Hl Hp)).
    rewrite run_log, after_after.
    eexists _, _. split; [reflexivity|].
    split; [apply locked_without|]. split; [apply assets_without|].
    split; [intros d'; apply dir_without|]. split.
    + intros d' n'. change (entry (after ?x _) d' n') with (entry x d' n').
      rewrite entry_without. case_bool_decide as Heq; [|now left].
      injection Heq as <- <-. right. auto.
    + eexists. split; [cbn; rewrite trace_without; reflexivity | reflexivity].
Qed.

Lemma foldM_delete_any d results :
  forall k w,
    exists k' w',
      Validate.foldM (Validate.delete_marked d) k results w = (Ret k', w')
      /\ pruned (fun d' n => d' = d /\ Some n ∈ results /\ present w d n) w w'.
Proof.
  induction results as [|path results IH]; intros k w.
  - exists k, w. split; [reflexivity | apply pruned_refl].
  - cbn [Validate.foldM].
    destruct (delete_marked_any d k path w) as (k1 & w1 & Hrun1 & P1).
    destruct (IH k1 w1) as (k' & w' & Hrun & P2).
    exists k', w'. split; [now rewrite (run_bind_ret _ _ _ _ _ Hrun1)|].
    eapply pruned_trans; [| |exact P1|exact P2].
    + intros d' n (-> & -> & Hp). rewrite elem_of_cons. auto.
    + intros d' n Heq (-> & Hin & Hp). rewrite elem_of_cons.
      split; [reflexivity|]. split; [auto|]. unfold present in *. now rewrite <- Heq.
Qed.

Lemma pruned_weaken (gone gone' : string -> string -> Prop) w w' :
  (forall d n, gone d n -> gone' d n) -> pruned gone w w' -> pruned gone' w w'.
Proof.
  intros H (L & A & D & E & T). split; [exact L|]. split; [exact A|]. split; [exact D|].
  split; [|exact T]. intros d n. destruct (E d n) as [Heq|[Hg Hn]]; [now left|].
  right. auto.
Qed.

(** The sweep of one chunk returns; what it removes are [.tif] entries of
    the chunk directory that fail the shape test. *)
Lemma sweep_chunk_any cfg chunk w :
  exists w',
    Validate.sweep_chunk cfg chunk w = (Ret tt, w')
    /\ pruned (fun d n =>
                 d = out_dir cfg (fst chunk)
                 /\ Py.endswith ".tif" n = true
                 /\ shape_ok (Validate.EXPECTED_LABEL_BANDS + length (snd chunk))
                             (entry w d n) = false) w w'.
Proof.
  destruct chunk as [chunk_name bands]. cbn [fst snd].
  unfold Validate.sweep_chunk.
  set (dir := out_dir cfg chunk_name).
  set (expected := (Validate.EXPECTED_LABEL_BANDS + length bands)%nat).
  rewrite (run_bind_ret _ _ _ _ _ (run_isdir _ _)).
  destruct (fs w !! dir) as [entries|] eqn:Hdir.
  2:{ rewrite bool_decide_eq_false_2 by (now intros [x Hx]). cbn [negb].
      eexists. split; [apply run_log | now apply pruned_after]. }
  rewrite bool_decide_eq_true_2 by eauto. cbn [negb].
  rewrite (run_bind_ret _ _ _ _ _ (run_listdir _ _ _ Hdir)).
  set (tif_files := Validate.sorted
                      (List.filter (Py.endswith ".tif") (map fst (map_to_list entries)))).
  rewrite (run_bind_ret _ _ _ _ _ (run_mapM_validate _ _ _ _)).
  destruct (foldM_delete_any dir (map (verdict expected w dir) tif_files) 0%nat w)
    as (k' & w1 & Hrun & P).
  rewrite (run_bind_ret _ _ _ _ _ Hrun).
  eexists. split; [apply run_log|].
  eapply pruned_trans; [| |exact P|apply (pruned_after (fun _ _ => False)); reflexivity].
  - intros d n (-> & Hin & _). apply marked_elem in Hin as [Hin Hs].
    apply sorted_elem, list_elem_of_In, List.filter_In in Hin as [_ Hsuffix]. auto.
  - intros d n _ [].
Qed.

(** ... and when nothing is locked, it removes all of them. *)
Lemma sweep_chunk_unlocked cfg chunk w :
  (forall d n, (d, n) ∉ locked w) ->
  forall w', Validate.sweep_chunk cfg chunk w = (Ret tt, w') -> clean cfg chunk w'.
Proof.
  intros Hl w'. destruct chunk as [chunk_name bands].
  unfold Validate.sweep_chunk, clean. cbn [fst snd].
  set (dir := out_dir cfg chunk_name).
  set (expected := (Validate.EXPECTED_LABEL_BANDS + length bands)%nat).
  rewrite (run_bind_ret _ _ _ _ _ (run_isdir _ _)).
  destruct (fs w !! dir) as [entries|] eqn:Hdir.
  2:{ rewrite bool_decide_eq_false_2 by (now intros [x Hx]). cbn [negb].
      rewrite run_log. intros [= <-] n _ [x Hx].
      change (entry w dir n = Some x) in Hx. unfold entry in Hx.
      now rewrite Hdir in Hx. }
  rewrite bool_decide_eq_true_2 by eauto. cbn [negb].
  rewrite (run_bind_ret _ _ _ _ _ (run_listdir _ _ _ Hdir)).
  set (tif_files := Validate.sorted
                      (List.filter (Py.endswith ".tif") (map fst (map_to_list entries)))).
  rewrite (run_bind_ret _ _ _ _ _ (run_mapM_validate _ _ _ _)).
  destruct (run_foldM_delete dir (map (verdict expected w dir) tif_files) 0%nat w
              (fun n => Hl dir n)) as (k' & w1 & Hrun & _ & E & _).
  rewrite (run_bind_ret _ _ _ _ _ Hrun), run_log. intros [= <-] n Hsuffix.
  unfold present. change (entry (after ?x _) dir n) with (entry x dir n). rewrite E.
  case_bool_decide as Hin; [now intros [x Hx]|]. intros Hp.
  destruct (shape_ok expected (entry w dir n)) eqn:Hs; [reflexivity|].
  exfalso. apply Hin. split; [reflexivity|]. apply marked_elem. split; [|exact Hs].
  apply sorted_elem, list_elem_of_In, List.filter_In. split; [|exact Hsuffix].
  apply list_elem_of_In, listing_elem. unfold entry in Hp. now rewrite Hdir in Hp.
Qed.

(** The sweep of a clean chunk removes nothing and counts nothing. *)
Lemma sweep_chunk_clean cfg chunk w :
  clean cfg chunk w ->
  exists m, Validate.sweep_chunk cfg chunk w = (Ret tt, after w [Log (fst m) (snd m)]).
Proof.
  destruct chunk as [chunk_name bands]. unfold clean. cbn [fst snd]. intros Hclean.
  unfold Validate.sweep_chunk.
  set (dir := out_dir cfg chunk_name) in *.
  set (expected := (Validate.EXPECTED_LABEL_BANDS + length bands)%nat) in *.
  rewrite (run_bind_ret _ _ _ _ _ (run_isdir _ _)).
  destruct (fs w !! dir) as [entries|] eqn:Hdir.
  2:{ rewrite bool_decide_eq_false_2 by (now intros [x Hx]). cbn [negb].
      exists (WARNING, MsgNoDirectory dir). apply run_log. }
  rewrite bool_decide_eq_true_2 by eauto. cbn [negb].
  rewrite (run_bind_ret _ _ _ _ _ (run_listdir _ _ _ Hdir)).
  set (tif_files := Validate.sorted
                      (List.filter (Py.endswith ".tif") (map fst (map_to_list entries)))).
  rewrite (run_bind_ret _ _ _ _ _ (run_mapM_validate _ _ _ _)).
  assert (forall names, (forall n, In n names -> In n tif_files) ->
            Validate.foldM (Validate.delete_marked dir) 0%nat
              (map (verdict expected w dir) names) w = (Ret 0%nat, w)) as Hnone.
  { induction names as [|n names IH]; intros Hsub; [reflexivity|].
    cbn [map Validate.foldM]. unfold verdict at 1.
    assert (In n tif_files) as Hn by (apply Hsub; now left).
    apply list_elem_of_In, sorted_elem, list_elem_of_In, List.filter_In in Hn as [Hn Hsuffix].
    rewrite Hclean; [|exact Hsuffix|].
    - unfold bind at 1, Validate.delete_marked at 1, ret at 1.
      apply IH. intros n' Hn'. apply Hsub. now right.
    - apply list_elem_of_In, listing_elem in Hn. unfold present, entry. now rewrite Hdir. }
  rewrite (run_bind_ret _ _ _ _ _ (Hnone tif_files (fun n H => H))).
  exists (INFO, MsgDeletedCount chunk_name 0). apply run_log.
Qed.

Lemma clean_pruned cfg chunk gone w w' : pruned gone w w' -> clean cfg chunk w -> clean cfg chunk w'.
Proof.
  intros (_ & _ & _ & E & _) Hclean n Hsuffix Hp.
  destruct (E (out_dir cfg (fst chunk)) n) as [Heq|[_ Hn]].
  - rewrite Heq. apply Hclean; [exact Hsuffix|]. unfold present in *. now rewrite <- Heq.
  - unfold present in Hp. rewrite Hn in Hp. now destruct Hp.
Qed.

Lemma sweep_chunks_any cfg chunks :
  (forall chunk, In chunk chunks -> In chunk (Validate.CHUNKS cfg)) ->
  forall w, exists w',
    forM_ chunks (Validate.sweep_chunk cfg) w = (Ret tt, w')
    /\ pruned (rejected cfg w) w w'.
Proof.
  induction chunks as [|chunk chunks IH]; intros Hsub w; cbn [forM_].
  - exists w. split; [reflexivity | apply pruned_refl].
  - destruct (sweep_chunk_any cfg chunk w) as (w1 & Hrun1 & P1).
    destruct (IH (fun c H => Hsub c (or_intror H)) w1) as (w' & Hrun & P2).
    exists w'. split; [now rewrite (run_bind_ret _ _ _ _ _ Hrun1)|].
    eapply pruned_trans; [| |exact P1|exact P2].
    + intros d n (-> & Hsuffix & Hs). split; [exact Hsuffix|].
      exists chunk. split; [apply Hsub; now left | auto].
    + intros d n Heq (Hsuffix & c & Hc & Hd & Hs). split; [exact Hsuffix|].
      exists c. rewrite <- Heq. auto.
Qed.

Lemma sweep_chunks_loose cfg chunks :
  forall w, exists w',
    forM_ chunks (Validate.sweep_chunk cfg) w = (Ret tt, w')
    /\ pruned (fun _ _ => True) w w'.
Proof.
  induction chunks as [|chunk chunks IH]; intros w; cbn [forM_].
  - exists w. split; [reflexivity | apply pruned_refl].
  - destruct (sweep_chunk_any cfg chunk w) as (w1 & Hrun1 & P1).
    destruct (IH w1) as (w' & Hrun & P2).
    exists w'. split; [now rewrite (run_bind_ret _ _ _ _ _ Hrun1)|].
    eapply pruned_trans; [| |exact P1|exact P2]; auto.
Qed.

Lemma sweep_chunks_unlocked cfg chunks :
  forall w w',
    (forall d n, (d, n) ∉ locked w) ->
    forM_ chunks (Validate.sweep_chunk cfg) w = (Ret tt, w') ->
    forall chunk, In chunk chunks -> clean cfg chunk w'.
Proof.
  induction chunks as [|c chunks IH]; intros w w' Hl; cbn [forM_]; [intros _ chunk []|].
  destruct (sweep_chunk_any cfg c w) as (w1 & Hrun1 & P1).
  rewrite (run_bind_ret _ _ _ _ _ Hrun1). intros Hrest chunk [<-|Hin].
  - destruct (sweep_chunks_loose cfg chunks w1) as (w2 & Hrun2 & P2).
    assert (w2 = w') as <- by congruence.
    eapply clean_pruned; [exact P2|]. eapply sweep_chunk_unlocked; [exact Hl | exact Hrun1].
  - eapply IH; [|exact Hrest|exact Hin].
    intros d n. destruct P1 as (L & _). rewrite L. apply Hl.
Qed.

Lemma sweep_chunks_clean cfg chunks :
  forall w,
    (forall chunk, In chunk chunks -> clean cfg chunk w) ->
    exists evs, forM_ chunks (Validate.sweep_chunk cfg) w = (Ret tt, after w evs)
                /\ forallb is_log evs = true.
Proof.
  induction chunks as [|c chunks IH]; intros w Hclean; cbn [forM_].
  - exists []. split; [now rewrite after_nil | reflexivity].
  - destruct (sweep_chunk_clean cfg c w (Hclean c (or_introl eq_refl))) as [m Hrun1].
    rewrite (run_bind_ret _ _ _ _ _ Hrun1).
    destruct (IH (after w [Log (fst m) (snd m)])) as (evs & Hrun & Hlog).
    { intros chunk Hin n Hsuffix Hp. apply (Hclean chunk (or_intror Hin) n Hsuffix Hp). }
    exists (Log (fst m) (snd m) :: evs). split; [|exact Hlog].
    rewrite Hrun, after_after. reflexivity.
Qed.

(** X11: the validator never raises and never writes.  From any state it
    returns; permissions and directories are as before; every entry is as
    before or gone, and one that is gone was a [.tif] entry of the directory
    of a chunk whose shape test it failed; the history grows by log records
    and removals only. *)
Theorem validator_removes_only_rejected cfg w :
  exists w',
    Validate.main cfg w = (Ret tt, w')
    /\ locked w' = locked w
    /\ (forall d, is_Some (fs w' !! d) <-> is_Some (fs w !! d))
    /\ (forall d n, entry w' d n = entry w d n
                    \/ (rejected cfg w d n /\ entry w' d n = None))
    /\ exists evs, trace w' = (trace w ++ evs)%list /\ forallb is_sweep_event evs = true.
Proof.
  destruct (sweep_chunks_any cfg (Validate.CHUNKS cfg) (fun c H => H) w)
    as (w' & Hrun & L & _ & D & E & T).
  exists w'. auto.
Qed.

(** X12: where nothing is locked, the validator is idempotent.  A second run
    right after the first returns as well, removes nothing, and leaves
    every entry as the first run left it. *)
Theorem validator_idempotent cfg w :
  (forall d n, (d, n) ∉ locked w) ->
  exists w1 evs,
    Validate.main cfg w = (Ret tt, w1)
    /\ Validate.main cfg w1 = (Ret tt, after w1 evs)
    /\ forallb is_log evs = true.
Proof.
  intros Hl. unfold Validate.main.
  destruct (sweep_chunks_loose cfg (Validate.CHUNKS cfg) w) as (w1 & Hrun1 & _).
  destruct (sweep_chunks_clean cfg (Validate.CHUNKS cfg) w1) as (evs & Hrun2 & Hlog).
  { eapply sweep_chunks_unlocked; [exact Hl | exact Hrun1]. }
  exists w1, evs. auto.
Qed.

(** X12 on a directory with a sound raster, two bad ones and the manifest. *)
Lemma validator_idempotent_witness :
  exists w1 evs,
    Validate.main sample_config sample_store = (Ret tt, w1)
    /\ Validate.main sample_config w1 = (Ret tt, after w1 evs)
    /\ forallb is_log evs = true.
Proof.
  apply (validator_idempotent sample_config sample_store).
  intros d n. apply not_elem_of_empty.
Defined.

(** X5: what the validator makes of a freshly fetched artifact depends on
    the band count of the response alone: [validate_file] lets the artifact
    that [check_and_download] returned pass exactly when the raster the
    service answered with has one band more than the chunk has bands. *)
Theorem fetched_artifact_validation cfg (i : Z) feat band_list chunk_name w outp w'
    (bands : list string) :
  Download.check_and_download cfg (i, feat, band_list, chunk_name) w = (Ret (Some outp), w') ->
  exists lon lat k count px,
    centroid feat = Some (lon, lat)
    /\ (k < MAX_RETRIES cfg)%nat
    /\ responses feat k = Content (GeoTiff count px)
    /\ let name := filename cfg (Download.epsg_code lon lat) chunk_name i in
       Validate.validate_file
         (out_dir cfg chunk_name, name, (Validate.EXPECTED_LABEL_BANDS + length bands)%nat) w'
       = (Ret (if Nat.eqb count (1 + length bands) then None else Some name), w').
Proof.
  intros Hrun.
  destruct (check_and_download_cases _ _ _ _ _ _ _ _ Hrun)
    as [_ (evs & _ & lon & lat & Hc & _ & _ & Hs)].
  destruct (loop_succeeded_shape _ _ _ _ _ _ _ _ Hs) as (k & count & px & Hk & Hr & _ & E).
  exists lon, lat, k, count, px. split; [exact Hc|]. split; [exact Hk|]. split; [exact Hr|].
  cbv zeta. rewrite run_validate_file. unfold verdict. rewrite E. reflexivity.
Qed.

(** X5 at a sound tile of three bands and a chunk of two. *)
Lemma fetched_artifact_validation_witness :
  let run := Download.check_and_download sample_config (1, sound_tile, ["A01"; "A02"], "c1")
               empty_world in
  Validate.validate_file
    (out_dir sample_config "c1", filename sample_config 32632 "c1" 1, 3%nat) (snd run)
  = (Ret None, snd run).
Proof.
  intros run.
  destruct (fetched_artifact_validation sample_config 1 sound_tile ["A01"; "A02"] "c1"
              empty_world
              (Py.path_join2 (out_dir sample_config "c1") (filename sample_config 32632 "c1" 1))
              (snd run) ["A01"; "A02"])
    as (lon & lat & k & count & px & Hc & _ & Hr & Hv).
  { vm_compute. reflexivity. }
  injection Hc as <- <-. injection Hr as <- <-. exact Hv.
Defined.

(** ** Names and the resume point *)


(** X6: the name of an artifact carries its tile index.  Whatever the
    configured strings, the CRS code and the chunk name, the name built for
    tile [i] passes the artifact filter of the directory scan, the scan
    reads [i] back from it, it is not the name of the manifest, and names
    built for different indices differ. *)
Theorem artifact_name_round_trip cfg epsg chunk_name (i : Z) :
  Download.is_artifact cfg (filename cfg epsg chunk_name i) = true
  /\ Download.tile_index_of (filename cfg epsg chunk_name i) = Some i
  /\ filename cfg epsg chunk_name i <> manifest
  /\ forall epsg' chunk_name' i',
       filename cfg epsg chunk_name i = filename cfg epsg' chunk_name' i' -> i = i'.
Proof.
  split; [apply is_artifact_filename|]. split; [apply tile_index_of_filename|].
  split; [apply filename_not_manifest|].
  intros epsg' chunk_name' i' Heq.
  pose proof (tile_index_of_filename cfg epsg chunk_name i) as H.
  rewrite Heq, tile_index_of_filename in H. now injection H.
Qed.

Lemma preserves_mapM_Forall {A B} (R : world -> world -> Prop)
    (R_refl : forall w, R w w)
    (R_trans : forall w1 w2 w3, R w1 w2 -> R w2 w3 -> R w1 w3)
    (f : A -> M B) l :
  Forall (fun x => preserves R (f x)) l -> preserves R (mapM f l).
Proof.
  induction 1 as [|x l Hx _ IH]; cbn [mapM].
  - now apply preserves_ret.
  - apply preserves_bind; [assumption|exact Hx|]. intros y.
    apply preserves_bind; [assumption|exact IH|]. intros ys. now apply preserves_ret.
Qed.

Lemma keeps_download_attempt allowed feat k i d n band_list :
  allowed (GetDownloadURL d n) = true -> allowed (HttpGet d n) = true ->
  allowed (WriteFile d n) = true -> allowed (TagBands d n) = true ->
  allowed (WriteFile d manifest) = true ->
  preserves (extends allowed) (download_attempt feat k i d n band_list).
Proof.
  intros H1 H2 H3 H4 H5. unfold download_attempt.
  apply keeps_bind; [now apply keeps_emit|]. intros _.
  destruct (responses feat k).
  - apply keeps_raise.
  - apply keeps_bind; [now apply keeps_emit|]. intros _. apply keeps_raise.
  - apply keeps_bind; [now apply keeps_emit|]. intros _. apply keeps_raise.
  - apply keeps_bind; [now apply keeps_emit|]. intros _.
    apply keeps_bind; [now apply keeps_write_file|]. intros _.
    apply keeps_bind; [now apply keeps_tag_bands|]. intros _.
    apply keeps_bind; [|intros _; apply keeps_ret].
    destruct (i =? 0); [now apply keeps_write_file | apply keeps_ret].
Qed.

Lemma keeps_retry_loop allowed cfg feat i d n band_list tile_index attempts :
  (forall l m, allowed (Log l m) = true) -> (forall x, allowed (Sleep x) = true) ->
  allowed (GetDownloadURL d n) = true -> allowed (HttpGet d n) = true ->
  allowed (WriteFile d n) = true -> allowed (TagBands d n) = true ->
  allowed (WriteFile d manifest) = true ->
  preserves (extends allowed)
    (retry_loop cfg (fun k => download_attempt feat k i d n band_list) tile_index attempts).
Proof.
  intros Hlog Hsleep H1 H2 H3 H4 H5.
  induction attempts as [|k rest IH]; cbn [retry_loop]; [apply keeps_ret|].
  apply keeps_bind; [apply keeps_try; now apply keeps_download_attempt|].
  intros [e|outp]; [|apply keeps_ret].
  apply keeps_bind; [apply keeps_emit, Hlog|]. intros _.
  apply keeps_bind; [apply keeps_sleep, Hsleep | intros _; exact IH].
Qed.

Lemma keeps_check_and_download allowed cfg i feat band_list chunk_name :
  (forall l m, allowed (Log l m) = true) -> (forall x, allowed (Sleep x) = true) ->
  allowed (ResolveCRS i) = true ->
  (forall epsg e, In e [GetDownloadURL (out_dir cfg chunk_name) (filename cfg epsg chunk_name i);
                        HttpGet (out_dir cfg chunk_name) (filename cfg epsg chunk_name i);
                        WriteFile (out_dir cfg chunk_name) (filename cfg epsg chunk_name i);
                        TagBands (out_dir cfg chunk_name) (filename cfg epsg chunk_name i);
                        WriteFile (out_dir cfg chunk_name) manifest] ->
                  allowed e = true) ->
  preserves (extends allowed) (Download.check_and_download cfg (i, feat, band_list, chunk_name)).
Proof.
  intros Hlog Hsleep Hcrs Hio. unfold Download.check_and_download.
  apply keeps_bind.
  { unfold Download.resolve_epsg. apply keeps_bind; [now apply keeps_emit|]. intros _.
    destruct (centroid feat) as [[lon lat]|]; [apply keeps_ret | apply keeps_raise]. }
  intros epsg. apply keeps_bind; [apply keeps_makedirs|]. intros _.
  apply keeps_bind; [apply keeps_path_exists|]. intros [|]; [apply keeps_ret|].
  apply keeps_bind.
  { apply keeps_try. unfold Download.get_embedding_image.
    destruct (_ && _); [apply keeps_ret | apply keeps_raise]. }
  intros [e|_].
  - apply keeps_bind; [apply keeps_emit, Hlog|]. intros _. apply keeps_ret.
  - apply keeps_bind.
    + apply keeps_retry_loop; auto; apply (Hio epsg); cbn; auto 10.
    + intros [outp|]; [apply keeps_ret|].
      apply keeps_bind; [apply keeps_emit, Hlog|]. intros _. apply keeps_ret.
Qed.

Lemma worker_untouched cfg (i k : Z) feat band_list chunk_name :
  k <> i ->
  preserves (extends (untouched i))
    (Download.check_and_download cfg (k, feat, band_list, chunk_name)).
Proof.
  intros Hk. apply keeps_check_and_download; try reflexivity.
  - cbn. now destruct (Z.eqb_spec k i).
  - assert (forall epsg, bool_decide (Download.tile_index_of (filename cfg epsg chunk_name k)
                                      = Some i) = false) as Hname.
    { intros epsg. apply bool_decide_eq_false_2. rewrite tile_index_of_filename. congruence. }
    intros epsg e [<-|[<-|[<-|[<-|[<-|[]]]]]]; cbn; now rewrite ?Hname.
Qed.

Lemma advances_extends allowed w w' : extends allowed w w' -> exists evs,
  trace w' = (trace w ++ evs)%list /\ forallb allowed evs = true.
Proof. now intros [_ H]. Qed.

(** X8: [download.py] does not come back to a tile below the highest index
    on disk.  If the chunk directory holds an artifact of index [j], then
    for no [i] between 0 and [j] does a run of the chunk evaluate the
    centroid of tile [i] or request, fetch, write or tag a file whose name
    carries that index, whether tile [i] is on disk or not. *)
Theorem tiles_below_resume_point_are_skipped cfg grid chunk_name band_list w f (i j : Z) r w' :
  present w (out_dir cfg chunk_name) f ->
  Download.is_artifact cfg f = true ->
  Download.tile_index_of f = Some j ->
  0 <= i <= j ->
  Download.process_chunk cfg grid (chunk_name, band_list) w = (r, w') ->
  exists evs, trace w' = (trace w ++ evs)%list /\ forallb (untouched i) evs = true.
Proof.
  intros Hp Ha Hj Hi. rewrite run_process_chunk.
  set (w1 := with_dir (after w [Log INFO (MsgStartChunk chunk_name band_list)])
                      (out_dir cfg chunk_name)).
  assert (extends (untouched i) w w1) as E1.
  { split; [unfold w1, with_dir; now destruct (fs _ !! _)|].
    exists [Log INFO (MsgStartChunk chunk_name band_list)].
    split; [apply trace_with_dir | reflexivity]. }
  destruct (parsed (chunk_names cfg w chunk_name)) as [zs|] eqn:Hzs.
  2:{ intros [= <- <-]. now apply advances_extends. }
  cbv zeta. intros Hrun. apply advances_extends.
  eapply extends_trans; [exact E1|]. revert Hrun.
  apply keeps_bind; [|intros results; now apply keeps_emit].
  apply preserves_mapM_Forall; [apply extends_refl | apply extends_trans|].
  assert (j + 1 <= Download.start_index (merge_sort Z.le zs)) as Hstart.
  { pose proof (settled_start cfg (Z.to_nat (j + 1)) w chunk_name zs) as H.
    rewrite Z2Nat.id in H by lia. apply H; [|exact Hzs].
    exists f, j. repeat split; auto. lia. }
  unfold Download.all_params. apply List.Forall_forall. intros x Hx.
  apply in_map_iff in Hx as (k & <- & Hk).
  apply list_elem_of_In, elem_of_seqZ in Hk.
  apply worker_untouched. lia.
Qed.

(** X8 where only tile 1 of three is on disk: tile 2 is fetched, tile 0 is
    not. *)
Lemma tiles_below_resume_point_are_skipped_witness :
  let run := Download.process_chunk sample_config [sound_tile; sound_tile; sound_tile]
               ("c1", ["A01"; "A02"]) cached_world in
  (exists evs, trace (snd run) = (trace cached_world ++ evs)%list
               /\ forallb (untouched 0) evs = true)
  /\ length (List.filter is_fetch (trace (snd run))) = 3%nat
  /\ entry (snd run) (out_dir sample_config "c1") (filename sample_config 32632 "c1" 0) = None.
Proof.
  intros run. split; [|split; vm_compute; reflexivity].
  apply (tiles_below_resume_point_are_skipped sample_config
           [sound_tile; sound_tile; sound_tile] "c1" ["A01"; "A02"] cached_world
           (filename sample_config 32632 "c1" 1) 0 1 (fst run) (snd run)).
  - vm_compute. eexists. reflexivity.
  - vm_compute. reflexivity.
  - vm_compute. reflexivity.
  - lia.
  - apply surjective_pairing.
Defined.


Lemma process_chunk_advances cfg grid chunk w r w' :
  Download.process_chunk cfg grid chunk w = (r, w') -> advances w w'.
Proof.
  destruct chunk as [chunk_name band_list]. rewrite run_process_chunk.
  set (w1 := with_dir (after w [Log INFO (MsgStartChunk chunk_name band_list)])
                      (out_dir cfg chunk_name)).
  assert (advances w w1) as A1.
  { split; [eapply grows_trans; [apply grows_after | apply grows_with_dir]|].
    eexists. unfold w1. rewrite trace_with_dir. reflexivity. }
  destruct (parsed _) as [zs|]; [|now intros [= <- <-]].
  cbv zeta. intros Hrun. eapply advances_trans; [exact A1|]. revert Hrun.
  apply preserves_bind; [apply advances_trans| |].
  - apply preserves_mapM; [apply advances_refl | apply advances_trans|].
    apply check_and_download_advances.
  - intros results w2 r2 w3. rewrite run_log. intros [= <- <-].
    split; [apply grows_after | eexists; reflexivity].
Qed.






(** X10: without tiles [download.py] fetches nothing, in whatever state it
    starts and however it ends: no download URL is requested, no HTTP GET
    issued, no file written, and every entry is as before. *)
Theorem empty_grid_fetches_nothing cfg w :
  let w' := snd (Download.main cfg [] w) in
  trace w' = (trace w ++ since w w')%list
  /\ List.filter is_fetch (since w w') = []
  /\ forall d n, entry w' d n = entry w d n.
Proof.
  intros w'. apply quiet_no_fetch. unfold w', Download.main.
  rewrite (run_bind_ret _ _ _ _ _ (run_log _ _ _)).
  eapply quiet_trans; [apply (quiet_after w [Log INFO MsgLoadingGrid]); reflexivity|].
  eapply (chunks_second_run cfg []); [intros H; now destruct H | apply surjective_pairing].
Qed.

(** ** Full tallies *)

(** X9: a full tally of a fresh chunk means that every tile is on disk.  If
    the chunk directory holds no artifact when [download.py] starts the
    chunk, the chunk returns and its tally counts every item as succeeded,
    then each tile of the grid has had its centroid evaluated and has its
    artifact, named for the CRS code of that centroid, in the directory. *)
Theorem fresh_chunk_full_tally cfg grid chunk_name band_list w w' :
  (forall f, present w (out_dir cfg chunk_name) f -> Download.is_artifact cfg f = false) ->
  Download.process_chunk cfg grid (chunk_name, band_list) w = (Ret tt, w') ->
  forallb full_tally (since w w') = true ->
  forall i, 0 <= i < Z.of_nat (length grid) ->
    exists lon lat,
      centroid (Download.features_get grid i) = Some (lon, lat)
      /\ present w' (out_dir cfg chunk_name)
                 (filename cfg (Download.epsg_code lon lat) chunk_name i).
Proof.
  intros Hfresh. rewrite run_process_chunk.
  assert (chunk_names cfg w chunk_name = []) as ->.
  { destruct (chunk_names cfg w chunk_name) as [|f l] eqn:E; [reflexivity|].
    assert (In f (chunk_names cfg w chunk_name)) as Hin by (rewrite E; now left).
    apply chunk_names_elem in Hin as [Hp Ha]. rewrite (Hfresh f Hp) in Ha. discriminate. }
  cbn [parsed]. cbv zeta.
  change (Download.start_index (merge_sort Z.le [])) with 0.
  set (params := Download.all_params grid 0 band_list chunk_name).
  set (w1 := with_dir (after w [Log INFO (MsgStartChunk chunk_name band_list)])
                      (out_dir cfg chunk_name)).
  intros (results & wm & Hrun & Hlog)%bind_ret_inv Hfull i Hi.
  rewrite run_log in Hlog. injection Hlog as <-.
  destruct (mapM_elem advances advances_refl advances_trans _ params
              (check_and_download_advances cfg) _ _ _ Hrun) as [Hlen Hel].
  assert (advances w1 wm) as Am.
  { eapply (preserves_mapM advances advances_refl advances_trans); [|exact Hrun].
    apply check_and_download_advances. }
  assert (succeeded results = length results) as Hall.
  { destruct Am as [_ (evs & Tm)].
    rewrite (since_app w _ ([Log INFO (MsgStartChunk chunk_name band_list)] ++ evs
                            ++ [Log INFO (MsgChunkTally chunk_name (succeeded results)
                                                        (length params))])) in Hfull.
    - rewrite !forallb_app in Hfull. cbn in Hfull.
      destruct (forallb full_tally evs); [|discriminate].
      rewrite andb_true_r in Hfull. apply Nat.eqb_eq in Hfull. congruence.
    - cbn [after trace]. rewrite Tm. unfold w1. rewrite trace_with_dir. cbn [after trace].
      now rewrite <- !app_assoc. }
  assert (params !! Z.to_nat i
          = Some (i, Download.features_get grid i, band_list, chunk_name)) as Hk.
  { unfold params, Download.all_params. rewrite lookup_map.
    rewrite (proj2 (lookup_seqZ 0 _ _ i)) by lia. reflexivity. }
  destruct (Hel _ _ Hk) as (r & wa & wb & Hr & Hwork & _ & Ab).
  destruct (succeeded_all results Hall r) as [outp ->].
  { apply list_elem_of_In. eapply list_elem_of_lookup_2. exact Hr. }
  destruct (check_and_download_cases _ _ _ _ _ _ _ _ Hwork)
    as [_ (evs & _ & lon & lat & Hc & _ & _ & Hs)].
  exists lon, lat. split; [exact Hc|].
  destruct Hs as (pre & k & c & px & _ & _ & _ & _ & E & _).
  change (present (after wm ?e) ?d ?n) with (present wm d n).
  eapply advances_present; [exact Ab|]. eexists. exact E.
Qed.

(** X9 at the second of two sound tiles and an empty store. *)
Lemma fresh_chunk_full_tally_witness :
  let run := Download.process_chunk sample_config [sound_tile; sound_tile]
               ("c1", ["A01"; "A02"]) empty_world in
  exists lon lat,
    centroid (Download.features_get [sound_tile; sound_tile] 1) = Some (lon, lat)
    /\ present (snd run) (out_dir sample_config "c1")
               (filename sample_config (Download.epsg_code lon lat) "c1" 1).
Proof.
  intros run.
  refine (fresh_chunk_full_tally sample_config [sound_tile; sound_tile] "c1" ["A01"; "A02"]
            empty_world (snd run) _ _ _ 1 _).
  - intros f [x Hx]. discriminate Hx.
  - vm_compute. reflexivity.
  - vm_compute. reflexivity.
  - cbn. lia.
Defined.

(** X13: a second run of [gee_embedding_download.py] fetches nothing.  After
    a run that returned and whose tallies count every item as succeeded, a
    run over the same zones, started in a state that still holds every file
    and every grid asset the first run left, requests no download URL,
    issues no HTTP GET and writes no file; every entry of the file system
    and every asset is as it was. *)
Theorem zone_pipeline_second_run_fetches_nothing cfg zones w0 w1 w1' r2 w2 :
  GeeEmbeddingDownload.main cfg zones w0 = (Ret tt, w1) ->
  forallb full_tally (since w0 w1) = true ->
  (forall d n, present w1 d n -> present w1' d n) ->
  (forall aid lst, assets w1 !! aid = Some lst -> assets w1' !! aid = Some lst) ->
  GeeEmbeddingDownload.main cfg zones w1' = (r2, w2) ->
  trace w2 = (trace w1' ++ since w1' w2)%list
  /\ List.filter is_fetch (since w1' w2) = []
  /\ assets w2 = assets w1'
  /\ forall d n, entry w2 d n = entry w1' d n.
Proof.
  intros Hrun1 Hfull Hfiles Hassets Hrun2.
  pose proof (gee_two_runs _ _ _ _ _ _ _ Hrun1 Hfull Hfiles Hassets Hrun2) as Hq.
  destruct (quiet_no_fetch _ _ Hq) as (T & F & E).
  split; [exact T|]. split; [exact F|]. split; [apply Hq | exact E].
Qed.

(** X13 at one zone of one tile next to a zone that misses the country. *)
Lemma zone_pipeline_second_run_fetches_nothing_witness :
  let zones := [sample_zone 32; empty_zone 33] in
  let w1 := snd (GeeEmbeddingDownload.main sample_config zones empty_world) in
  let w2 := snd (GeeEmbeddingDownload.main sample_config zones w1) in
  length (List.filter is_fetch (since empty_world w1)) = 12%nat
  /\ List.filter is_fetch (since w1 w2) = []
  /\ forall d n, entry w2 d n = entry w1 d n.
Proof.
  intros zones w1 w2. split; [vm_compute; reflexivity|].
  destruct (zone_pipeline_second_run_fetches_nothing sample_config zones empty_world w1 w1
              (fst (GeeEmbeddingDownload.main sample_config zones w1)) w2)
    as (_ & F & _ & E).
  - vm_compute. reflexivity.
  - vm_compute. reflexivity.
  - auto.
  - auto.
  - apply surjective_pairing.
  - split; [exact F | exact E].
Defined.

(** ** Provisioning again *)

Lemma export_zone_existing cfg z w r w' :
  (barren z = false -> is_Some (assets w !! zone_asset cfg (zone_number z))) ->
  GeeEmbeddingDownload.export_zone cfg z w = (r, w') ->
  exists evs, w' = after w evs /\ forallb is_log evs = true.
Proof.
  intros Hz. unfold GeeEmbeddingDownload.export_zone.
  destruct (area z) as [a|] eqn:Ha.
  2:{ rewrite (run_bind_ret _ _ _ _ _ (run_log _ _ _)). intros [= <- <-]. eauto. }
  destruct (Qeq_bool a 0) eqn:Hzero.
  { intros [= <- <-]. exists []. now rewrite after_nil. }
  destruct (GeeEmbeddingDownload.utm_epsg (zone_number z) (SOUTH cfg)) as [epsg|].
  2:{ intros [= <- <-]. exists []. now rewrite after_nil. }
  fold (zone_asset cfg (zone_number z)).
  unfold bind at 1, GeeEmbeddingDownload.asset_exists at 1.
  rewrite bool_decide_eq_true_2 by (apply Hz; unfold barren; now rewrite Ha).
  rewrite (run_bind_ret _ _ _ _ _ (run_log _ _ _)). intros [= <- <-]. eauto.
Qed.

Lemma export_zones_existing cfg zones :
  forall w r w',
  (forall z, In z zones -> barren z = false ->
             is_Some (assets w !! zone_asset cfg (zone_number z))) ->
  mapM (GeeEmbeddingDownload.export_zone cfg) zones w = (r, w') ->
  exists evs, w' = after w evs /\ forallb is_log evs = true.
Proof.
  induction zones as [|z zones IH]; intros w r w' Hz; cbn [mapM].
  - intros [= <- <-]. exists []. now rewrite after_nil.
  - intros [(y & w1 & Hrun & Hrest)|(e & Hrun & _)]%bind_inv.
    + destruct (export_zone_existing _ _ _ _ _ (Hz z (or_introl eq_refl)) Hrun)
        as (evs1 & -> & L1).
      apply bind_inv in Hrest as [(ys & w2 & Hrest & [= <- <-])|(e & Hrest & _)];
        destruct (IH (after w evs1) _ _ (fun z' H => Hz z' (or_intror H)) Hrest)
          as (evs2 & -> & L2);
        exists (evs1 ++ evs2)%list; rewrite after_after, forallb_app, L1, L2; auto.
    + eapply export_zone_existing; [|exact Hrun]. apply Hz. now left.
Qed.

(** X14: provisioning leaves existing grids alone.  Where every zone that
    meets the country already has its grid asset, [export_zone_grids]
    starts no export and does not wait: it only logs, and the assets and
    the file system are as before, whether it returns the zones or exits
    for want of any. *)
Theorem provisioning_skips_existing_assets cfg zones w r w' :
  (forall z, In z zones -> barren z = false ->
             is_Some (assets w !! zone_asset cfg (zone_number z))) ->
  GeeEmbeddingDownload.export_zone_grids cfg zones w = (r, w') ->
  exists evs, w' = after w evs /\ forallb is_log evs = true.
Proof.
  intros Hz. unfold GeeEmbeddingDownload.export_zone_grids.
  rewrite (run_bind_ret _ _ _ _ _ (run_log _ _ _)).
  intros [(found & w1 & Hrun & Hrest)|(e & Hrun & _)]%bind_inv;
    destruct (export_zones_existing cfg zones (after w [Log INFO MsgStartExport]) _ _ Hz Hrun)
      as (evs & -> & L).
  - destruct (omap id found);
      rewrite (run_bind_ret _ _ _ _ _ (run_log _ _ _)) in Hrest;
      inversion Hrest; subst; rewrite !after_after; eexists; split; try reflexivity;
      cbn; rewrite forallb_app, L; reflexivity.
  - rewrite after_after. eexists. split; [reflexivity|]. cbn. exact L.
Qed.

(** X14 in the state a first provisioning left. *)
Lemma provisioning_skips_existing_assets_witness :
  let zones := [sample_zone 32; failing_zone 31] in
  let w1 := snd (GeeEmbeddingDownload.export_zone_grids sample_config zones empty_world) in
  let run := GeeEmbeddingDownload.export_zone_grids sample_config zones w1 in
  List.filter (fun e => negb (is_log e)) (trace w1) = [StartExport "users/x/DK_utm_grid_1000m_zone32"; Sleep 10]
  /\ exists evs, snd run = after w1 evs /\ forallb is_log evs = true.
Proof.
  intros zones w1 run. split; [vm_compute; reflexivity|].
  apply (provisioning_skips_existing_assets sample_config zones w1 (fst run) (snd run)).
  - intros z [<-|[<-|[]]] Hb; [|discriminate Hb].
    vm_compute. eexists. reflexivity.
  - apply surjective_pairing.
Defined.

(** X16: full tallies of the zone pipeline mean that every tile is on disk.
    After a run of [gee_embedding_download.py] that returned and whose
    tallies count every item as succeeded, each zone that meets the country
    has its grid asset, and each tile of that grid has its artifact in the
    directory of each of the three chunks. *)
Theorem zone_pipeline_full_tallies cfg zones w0 w1 :
  GeeEmbeddingDownload.main cfg zones w0 = (Ret tt, w1) ->
  forallb full_tally (since w0 w1) = true ->
  forall z epsg,
    In z zones -> barren z = false ->
    GeeEmbeddingDownload.utm_epsg (zone_number z) (SOUTH cfg) = Some epsg ->
    exists lst,
      assets w1 !! zone_asset cfg (zone_number z) = Some lst
      /\ forall chunk idx,
           In chunk GeeEmbeddingDownload.CHUNKS -> (idx < length lst)%nat ->
           present w1 (out_dir cfg (fst chunk))
                   (filename cfg epsg (fst chunk) (Z.of_nat idx)).
Proof.
  intros Hrun Hfull z epsg Hz Hb He.
  exact (gee_first_run _ _ _ _ Hrun Hfull z Hz Hb epsg He).
Qed.

(** X16 at one zone of one tile. *)
Lemma zone_pipeline_full_tallies_witness :
  let w1 := snd (GeeEmbeddingDownload.main sample_config [sample_zone 32] empty_world) in
  exists lst,
    assets w1 !! zone_asset sample_config 32 = Some lst
    /\ forall chunk idx,
         In chunk GeeEmbeddingDownload.CHUNKS -> (idx < length lst)%nat ->
         present w1 (out_dir sample_config (fst chunk))
                 (filename sample_config 32632 (fst chunk) (Z.of_nat idx)).
Proof.
  intros w1.
  refine (zone_pipeline_full_tallies sample_config [sample_zone 32] empty_world w1 _ _
            (sample_zone 32) 32632 _ _ _).
  - vm_compute. reflexivity.
  - vm_compute. reflexivity.
  - now left.
  - reflexivity.
  - reflexivity.
Defined.

(** ** A negative wait *)






(** ** The count of the validator *)


Lemma removed_app e1 e2 : removed (e1 ++ e2) = (removed e1 + removed e2)%nat.
Proof. unfold removed. now rewrite List.filter_app, length_app. Qed.

Lemma delete_marked_counts d deleted path w :
  exists k' w' evs,
    Validate.delete_marked d deleted path w = (Ret k', w')
    /\ trace w' = (trace w ++ evs)%list
    /\ k' = (deleted + removed evs)%nat.
Proof.
  destruct path as [n|].
  2:{ exists deleted, w, []. rewrite app_nil_r. cbn. auto with arith. }
  unfold Validate.delete_marked.
  rewrite (run_bind_ret _ _ _ _ _ (run_path_exists _ _ _)).
  case_bool_decide as Hp.
  2:{ exists deleted, w, []. rewrite app_nil_r. cbn. auto with arith. }
  unfold bind at 1, try_ at 1.
  destruct (decide ((d, n) ∈ locked w)) as [Hl|Hl].
  - rewrite (run_bind_raise _ _ _ _ _ (run_remove_locked _ _ _ Hl)). cbn [is_Exception].
    rewrite (run_bind_ret _ _ _ _ _ (run_log _ _ _)).
    eexists _, _, _. split; [reflexivity|]. split; [reflexivity|]. cbn. lia.
  - rewrite (run_bind_ret _ _ _ _ _ (run_remove _ _ _ Hl Hp)).
    rewrite run_log, after_after.
    eexists _, _, _. split; [reflexivity|].
    split; [cbn; rewrite trace_without; reflexivity|]. cbn. lia.
Qed.

Lemma foldM_delete_counts d results :
  forall k w,
    exists k' w' evs,
      Validate.foldM (Validate.delete_marked d) k results w = (Ret k', w')
      /\ trace w' = (trace w ++ evs)%list
      /\ k' = (k + removed evs)%nat.
Proof.
  induction results as [|path results IH]; intros k w.
  - exists k, w, []. rewrite app_nil_r. cbn. auto with arith.
  - cbn [Validate.foldM].
    destruct (delete_marked_counts d k path w) as (k1 & w1 & evs1 & Hrun1 & T1 & ->).
    destruct (IH (k + removed evs1)%nat w1) as (k' & w' & evs & Hrun & T & ->).
    exists (k + removed evs1 + removed evs)%nat, w', (evs1 ++ evs)%list.
    split; [now rewrite (run_bind_ret _ _ _ _ _ Hrun1)|].
    split; [now rewrite T, T1, app_assoc|]. rewrite removed_app. lia.
Qed.

(** X17: the count the validator logs for a chunk is the number of files it
    removed.  The sweep of a chunk either finds no directory and logs one
    warning, or ends with the record of the count, and that count is the
    number of removals the sweep made, failed removals not counted. *)
Theorem validator_count_is_removals cfg chunk_name (bands : list string) w :
  exists w' evs,
    Validate.sweep_chunk cfg (chunk_name, bands) w = (Ret tt, w')
    /\ trace w' = (trace w ++ evs)%list
    /\ (evs = [Log WARNING (MsgNoDirectory (out_dir cfg chunk_name))]
        \/ exists pre, evs = (pre ++ [Log INFO (MsgDeletedCount chunk_name (removed pre))])%list).
Proof.
  unfold Validate.sweep_chunk.
  set (dir := out_dir cfg chunk_name).
  set (expected := (Validate.EXPECTED_LABEL_BANDS + length bands)%nat).
  rewrite (run_bind_ret _ _ _ _ _ (run_isdir _ _)).
  destruct (fs w !! dir) as [entries|] eqn:Hdir.
  2:{ rewrite bool_decide_eq_false_2 by (now intros [x Hx]). cbn [negb].
      eexists _, _. split; [apply run_log|]. split; [reflexivity | now left]. }
  rewrite bool_decide_eq_true_2 by eauto. cbn [negb].
  rewrite (run_bind_ret _ _ _ _ _ (run_listdir _ _ _ Hdir)).
  rewrite (run_bind_ret _ _ _ _ _ (run_mapM_validate _ _ _ _)).
  match goal with |- context [Validate.foldM _ _ ?results] =>
    destruct (foldM_delete_counts dir results 0%nat w) as (k' & w1 & pre & Hrun & T & ->)
  end.
  rewrite (run_bind_ret _ _ _ _ _ Hrun).
  eexists _, _. split; [apply run_log|].
  split; [cbn; rewrite T, <- app_assoc; reflexivity|]. right. exists pre. reflexivity.
Qed.

(** ** Missing tiles of the zone pipeline *)

Lemma retry_loop_first cfg feat i d n band_list tile_index k rest w r w' :
  retry_loop cfg (fun a => download_attempt feat a i d n band_list) tile_index (k :: rest) w
    = (r, w') ->
  exists evs, trace w' = (trace w ++ GetDownloadURL d n :: evs)%list.
Proof.
  cbn [retry_loop].
  assert (forall a : exn + string, preserves (extends (fun _ => true))
            (match a with
             | inl _ =>
                 log WARNING (MsgRetryFailed tile_index (k + 1) (MAX_RETRIES cfg)) ;;
                 sleep (BASE_WAIT cfg * inject_Z (2 ^ Z.of_nat k)) ;;
                 retry_loop cfg (fun a => download_attempt feat a i d n band_list)
                   tile_index rest
             | inr outp => ret (Some outp)
             end)) as Hk.
  { intros [e|outp]; [|apply keeps_ret].
    apply keeps_bind; [now apply keeps_emit|]. intros _.
    apply keeps_bind; [now apply keeps_sleep|]. intros _.
    apply keeps_retry_loop; auto. }
  intros [(a & w1 & Htry & Hrest)|(e & Htry & _)]%bind_inv.
  - assert (exists ra, download_attempt feat k i d n band_list w = (ra, w1)) as [ra Ha].
    { apply try_inv in Htry as [(x & Hx & _)|(e & Hx & _)]; eauto. }
    destruct (download_attempt_events _ _ _ _ _ _ _ _ _ Ha) as [_ (evs & Ta & _)].
    destruct (Hk a _ _ _ Hrest) as [_ (evs2 & T2 & _)].
    exists (evs ++ evs2)%list. rewrite T2, Ta, <- app_assoc. reflexivity.
  - apply try_inv in Htry as [(x & _ & [=])|(e' & Ha & _)].
    destruct (download_attempt_events _ _ _ _ _ _ _ _ _ Ha) as [_ (evs & Ta & _)].
    exists evs. exact Ta.
Qed.

(** X18: the zone pipeline asks again for any tile that is missing.  With at
    least one attempt allowed, [download_images] started for a tile whose
    artifact is absent requests a download URL for it as its first action,
    whatever else is on disk. *)
Theorem missing_tile_is_requested_again cfg (idx : Z) feat epsg band_list chunk_name w r w' :
  let dir := out_dir cfg chunk_name in
  let name := filename cfg epsg chunk_name idx in
  transform_ok feat = true -> image_ok feat = true ->
  (0 < MAX_RETRIES cfg)%nat ->
  ~ present w dir name ->
  GeeEmbeddingDownload.download_images cfg (feat, idx, epsg, band_list, chunk_name) w
    = (r, w') ->
  exists evs, trace w' = (trace w ++ GetDownloadURL dir name :: evs)%list.
Proof.
  intros dir name Ht Him Hmax Habsent.
  unfold GeeEmbeddingDownload.download_images. rewrite Ht, Him.
  unfold bind at 1, ret at 1. unfold bind at 1, try_ at 1, ret at 1.
  rewrite (run_bind_ret _ _ _ _ _ (run_makedirs _ _)).
  rewrite (run_bind_ret _ _ _ _ _ (run_path_exists _ _ _)).
  rewrite bool_decide_eq_false_2 by (now rewrite present_with_dir).
  fold dir. fold name.
  destruct (MAX_RETRIES cfg) as [|m]; [lia|]. cbn [seq].
  set (w0 := with_dir w dir).
  assert (trace w0 = trace w) as T0 by apply trace_with_dir.
  intros [(o & w1 & Hloop & Hrest)|(e & Hloop & _)]%bind_inv;
    destruct (retry_loop_first _ _ _ _ _ _ _ _ _ _ _ _ Hloop) as [evs T].
  - destruct o as [outp|].
    + injection Hrest as <- <-. exists evs. now rewrite T, T0.
    + rewrite (run_bind_ret _ _ _ _ _ (run_log _ _ _)) in Hrest. injection Hrest as <- <-.
      exists (evs ++ [Log ERROR (MsgGaveUp name)])%list.
      cbn [after trace]. rewrite T, T0, <- app_assoc. reflexivity.
  - exists evs. now rewrite T, T0.
Qed.

(** X18 at a sound tile in a store that holds another tile. *)
Lemma missing_tile_is_requested_again_witness :
  let run := GeeEmbeddingDownload.download_images sample_config
               (sound_tile, 0, 32632, ["A01"; "A02"], "c1") cached_world in
  exists evs,
    trace (snd run)
    = (trace cached_world
       ++ GetDownloadURL (out_dir sample_config "c1") (filename sample_config 32632 "c1" 0)
          :: evs)%list.
Proof.
  intros run.
  refine (missing_tile_is_requested_again sample_config 0 sound_tile 32632 ["A01"; "A02"] "c1"
            cached_world (fst run) (snd run) eq_refl eq_refl _ _ _).
  - cbn. lia.
  - vm_compute. intros [x H]. discriminate H.
  - apply surjective_pairing.
Defined.

(** ** What the download scripts never do *)


Lemma keeps_files_refl w : keeps_files w w.
Proof. intros d n H. exact H. Qed.

Lemma keeps_files_trans w1 w2 w3 : keeps_files w1 w2 -> keeps_files w2 w3 -> keeps_files w1 w3.
Proof. intros H1 H2 d n H. now apply H2, H1. Qed.

Lemma keeps_files_same_fs {A} (m : M A) :
  (forall w r w', m w = (r, w') -> fs w' = fs w) -> preserves keeps_files m.
Proof.
  intros Hm w r w' Hrun d n. unfold present, entry. now rewrite (Hm _ _ _ Hrun).
Qed.

Lemma keeps_files_advances {A} (m : M A) : preserves advances m -> preserves keeps_files m.
Proof. intros Hm w r w' Hrun d n. eapply advances_present, Hm, Hrun. Qed.

Lemma keeps_files_emit e : preserves keeps_files (emit e).
Proof. apply keeps_files_same_fs. intros w r w' H. now inversion H. Qed.

Lemma keeps_files_sleep x : preserves keeps_files (sleep x).
Proof.
  unfold sleep. destruct (Qle_bool 0 x); [apply keeps_files_emit|].
  apply preserves_raise, keeps_files_refl.
Qed.

Lemma keeps_files_wait_for_export zone polls :
  preserves keeps_files (GeeEmbeddingDownload.wait_for_export zone polls).
Proof.
  pose proof keeps_files_refl as Rr. pose proof keeps_files_trans as Rt.
  induction polls as [|polls IH]; cbn [GeeEmbeddingDownload.wait_for_export].
  - now apply preserves_ret.
  - apply preserves_bind; [assumption|apply keeps_files_emit|]. intros _.
    apply preserves_bind; [assumption|apply keeps_files_sleep|]. intros _. exact IH.
Qed.

Lemma keeps_files_export_zone cfg z :
  preserves keeps_files (GeeEmbeddingDownload.export_zone cfg z).
Proof.
  pose proof keeps_files_refl as Rr. pose proof keeps_files_trans as Rt.
  unfold GeeEmbeddingDownload.export_zone.
  destruct (area z) as [a|].
  2:{ apply preserves_bind; [assumption|apply keeps_files_emit|]. intros _.
      now apply preserves_ret. }
  destruct (Qeq_bool a 0); [now apply preserves_ret|].
  destruct (GeeEmbeddingDownload.utm_epsg _ _) as [epsg|]; [|now apply preserves_raise].
  apply preserves_bind; [assumption| |].
  { apply keeps_files_same_fs. intros w r w' H. now inversion H. }
  intros present. apply preserves_bind; [assumption| |intros _; now apply preserves_ret].
  destruct present; [apply keeps_files_emit|].
  apply preserves_bind; [assumption|apply keeps_files_emit|]. intros _.
  apply preserves_bind; [assumption| |intros _; apply keeps_files_emit].
  unfold GeeEmbeddingDownload.run_export.
  apply preserves_bind; [assumption|apply keeps_files_emit|]. intros _.
  apply preserves_bind; [assumption|apply keeps_files_wait_for_export|]. intros _.
  destruct (export_ok z); [|now apply preserves_ret].
  apply keeps_files_same_fs. intros w r w' H. now inversion H.
Qed.

Lemma keeps_files_process_zone cfg chunk e :
  preserves keeps_files (GeeEmbeddingDownload.process_zone cfg chunk e).
Proof.
  pose proof keeps_files_refl as Rr. pose proof keeps_files_trans as Rt.
  destruct chunk as [chunk_name band_list]. destruct e as [[[zone epsg] crs] aid].
  unfold GeeEmbeddingDownload.process_zone.
  apply preserves_bind; [assumption| |].
  { apply keeps_files_same_fs. intros w r w'. unfold GeeEmbeddingDownload.asset_features.
    destruct (assets w !! aid); intros H; now inversion H. }
  intros lst. apply preserves_bind; [assumption|apply keeps_files_emit|]. intros _.
  apply preserves_bind; [assumption| |intros results; apply keeps_files_emit].
  apply preserves_mapM; [assumption|assumption|]. intros params.
  apply keeps_files_advances, download_images_advances.
Qed.

(** X19: neither download script ever removes a file.  Whatever [main] of
    [download.py] or of [gee_embedding_download.py] does, and however it
    ends, every entry of the file system that was there before is there
    afterwards. *)
Theorem download_scripts_never_remove cfg grid zones w :
  (forall d n, present w d n -> present (snd (Download.main cfg grid w)) d n)
  /\ (forall d n, present w d n -> present (snd (GeeEmbeddingDownload.main cfg zones w)) d n).
Proof.
  pose proof keeps_files_refl as Rr. pose proof keeps_files_trans as Rt.
  split.
  - assert (preserves keeps_files (Download.main cfg grid)) as H.
    { unfold Download.main.
      apply preserves_bind; [assumption|apply keeps_files_emit|]. intros _.
      apply preserves_forM; [assumption|assumption|]. intros chunk.
      apply keeps_files_advances. intros w0 r w1. apply process_chunk_advances. }
    apply (H w (fst (Download.main cfg grid w))). apply surjective_pairing.
  - assert (preserves keeps_files (GeeEmbeddingDownload.main cfg zones)) as H.
    { unfold GeeEmbeddingDownload.main, GeeEmbeddingDownload.export_zone_grids.
      apply preserves_bind; [assumption| |].
      - apply preserves_bind; [assumption|apply keeps_files_emit|]. intros _.
        apply preserves_bind; [assumption| |].
        + apply preserves_mapM; [assumption|assumption|]. apply keeps_files_export_zone.
        + intros found. destruct (omap id found).
          * apply preserves_bind; [assumption|apply keeps_files_emit|]. intros _.
            now apply preserves_raise.
          * apply preserves_bind; [assumption|apply keeps_files_emit|]. intros _.
            now apply preserves_ret.
      - intros zone_info. apply preserves_forM; [assumption|assumption|]. intros chunk.
        apply preserves_bind; [assumption|apply keeps_files_emit|]. intros _.
        apply preserves_forM; [assumption|assumption|]. apply keeps_files_process_zone. }
    apply (H w (fst (GeeEmbeddingDownload.main cfg zones w))). apply surjective_pairing.
Qed.

(** ** The number of requests *)


Lemma requests_app e1 e2 : requests (e1 ++ e2) = (requests e1 + requests e2)%nat.
Proof. unfold requests. now rewrite List.filter_app, length_app. Qed.

Lemma requests_io evs : forallb is_io evs = true -> requests evs = 0%nat.
Proof.
  unfold requests. induction evs as [|e evs IH]; [reflexivity|]. cbn [forallb List.filter].
  intros [He Hevs]%andb_prop. destruct e; try discriminate He; now apply IH.
Qed.

Lemma retry_loop_requests cfg feat i d n band_list tile_index attempts :
  forall w r w',
  retry_loop cfg (fun k => download_attempt feat k i d n band_list) tile_index attempts w
    = (r, w') ->
  exists evs, trace w' = (trace w ++ evs)%list /\ (requests evs <= length attempts)%nat.
Proof.
  induction attempts as [|k rest IH]; intros w r w'; cbn [retry_loop].
  - intros [= <- <-]. exists []. rewrite app_nil_r. split; [reflexivity | cbn; lia].
  - assert (forall ra wa, download_attempt feat k i d n band_list w = (ra, wa) ->
              exists evs, trace wa = (trace w ++ evs)%list /\ requests evs = 1%nat) as Hone.
    { intros ra wa Ha.
      destruct (download_attempt_events _ _ _ _ _ _ _ _ _ Ha) as [_ (evs & T & A)].
      exists (GetDownloadURL d n :: evs). split; [exact T|].
      change (GetDownloadURL d n :: evs) with ([GetDownloadURL d n] ++ evs)%list.
      now rewrite requests_app, (requests_io _ A). }
    intros [(a & w1 & Htry & Hrest)|(e & Htry & _)]%bind_inv.
    + apply try_inv in Htry as [(outp & Ha & [= ->])|(e & Ha & He)].
      * destruct (Hone _ _ Ha) as (evs & T & R). injection Hrest as <- <-.
        exists evs. split; [exact T | cbn; lia].
      * destruct (is_Exception e); [|discriminate He]. injection He as ->.
        destruct (Hone _ _ Ha) as (evs & T & R).
        rewrite (run_bind_ret _ _ _ _ _ (run_log _ _ _)) in Hrest.
        unfold sleep in Hrest. destruct (Qle_bool _ _).
        -- rewrite (run_bind_ret _ _ _ _ _ (run_emit _ _)) in Hrest.
           destruct (IH _ _ _ Hrest) as (evs2 & T2 & R2).
           eexists. split; [rewrite T2; cbn [after trace]; rewrite T, <- !app_assoc;
                            reflexivity|].
           rewrite !requests_app, R. cbn. lia.
        -- injection Hrest as <- <-.
           eexists. split; [cbn [after trace]; rewrite T, <- app_assoc; reflexivity|].
           rewrite requests_app, R. cbn. lia.
    + apply try_inv in Htry as [(x & _ & [=])|(e' & Ha & _)].
      destruct (Hone _ _ Ha) as (evs & T & R). exists evs. split; [exact T | cbn; lia].
Qed.

(** X20: a worker asks for at most [MAX_RETRIES] download URLs.  Whatever
    the service answers and however the worker ends, returning a path,
    returning [None] or raising, the number of download URL requests in
    what it did does not exceed [MAX_RETRIES]. *)
Theorem worker_requests_bounded cfg (i : Z) feat band_list chunk_name epsg w :
  (forall r w',
      Download.check_and_download cfg (i, feat, band_list, chunk_name) w = (r, w') ->
      exists evs, trace w' = (trace w ++ evs)%list
                  /\ (requests evs <= MAX_RETRIES cfg)%nat)
  /\
  (forall r w',
      GeeEmbeddingDownload.download_images cfg (feat, i, epsg, band_list, chunk_name) w
        = (r, w') ->
      exists evs, trace w' = (trace w ++ evs)%list
                  /\ (requests evs <= MAX_RETRIES cfg)%nat).
Proof.
  split; intros r w'.
  - unfold Download.check_and_download.
    destruct (centroid feat) as [[lon lat]|] eqn:Hc.
    2:{ rewrite (run_bind_raise _ _ _ _ _ (run_resolve_epsg_none _ _ _ Hc)).
        intros [= <- <-]. exists [ResolveCRS i]. split; [reflexivity | cbn; lia]. }
    rewrite (run_bind_ret _ _ _ _ _ (run_resolve_epsg_some _ _ _ _ _ Hc)).
    rewrite (run_bind_ret _ _ _ _ _ (run_makedirs _ _)).
    rewrite (run_bind_ret _ _ _ _ _ (run_path_exists _ _ _)).
    set (dir := out_dir cfg chunk_name).
    set (name := filename cfg (Download.epsg_code lon lat) chunk_name i).
    set (w0 := with_dir (after w [ResolveCRS i]) dir).
    assert (trace w0 = (trace w ++ [ResolveCRS i])%list) as T0 by apply trace_with_dir.
    destruct (bool_decide _).
    { intros [= <- <-]. exists [ResolveCRS i]. split; [exact T0 | cbn; lia]. }
    unfold Download.get_embedding_image.
    destruct (transform_ok feat && image_ok feat).
    2:{ unfold bind at 1, try_ at 1, raise at 1. cbn [is_Exception].
        rewrite (run_bind_ret _ _ _ _ _ (run_log _ _ _)). intros [= <- <-].
        exists [ResolveCRS i; Log ERROR (MsgImageFailed (Some i))].
        split; [cbn; rewrite T0, <- app_assoc; reflexivity | cbn; lia]. }
    unfold bind at 1, try_ at 1, ret at 1.
    intros [(o & w1 & Hloop & Hrest)|(e & Hloop & ->)]%bind_inv;
      destruct (retry_loop_requests _ _ _ _ _ _ _ _ _ _ _ Hloop) as (evs & T & R);
      rewrite length_seq in R.
    + destruct o as [outp|].
      * injection Hrest as <- <-. exists ([ResolveCRS i] ++ evs)%list.
        split; [rewrite T, T0, <- app_assoc; reflexivity|]. rewrite requests_app. cbn. lia.
      * rewrite (run_bind_ret _ _ _ _ _ (run_log _ _ _)) in Hrest.
        injection Hrest as <- <-.
        exists ([ResolveCRS i] ++ evs ++ [Log ERROR (MsgGaveUp name)])%list.
        split; [cbn [after trace]; rewrite T, T0, <- !app_assoc; reflexivity|].
        rewrite !requests_app. cbn. lia.
    + exists ([ResolveCRS i] ++ evs)%list.
      split; [rewrite T, T0, <- app_assoc; reflexivity|]. rewrite requests_app. cbn. lia.
  - unfold GeeEmbeddingDownload.download_images.
    destruct (transform_ok feat).
    2:{ unfold bind at 1, raise at 1. intros [= <- <-]. exists [].
        split; [now rewrite app_nil_r | cbn; lia]. }
    unfold bind at 1, ret at 1.
    destruct (image_ok feat).
    2:{ unfold bind at 1, try_ at 1, raise at 1. cbn [is_Exception].
        rewrite (run_bind_ret _ _ _ _ _ (run_log _ _ _)). intros [= <- <-].
        exists [Log ERROR (MsgImageFailed None)]. split; [reflexivity | cbn; lia]. }
    unfold bind at 1, try_ at 1, ret at 1.
    rewrite (run_bind_ret _ _ _ _ _ (run_makedirs _ _)).
    rewrite (run_bind_ret _ _ _ _ _ (run_path_exists _ _ _)).
    set (dir := out_dir cfg chunk_name).
    set (name := filename cfg epsg chunk_name i).
    set (w0 := with_dir w dir).
    assert (trace w0 = trace w) as T0 by apply trace_with_dir.
    destruct (bool_decide _).
    { intros [= <- <-]. exists []. split; [now rewrite app_nil_r | cbn; lia]. }
    intros [(o & w1 & Hloop & Hrest)|(e & Hloop & ->)]%bind_inv;
      destruct (retry_loop_requests _ _ _ _ _ _ _ _ _ _ _ Hloop) as (evs & T & R);
      rewrite length_seq in R.
    + destruct o as [outp|].
      * injection Hrest as <- <-. exists evs. split; [now rewrite T, T0 | exact R].
      * rewrite (run_bind_ret _ _ _ _ _ (run_log _ _ _)) in Hrest.
        injection Hrest as <- <-.
        exists (evs ++ [Log ERROR (MsgGaveUp name)])%list.
        split; [cbn [after trace]; rewrite T, T0, <- !app_assoc; reflexivity|].
        rewrite requests_app. cbn. lia.
    + exists evs. split; [now rewrite T, T0 | exact R].
Qed.

(** ** An export that fails *)

Lemma run_wait_for_export zone polls w :
  exists evs, GeeEmbeddingDownload.wait_for_export zone polls w = (Ret tt, after w evs).
Proof.
  revert w. induction polls as [|polls IH]; intros w; cbn [GeeEmbeddingDownload.wait_for_export].
  - exists []. now rewrite after_nil.
  - rewrite (run_bind_ret _ _ _ _ _ (run_log _ _ _)).
    unfold sleep. change (Qle_bool 0 10) with true. cbv iota.
    rewrite (run_bind_ret _ _ _ _ _ (run_emit _ _)).
    destruct (IH (after (after w [Log INFO (MsgWaiting zone)]) [Sleep 10])) as [evs ->].
    eexists. rewrite !after_after. reflexivity.
Qed.

(** X21: a failed export is not noticed by the provisioning.  For a zone
    that meets the country and has no grid asset yet, an export task that
    ends without producing the asset is still logged as completed and the
    zone is returned with the others; the failure surfaces in [main],
    where listing the missing grid raises out of the run for the first
    chunk. *)
Theorem failed_export_is_reported_done cfg z epsg w :
  let zone := zone_number z in
  let aid := zone_asset cfg zone in
  barren z = false ->
  GeeEmbeddingDownload.utm_epsg zone (SOUTH cfg) = Some epsg ->
  assets w !! aid = None ->
  export_ok z = false ->
  exists evs crs,
    GeeEmbeddingDownload.export_zone cfg z w
    = (Ret (Some (zone, epsg, crs, aid)), after w (evs ++ [Log INFO (MsgExported zone)]))
    /\ forall chunk,
         GeeEmbeddingDownload.process_zone cfg chunk (zone, epsg, crs, aid)
           (after w (evs ++ [Log INFO (MsgExported zone)]))
         = (Raise EEException, after w (evs ++ [Log INFO (MsgExported zone)])).
Proof.
  intros zone aid Hb He Ha Hfail. unfold GeeEmbeddingDownload.export_zone, barren in *.
  fold zone. destruct (area z) as [a|]; [|discriminate]. rewrite Hb, He.
  fold (zone_asset cfg zone). fold aid.
  unfold bind at 1, GeeEmbeddingDownload.asset_exists at 1.
  rewrite bool_decide_eq_false_2 by (rewrite Ha; now intros [x Hx]).
  destruct (run_wait_for_export zone (export_polls z)
              (after (after w [Log INFO (MsgExporting aid)]) [StartExport aid])) as [evs Hw].
  assert ((log INFO (MsgExporting aid) ;;
           GeeEmbeddingDownload.run_export z aid ;;
           log INFO (MsgExported zone)) w
          = (Ret tt, after w (([Log INFO (MsgExporting aid); StartExport aid] ++ evs)
                              ++ [Log INFO (MsgExported zone)]))) as Hinner.
  { rewrite (run_bind_ret _ _ _ _ _ (run_log _ _ _)).
    unfold GeeEmbeddingDownload.run_export at 1.
    unfold bind at 1. rewrite (run_bind_ret _ _ _ _ _ (run_emit _ _)).
    fold zone. rewrite (run_bind_ret _ _ _ _ _ Hw), Hfail.
    unfold ret at 1. rewrite run_log, !after_after. reflexivity. }
  rewrite (run_bind_ret _ _ _ _ _ Hinner).
  eexists _, _. split; [reflexivity|].
  intros [chunk_name band_list]. unfold GeeEmbeddingDownload.process_zone.
  unfold bind at 1, GeeEmbeddingDownload.asset_features at 1. cbn [after assets].
  now rewrite Ha.
Qed.

(** X21 at a zone whose export runs for one poll and fails. *)
Lemma failed_export_is_reported_done_witness :
  let z := ZoneFeature 32 (Some 5%Q) [sound_tile] 1 false in
  exists evs crs,
    GeeEmbeddingDownload.export_zone sample_config z empty_world
    = (Ret (Some (32, 32632, crs, zone_asset sample_config 32)),
       after empty_world (evs ++ [Log INFO (MsgExported 32)]))
    /\ fst (GeeEmbeddingDownload.main sample_config [z] empty_world) = Raise EEException.
Proof.
  intros z.
  destruct (failed_export_is_reported_done sample_config z 32632 empty_world
              eq_refl eq_refl eq_refl eq_refl) as (evs & crs & Hrun & _).
  exists evs, crs. split; [exact Hrun | vm_compute; reflexivity].
Defined.
